(** * wordblitz: the game engine of app/routes.py over app/db.py

    A shallow embedding of the Flask handlers ([register], [me], [new_game],
    [current_game], [guess], [leaderboard], [stats]), of the guess evaluator
    [_evaluate_guess] and of the storage helpers [query_db] / [execute_db].

    - Python [str] values are lists of Unicode code points.
    - The SQL tables are lists of rows; every statement is a function on them.
    - A handler is a computation in the [DB] monad: it threads the stored
      tables, may raise, and every storage call commits on its own, as
      [query_db] and [execute_db] do.  A storage call may itself raise; the
      handlers catch nothing, so the request then ends with what was
      committed before. *)

From Stdlib Require Import String Ascii QArith ZArith NArith Bool Arith Lia.
From Stdlib Require Import List Sorting.Sorted Sorting.Permutation.
Import ListNotations.

Open Scope Z_scope.
Open Scope list_scope.

(** ** Python strings *)

Definition codepoint := N.
Definition pystr := list codepoint.

Fixpoint str_eqb (a b : pystr) : bool :=
  match a, b with
  | [], [] => true
  | x :: a', y :: b' => N.eqb x y && str_eqb a' b'
  | _, _ => false
  end.

(** An ASCII literal of the source as a Python string. *)
Fixpoint lit (s : string) : pystr :=
  match s with
  | EmptyString => []
  | String c s' => N_of_ascii c :: lit s'
  end.

Definition is_ascii_letter (c : codepoint) : bool :=
  ((65 <=? c) && (c <=? 90) || (97 <=? c) && (c <=? 122))%N.

(** ** Exceptions *)

Inductive exn := IndexError | ValueError | AttributeError | TypeError | OperationalError.

Inductive res (A : Type) : Type :=
| Ret (a : A)
| Raise (e : exn).
Arguments Ret {A} a.
Arguments Raise {A} e.

Definition res_bind {A B} (m : res A) (k : A -> res B) : res B :=
  match m with
  | Ret a => k a
  | Raise e => Raise e
  end.

Notation "x <~ m ;; k" := (res_bind m (fun x => k))
  (at level 61, m at next level, right associativity).

(** [l[i]] and [l[i] = v] for [0 <= i]. *)
Definition getitem {A} (l : list A) (i : nat) : res A :=
  match nth_error l i with
  | Some a => Ret a
  | None => Raise IndexError
  end.

Fixpoint list_set {A} (l : list A) (i : nat) (v : A) : list A :=
  match l, i with
  | [], _ => []
  | _ :: t, O => v :: t
  | h :: t, S j => h :: list_set t j v
  end.

Definition setitem {A} (l : list A) (i : nat) (v : A) : res (list A) :=
  if (i <? length l)%nat then Ret (list_set l i v) else Raise IndexError.

(** [for i in idxs: st = body(st, i)], stopping at the first exception. *)
Fixpoint for_each {S} (idxs : list nat) (body : S -> nat -> res S) (st : S) : res S :=
  match idxs with
  | [] => Ret st
  | i :: rest =>
      match body st i with
      | Ret st' => for_each rest body st'
      | Raise e => Raise e
      end
  end.

(** ** The guess evaluator *)

Inductive mark := correct | present | absent.

Record entry := mk_entry { letter : codepoint; status : mark }.

Definition is_hit (m : mark) : bool :=
  match m with
  | absent => false
  | _ => true
  end.

(** A cell of [target_remaining]: [None] once consumed. *)
Definition cell_is (x : codepoint) (c : option codepoint) : bool :=
  match c with
  | Some y => N.eqb y x
  | None => false
  end.

(** [letter in target_remaining] *)
Definition contains (l : list (option codepoint)) (x : codepoint) : bool :=
  existsb (cell_is x) l.

(** [target_remaining.index(letter)] *)
Fixpoint index (l : list (option codepoint)) (x : codepoint) : res nat :=
  match l with
  | [] => Raise ValueError
  | c :: l' => if cell_is x c then Ret O else (k <~ index l' x ;; Ret (S k))
  end.

Definition eval_state : Type := list (option entry) * list (option codepoint).

Definition first_pass (guess target : pystr) (st : eval_state) (i : nat) : res eval_state :=
  let '(result, target_remaining) := st in
  g <~ getitem guess i ;;
  t <~ getitem target i ;;
  if N.eqb g t then
    result' <~ setitem result i (Some (mk_entry g correct)) ;;
    target_remaining' <~ setitem target_remaining i None ;;
    Ret (result', target_remaining')
  else Ret st.

Definition second_pass (guess : pystr) (st : eval_state) (i : nat) : res eval_state :=
  let '(result, target_remaining) := st in
  r <~ getitem result i ;;
  match r with
  | Some _ => Ret st
  | None =>
      l <~ getitem guess i ;;
      if contains target_remaining l then
        result' <~ setitem result i (Some (mk_entry l present)) ;;
        k <~ index target_remaining l ;;
        target_remaining' <~ setitem target_remaining k None ;;
        Ret (result', target_remaining')
      else
        result' <~ setitem result i (Some (mk_entry l absent)) ;;
        Ret (result', target_remaining)
  end.

Definition _evaluate_guess (guess target : pystr) : res (list (option entry)) :=
  let result := repeat None 5 in
  let target_remaining := map Some target in
  st1 <~ for_each (seq 0 5) (first_pass guess target) (result, target_remaining) ;;
  st2 <~ for_each (seq 0 5) (second_pass guess) st1 ;;
  Ret (fst st2).

(** Number of [correct] or [present] entries whose letter is [L]. *)
Definition hits (L : codepoint) (es : list entry) : nat :=
  length (filter (fun e => N.eqb (letter e) L && is_hit (status e)) es).

Definition occurrences (L : codepoint) (w : pystr) : nat :=
  count_occ N.eq_dec w L.

(** What the two lists hold once the first pass is over. *)
Fixpoint exact (g t : pystr) : list (option entry) :=
  match g, t with
  | x :: g', y :: t' =>
      (if N.eqb x y then Some (mk_entry x correct) else None) :: exact g' t'
  | _, _ => []
  end.

Fixpoint leftover (g t : pystr) : list (option codepoint) :=
  match g, t with
  | x :: g', y :: t' => (if N.eqb x y then None else Some y) :: leftover g' t'
  | _, _ => []
  end.

Definition b2n (b : bool) : nat := if b then 1%nat else 0%nat.

Definition count {A} (p : A -> bool) (l : list A) : nat := length (filter p l).

Definition ohit (L : codepoint) (oe : option entry) : bool :=
  match oe with
  | Some e => N.eqb (letter e) L && is_hit (status e)
  | None => false
  end.

(** The invariant of the second pass: every hit on [L] is paid for by a
    consumed cell, filled positions carry their guess letter, [correct] sits
    exactly on the equal positions, and open positions are unequal ones. *)
Record eval_inv (g t : pystr) (st : eval_state) : Prop := {
  inv_len : length (fst st) = 5%nat;
  inv_cons : forall L,
      (count (ohit L) (fst st) + count (cell_is L) (snd st))%nat = occurrences L t;
  inv_letter : forall i e, nth_error (fst st) i = Some (Some e) ->
      nth_error g i = Some (letter e);
  inv_correct : forall i e, nth_error (fst st) i = Some (Some e) ->
      (status e = correct <-> nth_error g i = nth_error t i);
  inv_pending : forall i, nth_error (fst st) i = Some None ->
      nth_error g i <> nth_error t i
}.

(** ** JSON values: request bodies, responses and the stored [result] column.
    [JFloat] carries the exact rational a Python float stands for. *)

#[warnings="-register-all"]
Inductive json :=
| JNull
| JBool (b : bool)
| JInt (z : Z)
| JFloat (q : Q)
| JStr (s : pystr)
| JArr (l : list json)
| JObj (kv : list (string * json)).

Definition is_empty {A} (l : list A) : bool :=
  match l with
  | [] => true
  | _ => false
  end.

(** Python truth value, as used by [request.get_json(silent=True) or {}]. *)
Definition truthy (j : json) : bool :=
  match j with
  | JNull => false
  | JBool b => b
  | JInt z => negb (z =? 0)
  | JFloat q => negb (Qeq_bool q 0)
  | JStr s => negb (is_empty s)
  | JArr l => negb (is_empty l)
  | JObj kv => negb (is_empty kv)
  end.

(** Lookup in a dict: of two equal keys the later one wins. *)
Definition dict_lookup (key : string) (kv : list (string * json)) : option json :=
  fold_left (fun acc p => if String.eqb (fst p) key then Some (snd p) else acc) kv None.

(** [data.get(key, default)]; only a dict has [get]. *)
Definition py_get (data : json) (key : string) (default : json) : res json :=
  match data with
  | JObj kv => Ret (match dict_lookup key kv with Some v => v | None => default end)
  | _ => Raise AttributeError
  end.

(** The receiver of a [str] method ([strip], [lower]). *)
Definition as_str (j : json) : res pystr :=
  match j with
  | JStr s => Ret s
  | _ => Raise AttributeError
  end.

(** A key of a response object. *)
Definition jget (key : string) (j : json) : option json :=
  match j with
  | JObj kv => dict_lookup key kv
  | _ => None
  end.

Definition mark_str (m : mark) : pystr :=
  match m with
  | correct => lit "correct"
  | present => lit "present"
  | absent => lit "absent"
  end.

Definition entry_json (oe : option entry) : json :=
  match oe with
  | Some e => JObj [("letter"%string, JStr [letter e]); ("status"%string, JStr (mark_str (status e)))]
  | None => JNull
  end.

(** The document [json.dumps(result)] writes. *)
Definition dumps (result : list (option entry)) : json :=
  JArr (map entry_json result).

(** ** The request and what the server draws while serving it *)

Record request := mk_request {
  remote_addr : option pystr;
  x_forwarded_for : option pystr;
  user_agent : option pystr;
  accept_language : option pystr;
  get_json : option json
}.

(** [now] is the value of [NOW()] (and of the [created_at] default);
    [random] decides which row [ORDER BY RANDOM()] puts first. *)
Record oracle := mk_oracle { now : Z; random : nat }.

(** ** Stored tables *)

Inductive game_status := active | won | lost.

Definition status_str (st : game_status) : pystr :=
  match st with
  | active => lit "active"
  | won => lit "won"
  | lost => lit "lost"
  end.

Definition is_active (st : game_status) : bool :=
  match st with
  | active => true
  | _ => false
  end.

Record player_row := mk_player {
  p_id : Z; p_name : pystr; p_fingerprint : pystr; p_created_at : Z
}.

Record word_row := mk_word { w_id : Z; w_word : pystr }.

Record game_row := mk_game {
  g_id : Z; g_player_id : Z; g_word_id : Z; g_status : game_status;
  g_num_guesses : Z; g_created_at : Z; g_completed_at : option Z
}.

(** [gs_result] is the document that [json.dumps(result)] wrote; a query
    hands it back as that document. *)
Record guess_row := mk_guess {
  gs_game_id : Z; gs_guess_word : pystr; gs_guess_number : Z; gs_result : json
}.

Record db := mk_db {
  players : list player_row;
  words : list word_row;
  games : list game_row;
  guesses : list guess_row
}.

(** A row of the [leaderboard_stats] view. *)
Record stats_row := mk_stats {
  s_player_id : Z; s_name : pystr; s_games_won : Z; s_games_played : Z;
  s_avg_guesses_per_win : option Q; s_current_streak : Z; s_best_streak : Z
}.

(** ** The storage monad: [query_db] and [execute_db]

    Each call takes a connection, runs one statement and commits it.  [fault]
    is the number of storage calls that still succeed before one raises
    ([None]: none raises); a raised call leaves the tables as they were. *)

Record world := mk_world { store : db; fault : option nat }.

Definition DB (A : Type) : Type := world -> res A * world.

Definition ret {A} (a : A) : DB A := fun w => (Ret a, w).

Definition raise {A} (e : exn) : DB A := fun w => (Raise e, w).

Definition bind {A B} (m : DB A) (k : A -> DB B) : DB B :=
  fun w =>
    match m w with
    | (Ret a, w') => k a w'
    | (Raise e, w') => (Raise e, w')
    end.

Notation "x <- m ;; k" := (bind m (fun x => k))
  (at level 61, m at next level, right associativity).

Definition lift {A} (r : res A) : DB A := fun w => (r, w).

(** The part of a storage call that can fail: taking a connection and
    running the statement.  Nothing is committed when it raises. *)
Definition connect : DB unit :=
  fun w =>
    match fault w with
    | Some O => (Raise OperationalError, mk_world (store w) None)
    | Some (S k) => (Ret tt, mk_world (store w) (Some k))
    | None => (Ret tt, w)
    end.

Definition query_db {A} (q : db -> list A) : DB (list A) :=
  _ <- connect ;; fun w => (Ret (q (store w)), w).

(** [query_db(..., one=True)]: [rows[0]] or [None]. *)
Definition query_db_one {A} (q : db -> list A) : DB (option A) :=
  rows <- query_db q ;; ret (hd_error rows).

Definition execute_db {A} (stmt : db -> db * option A) : DB (option A) :=
  _ <- connect ;;
  fun w => let (s', r) := stmt (store w) in (Ret r, mk_world s' (fault w)).

Definition run {A} (m : DB A) (f : option nat) (s : db) : res A * db :=
  let (r, w) := m (mk_world s f) in (r, store w).

(** ** The SQL statements, as functions on the tables *)

(** [ORDER BY]: a stable insertion sort. *)
Fixpoint insert_by {A} (le : A -> A -> bool) (x : A) (l : list A) : list A :=
  match l with
  | [] => [x]
  | y :: l' => if le x y then x :: l else y :: insert_by le x l'
  end.

Definition order_by {A} (le : A -> A -> bool) (l : list A) : list A :=
  fold_right (insert_by le) [] l.

(** [ORDER BY RANDOM() LIMIT 1]: the row the draw puts first, if any. *)
Definition order_by_random_limit_1 {A} (rnd : nat) (rows : list A) : list A :=
  match nth_error rows (rnd mod length rows) with
  | Some r => [r]
  | None => []
  end.

(** Modelled from the spec: db/schema.sql is not among the sources.  A row
    gets a unique id (section 3): the serial column is taken to hand out
    one more than the largest id in use. *)
Definition fresh_id (ids : list Z) : Z :=
  1 + fold_right Z.max 0 ids.

(** [SELECT id, name, fingerprint, created_at FROM players WHERE fingerprint = %s] *)
Definition select_player (fp : pystr) (s : db) : list player_row :=
  filter (fun p => str_eqb (p_fingerprint p) fp) (players s).

(** [INSERT INTO players (name, fingerprint) VALUES (%s, %s) RETURNING ...] *)
Definition insert_player (name fp : pystr) (t : Z) (s : db) : db * option player_row :=
  let row := mk_player (fresh_id (map p_id (players s))) name fp t in
  (mk_db (players s ++ [row]) (words s) (games s) (guesses s), Some row).

(** The columns [id, status, num_guesses, created_at] of a game. *)
Record active_row := mk_active {
  a_id : Z; a_status : game_status; a_num_guesses : Z; a_created_at : Z
}.

Definition owned_active (pid : Z) (g : game_row) : bool :=
  (g_player_id g =? pid) && is_active (g_status g).

Definition game_columns (g : game_row) : active_row :=
  mk_active (g_id g) (g_status g) (g_num_guesses g) (g_created_at g).

(** [SELECT id, status, num_guesses, created_at FROM games
     WHERE player_id = %s AND status = 'active'] *)
Definition select_active_game (pid : Z) (s : db) : list active_row :=
  map game_columns (filter (owned_active pid) (games s)).

(** The columns [guess_word, guess_number, result] of a guess. *)
Record guess_view := mk_view {
  v_guess_word : pystr; v_guess_number : Z; v_result : json
}.

Definition guess_columns (r : guess_row) : guess_view :=
  mk_view (gs_guess_word r) (gs_guess_number r) (gs_result r).

Definition by_guess_number (a b : guess_view) : bool :=
  v_guess_number a <=? v_guess_number b.

(** [SELECT guess_word, guess_number, result FROM guesses
     WHERE game_id = %s ORDER BY guess_number] *)
Definition select_guesses (gid : Z) (s : db) : list guess_view :=
  order_by by_guess_number
    (map guess_columns (filter (fun r => gs_game_id r =? gid) (guesses s))).

(** [id NOT IN (SELECT word_id FROM games WHERE player_id = %s)] *)
Definition unseen (pid : Z) (s : db) (w : word_row) : bool :=
  negb (existsb (fun g => (g_player_id g =? pid) && (g_word_id g =? w_id w)) (games s)).

(** [SELECT id, word FROM words WHERE id NOT IN (...) ORDER BY RANDOM() LIMIT 1] *)
Definition select_unseen_word (pid : Z) (rnd : nat) (s : db) : list word_row :=
  order_by_random_limit_1 rnd (filter (unseen pid s) (words s)).

(** [SELECT id, word FROM words ORDER BY RANDOM() LIMIT 1] *)
Definition select_any_word (rnd : nat) (s : db) : list word_row :=
  order_by_random_limit_1 rnd (words s).

(** [INSERT INTO games (player_id, word_id) VALUES (%s, %s) RETURNING ...].
    Modelled from the spec: the column defaults of db/schema.sql are not among
    the sources; a game is created with status [active], guess count 0 and no
    completion time (sections 3 and 4.3). *)
Definition insert_game (pid wid t : Z) (s : db) : db * option active_row :=
  let row := mk_game (fresh_id (map g_id (games s))) pid wid active 0 t None in
  (mk_db (players s) (words s) (games s ++ [row]) (guesses s), Some (game_columns row)).

(** The columns [g.id, g.status, g.num_guesses, w.word] of the join. *)
Record game_word_row := mk_game_word {
  gw_id : Z; gw_status : game_status; gw_num_guesses : Z; gw_word : pystr
}.

(** [SELECT g.id, g.status, g.num_guesses, w.word
     FROM games g JOIN words w ON w.id = g.word_id
     WHERE g.player_id = %s AND g.status = 'active'] *)
Definition select_active_game_word (pid : Z) (s : db) : list game_word_row :=
  flat_map
    (fun g =>
       if owned_active pid g then
         map (fun w => mk_game_word (g_id g) (g_status g) (g_num_guesses g) (w_word w))
             (filter (fun w => w_id w =? g_word_id g) (words s))
       else [])
    (games s).

(** [SELECT 1 FROM words WHERE word = %s] *)
Definition select_word (word : pystr) (s : db) : list Z :=
  map (fun _ => 1) (filter (fun w => str_eqb (w_word w) word) (words s)).

(** [INSERT INTO guesses (game_id, guess_word, guess_number, result) VALUES ...];
    nothing is returned. *)
Definition insert_guess (gid : Z) (word : pystr) (n : Z) (result : json) (s : db)
  : db * option unit :=
  (mk_db (players s) (words s) (games s) (guesses s ++ [mk_guess gid word n result]), None).

Definition set_finished (n : Z) (st : game_status) (t : Z) (g : game_row) : game_row :=
  mk_game (g_id g) (g_player_id g) (g_word_id g) st n (g_created_at g) (Some t).

Definition set_num_guesses (n : Z) (g : game_row) : game_row :=
  mk_game (g_id g) (g_player_id g) (g_word_id g) (g_status g) n (g_created_at g)
          (g_completed_at g).

Definition update_where_id (gid : Z) (f : game_row -> game_row) (s : db) : db * option Z :=
  (mk_db (players s) (words s)
         (map (fun g => if g_id g =? gid then f g else g) (games s)) (guesses s),
   hd_error (map g_id (filter (fun g => g_id g =? gid) (games s)))).

(** [UPDATE games SET num_guesses = %s, status = %s, completed_at = NOW()
     WHERE id = %s RETURNING id] *)
Definition update_game_finished (n : Z) (st : game_status) (t gid : Z) :=
  update_where_id gid (set_finished n st t).

(** [UPDATE games SET num_guesses = %s WHERE id = %s RETURNING id] *)
Definition update_game_num_guesses (n gid : Z) :=
  update_where_id gid (set_num_guesses n).

(** ** What the handlers take from outside the repository's sources

    The Unicode tables behind [str.strip], [str.lower] and [str.isalpha],
    [hashlib.sha256(...).hexdigest()], [datetime.isoformat()], and the
    [leaderboard_stats] view, which db/schema.sql defines. *)

Class External := {
  uni_isspace : codepoint -> bool;
  uni_isalpha : codepoint -> bool;
  str_lower : pystr -> pystr;
  sha256_hexdigest : pystr -> pystr;
  isoformat : Z -> pystr;
  leaderboard_stats : db -> list stats_row
}.

Fixpoint drop_while {A} (p : A -> bool) (l : list A) : list A :=
  match l with
  | [] => []
  | x :: l' => if p x then drop_while p l' else l
  end.

Fixpoint take_while {A} (p : A -> bool) (l : list A) : list A :=
  match l with
  | [] => []
  | x :: l' => if p x then x :: take_while p l' else []
  end.

Definition comma : codepoint := 44%N.

(** A response: the JSON body and the HTTP status ([jsonify(...)] alone
    answers 200). *)
Definition response : Type := json * Z.

Definition jsonify (j : json) : response := (j, 200).

Definition error (msg : string) : json := JObj [("error"%string, JStr (lit msg))].

Definition guess_json (g : guess_view) : json :=
  JObj [("guess"%string, JStr (v_guess_word g));
        ("guess_number"%string, JInt (v_guess_number g));
        ("result"%string, v_result g)].

(** [request.get_json(silent=True) or {}] *)
Definition body (rq : request) : json :=
  match get_json rq with
  | Some j => if truthy j then j else JObj []
  | None => JObj []
  end.

Inductive op := Register | Me | NewGame | CurrentGame | Guess | Leaderboard | Stats.

Section Handlers.
Context {ext : External}.

(** [s.strip()] *)
Definition strip (s : pystr) : pystr :=
  rev (drop_while uni_isspace (rev (drop_while uni_isspace s))).

(** [s.isalpha()] *)
Definition isalpha (s : pystr) : bool :=
  negb (is_empty s) && forallb uni_isalpha s.

Definition get_fingerprint (rq : request) : pystr :=
  let ip :=
    match x_forwarded_for rq with
    | Some v => v
    | None => match remote_addr rq with Some a => a | None => [] end
    end in
  let ip :=
    if existsb (N.eqb comma) ip
    then strip (take_while (fun c => negb (N.eqb c comma)) ip)
    else ip in
  let raw :=
    ip ++ match user_agent rq with Some v => v | None => [] end
       ++ match accept_language rq with Some v => v | None => [] end in
  sha256_hexdigest raw.

Definition _player_by_fingerprint (fp : pystr) : DB (option player_row) :=
  query_db_one (select_player fp).

Definition _serialize_player (p : player_row) : json :=
  JObj [("id"%string, JInt (p_id p));
        ("name"%string, JStr (p_name p));
        ("fingerprint"%string, JStr (p_fingerprint p));
        ("created_at"%string, JStr (isoformat (p_created_at p)))].

Definition register (rq : request) (o : oracle) : DB response :=
  v <- lift (py_get (body rq) "name" (JStr [])) ;;
  raw <- lift (as_str v) ;;
  let name := strip raw in
  if is_empty name then ret (error "Name is required", 400) else
  let fp := get_fingerprint rq in
  existing <- _player_by_fingerprint fp ;;
  match existing with
  | Some _ => ret (error "Player already registered from this browser", 409)
  | None =>
      player <- execute_db (insert_player name fp (now o)) ;;
      match player with
      | Some p => ret (_serialize_player p, 201)
      | None => raise TypeError
      end
  end.

Definition me (rq : request) : DB response :=
  let fp := get_fingerprint rq in
  player <- _player_by_fingerprint fp ;;
  match player with
  | None => ret (error "Player not found", 404)
  | Some p => ret (jsonify (_serialize_player p))
  end.

Definition new_game (rq : request) (o : oracle) : DB response :=
  let fp := get_fingerprint rq in
  player <- _player_by_fingerprint fp ;;
  match player with
  | None => ret (error "Player not registered", 401)
  | Some player =>
      let pid := p_id player in
      active <- query_db_one (select_active_game pid) ;;
      match active with
      | Some a =>
          guesses <- query_db (select_guesses (a_id a)) ;;
          ret (jsonify (JObj [("game_id"%string, JInt (a_id a));
                              ("guesses"%string, JArr (map guess_json guesses))]))
      | None =>
          word <- query_db_one (select_unseen_word pid (random o)) ;;
          word <- match word with
                  | Some w => ret (Some w)
                  | None => query_db_one (select_any_word (random o))
                  end ;;
          match word with
          | None => ret (error "No words available", 500)
          | Some w =>
              game <- execute_db (insert_game pid (w_id w) (now o)) ;;
              match game with
              | Some g => ret (JObj [("game_id"%string, JInt (a_id g));
                                     ("guesses"%string, JArr [])], 201)
              | None => raise TypeError
              end
          end
      end
  end.

Definition current_game (rq : request) : DB response :=
  let fp := get_fingerprint rq in
  player <- _player_by_fingerprint fp ;;
  match player with
  | None => ret (error "Player not registered", 401)
  | Some player =>
      game <- query_db_one (select_active_game (p_id player)) ;;
      match game with
      | None => ret (error "No active game", 404)
      | Some game =>
          guesses <- query_db (select_guesses (a_id game)) ;;
          ret (jsonify (JObj [("game_id"%string, JInt (a_id game));
                              ("status"%string, JStr (status_str (a_status game)));
                              ("num_guesses"%string, JInt (a_num_guesses game));
                              ("guesses"%string, JArr (map guess_json guesses))]))
      end
  end.

Definition is_terminal (st : game_status) : bool := negb (is_active st).

Definition guess (rq : request) (o : oracle) : DB response :=
  let fp := get_fingerprint rq in
  player <- _player_by_fingerprint fp ;;
  match player with
  | None => ret (error "Player not registered", 401)
  | Some player =>
  game <- query_db_one (select_active_game_word (p_id player)) ;;
  match game with
  | None => ret (error "No active game", 404)
  | Some game =>
  v <- lift (py_get (body rq) "guess" (JStr [])) ;;
  raw <- lift (as_str v) ;;
  let guess_word := str_lower (strip raw) in
  if negb (length guess_word =? 5)%nat || negb (isalpha guess_word)
  then ret (error "Guess must be exactly 5 letters", 400) else
  valid <- query_db_one (select_word guess_word) ;;
  match valid with
  | None => ret (error "Not a valid word", 400)
  | Some _ =>
  let target := gw_word game in
  let guess_number := gw_num_guesses game + 1 in
  result <- lift (_evaluate_guess guess_word target) ;;
  let is_won := str_eqb guess_word target in
  let is_lost := (guess_number =? 6) && negb is_won in
  let new_status := if is_won then won else if is_lost then lost else active in
  _ <- execute_db (insert_guess (gw_id game) guess_word guess_number (dumps result)) ;;
  _ <- (if is_terminal new_status
        then execute_db (update_game_finished guess_number new_status (now o) (gw_id game))
        else execute_db (update_game_num_guesses guess_number (gw_id game))) ;;
  all_guesses <- query_db (select_guesses (gw_id game)) ;;
  let resp :=
    [("game_id"%string, JInt (gw_id game));
     ("status"%string, JStr (status_str new_status));
     ("num_guesses"%string, JInt guess_number);
     ("guess"%string,
      JObj [("guess"%string, JStr guess_word);
            ("guess_number"%string, JInt guess_number);
            ("result"%string, dumps result)]);
     ("guesses"%string, JArr (map guess_json all_guesses))] in
  let resp := if is_lost then resp ++ [("answer"%string, JStr target)] else resp in
  ret (jsonify (JObj resp))
  end end end.

(** [ORDER BY avg_guesses_per_win ASC]: NULLs sort last. *)
Definition by_avg_guesses (a b : stats_row) : bool :=
  match s_avg_guesses_per_win a, s_avg_guesses_per_win b with
  | Some x, Some y => Qle_bool x y
  | Some _, None => true
  | None, Some _ => false
  | None, None => true
  end.

(** [ORDER BY games_won DESC] *)
Definition by_games_won_desc (a b : stats_row) : bool :=
  s_games_won b <=? s_games_won a.

Definition select_champions (s : db) : list stats_row :=
  firstn 20 (order_by by_avg_guesses
               (filter (fun r => 5 <=? s_games_won r) (leaderboard_stats s))).

Definition select_prolific (s : db) : list stats_row :=
  firstn 20 (order_by by_games_won_desc (leaderboard_stats s)).

Definition select_stats (pid : Z) (s : db) : list stats_row :=
  filter (fun r => s_player_id r =? pid) (leaderboard_stats s).

Definition float_or_null (q : option Q) : json :=
  match q with
  | Some x => JFloat x
  | None => JNull
  end.

Definition _serialize (rows : list stats_row) : json :=
  JArr (map (fun r =>
    JObj [("name"%string, JStr (s_name r));
          ("games_won"%string, JInt (s_games_won r));
          ("games_played"%string, JInt (s_games_played r));
          ("avg_guesses_per_win"%string, float_or_null (s_avg_guesses_per_win r));
          ("current_streak"%string, JInt (s_current_streak r));
          ("best_streak"%string, JInt (s_best_streak r))]) rows).

Definition leaderboard : DB response :=
  champions <- query_db select_champions ;;
  prolific <- query_db select_prolific ;;
  ret (jsonify (JObj [("champions"%string, _serialize champions);
                      ("prolific"%string, _serialize prolific)])).

Definition stats (rq : request) : DB response :=
  let fp := get_fingerprint rq in
  player <- _player_by_fingerprint fp ;;
  match player with
  | None => ret (error "Player not found", 404)
  | Some player =>
      row <- query_db_one (select_stats (p_id player)) ;;
      match row with
      | None =>
          ret (jsonify (JObj [("games_won"%string, JInt 0);
                              ("games_lost"%string, JInt 0);
                              ("avg_guesses"%string, JNull);
                              ("current_streak"%string, JInt 0);
                              ("best_streak"%string, JInt 0)]))
      | Some row =>
          ret (jsonify (JObj [("games_won"%string, JInt (s_games_won row));
                              ("games_lost"%string,
                               JInt (s_games_played row - s_games_won row));
                              ("avg_guesses"%string,
                               float_or_null (s_avg_guesses_per_win row));
                              ("current_streak"%string, JInt (s_current_streak row));
                              ("best_streak"%string, JInt (s_best_streak row))]))
      end
  end.

(** One request to the API. *)
Definition handle (o : op) (rq : request) (orc : oracle) : DB response :=
  match o with
  | Register => register rq orc
  | Me => me rq
  | NewGame => new_game rq orc
  | CurrentGame => current_game rq
  | Guess => guess rq orc
  | Leaderboard => leaderboard
  | Stats => stats rq
  end.

(** The guess as the handler normalises it, when the body carries one. *)
Definition normalized_guess (rq : request) : res pystr :=
  v <~ py_get (body rq) "guess" (JStr []) ;;
  raw <~ as_str v ;;
  Ret (str_lower (strip raw)).

Definition well_formed (w : pystr) : bool :=
  (length w =? 5)%nat && isalpha w.

End Handlers.

(** ** State predicates *)

Definition active_games_of (pid : Z) (s : db) : list game_row :=
  filter (owned_active pid) (games s).

(** At most one [active] game per player. *)
Definition one_active_game (s : db) : Prop :=
  forall pid, (length (active_games_of pid s) <= 1)%nat.

(** Modelled from the spec: db/schema.sql is not among the sources.  The id
    of a game is unique (section 3). *)
Definition game_ids_unique (s : db) : Prop :=
  NoDup (map g_id (games s)).

Definition in_bank (w : pystr) (s : db) : bool :=
  existsb (fun r => str_eqb (w_word r) w) (words s).

(** Every bank word is made of ASCII letters. *)
Definition ascii_bank (s : db) : bool :=
  forallb (fun r => forallb is_ascii_letter (w_word r)) (words s).

(** The status the game takes after guess number [n]. *)
Definition outcome (w target : pystr) (n : Z) : game_status :=
  if str_eqb w target then won else if n =? 6 then lost else active.

(** The two writes of an accepted guess [w] against the joined row [gw]. *)
Definition record_guess (gw : game_word_row) (w : pystr) (result : list (option entry))
    (s : db) : db :=
  fst (insert_guess (gw_id gw) w (gw_num_guesses gw + 1) (dumps result) s).

Definition advance_game (gw : game_word_row) (w : pystr) (t : Z) (s : db) : db :=
  let n := gw_num_guesses gw + 1 in
  let st := outcome w (gw_word gw) n in
  if is_active st
  then fst (update_game_num_guesses n (gw_id gw) s)
  else fst (update_game_finished n st t (gw_id gw) s).

(** The body of the response to an accepted guess; [history] is the game's
    guess list as read back after the two writes. *)
Definition guess_response (gw : game_word_row) (w : pystr) (result : list (option entry))
    (history : list guess_view) : json :=
  let n := gw_num_guesses gw + 1 in
  let st := outcome w (gw_word gw) n in
  JObj ([("game_id"%string, JInt (gw_id gw));
         ("status"%string, JStr (status_str st));
         ("num_guesses"%string, JInt n);
         ("guess"%string,
          JObj [("guess"%string, JStr w);
                ("guess_number"%string, JInt n);
                ("result"%string, dumps result)]);
         ("guesses"%string, JArr (map guess_json history))]
        ++ match st with
           | lost => [("answer"%string, JStr (gw_word gw))]
           | _ => []
           end).

(** The words a new game draws its target from. *)
Definition candidates (pid : Z) (s : db) : list word_row :=
  match filter (unseen pid s) (words s) with
  | [] => words s
  | fresh => fresh
  end.

(** Every string value inside a JSON document. *)
Fixpoint json_strings (j : json) : list pystr :=
  match j with
  | JStr s => [s]
  | JArr l =>
      (fix each (l : list json) : list pystr :=
         match l with
         | [] => []
         | x :: l' => json_strings x ++ each l'
         end) l
  | JObj kv =>
      (fix each (kv : list (string * json)) : list pystr :=
         match kv with
         | [] => []
         | p :: kv' => json_strings (snd p) ++ each kv'
         end) kv
  | _ => []
  end.

(** No recorded guess of an active game is its target or carries it. *)
Definition target_unguessed (s : db) : Prop :=
  forall g wr r,
    In g (games s) -> g_status g = active ->
    In wr (words s) -> w_id wr = g_word_id g ->
    In r (guesses s) -> gs_game_id r = g_id g ->
    ~ In (w_word wr) (gs_guess_word r :: json_strings (gs_result r)).

(** How one request changes the [games] table. *)
Inductive games_step {ext : External} (o : op) (rq : request) (s s' : db) : Prop :=
| games_same : games s' = games s -> games_step o rq s s'
| games_started p row :
    o = NewGame ->
    hd_error (select_player (get_fingerprint rq) s) = Some p ->
    active_games_of (p_id p) s = [] ->
    g_id row = fresh_id (map g_id (games s)) ->
    g_player_id row = p_id p -> g_status row = active ->
    games s' = games s ++ [row] ->
    games_step o rq s s'
| games_advanced i g st n t :
    o = Guess ->
    nth_error (games s) i = Some g -> g_status g = active ->
    games s' = map (fun r => if g_id r =? g_id g
                             then match st with
                                  | active => set_num_guesses n r
                                  | _ => set_finished n st t r
                                  end
                             else r) (games s) ->
    games_step o rq s s'.

(** Modelled from the spec: db/schema.sql and db/words.py are not among the
    sources.  Word ids are unique, every bank word has five letters
    (section 3), and a guess belongs to a stored game. *)
Definition word_ids_unique (s : db) : Prop :=
  NoDup (map w_id (words s)).

Definition five_letter_bank (s : db) : Prop :=
  forall wr, In wr (words s) -> length (w_word wr) = 5%nat.

Definition guesses_have_games (s : db) : Prop :=
  forall r, In r (guesses s) -> In (gs_game_id r) (map g_id (games s)).

(** The states the handlers keep to while storage works. *)
Record consistent (s : db) : Prop := {
  c_unguessed : target_unguessed s;
  c_game_ids : game_ids_unique s;
  c_word_ids : word_ids_unique s;
  c_bank : five_letter_bank s;
  c_guesses : guesses_have_games s
}.

(** A guess submission that is all or nothing: the tables are as before, or
    the guess is recorded and the game's count and status are updated. *)
Definition all_or_nothing {ext : External} (rq : request) (orc : oracle)
    (f : option nat) (s : db) : Prop :=
  let s' := snd (run (guess rq orc) f s) in
  s' = s \/
  exists p gw w result,
    hd_error (select_player (get_fingerprint rq) s) = Some p /\
    hd_error (select_active_game_word (p_id p) s) = Some gw /\
    normalized_guess rq = Ret w /\
    _evaluate_guess w (gw_word gw) = Ret result /\
    s' = advance_game gw w (now orc) (record_guess gw w result s).


(** Registration that answers Conflict whenever the derived fingerprint
    already has a player. *)
Definition conflict_when_known {ext : External} (rq : request) (orc : oracle)
    (s : db) : Prop :=
  (exists p, hd_error (select_player (get_fingerprint rq) s) = Some p) ->
  fst (run (register rq orc) None s)
  = Ret (error "Player already registered from this browser", 409).

(** ** A concrete environment for running the handlers

    The Unicode tables restricted to code points below 256 (Latin-1), as
    CPython has them there; the digest and the timestamp rendering are
    stand-ins (the handlers only compare and copy their results), and the
    statistics view is empty. *)

Definition latin1_isspace (c : codepoint) : bool :=
  ((9 <=? c) && (c <=? 13) || (28 <=? c) && (c <=? 32) || (c =? 133) || (c =? 160))%N.

Definition latin1_isalpha (c : codepoint) : bool :=
  (is_ascii_letter c || (c =? 170) || (c =? 181) || (c =? 186)
   || (192 <=? c) && (c <=? 214) || (216 <=? c) && (c <=? 246)
   || (248 <=? c) && (c <=? 255))%N.

Definition latin1_lower_char (c : codepoint) : codepoint :=
  (if (65 <=? c) && (c <=? 90) || (192 <=? c) && (c <=? 214) || (216 <=? c) && (c <=? 222)
   then c + 32 else c)%N.

Definition latin1 : External := {|
  uni_isspace := latin1_isspace;
  uni_isalpha := latin1_isalpha;
  str_lower := map latin1_lower_char;
  sha256_hexdigest := fun raw => raw;
  isoformat := fun _ => lit "1970-01-01T00:00:00";
  leaderboard_stats := fun _ => []
|}.

Definition browser (json_body : option json) : request :=
  mk_request (Some (lit "10.0.0.1")) None (Some (lit "ua")) (Some (lit "en")) json_body.

Definition say (key : string) (value : string) : option json :=
  Some (JObj [(key, JStr (lit value))]).

Definition bank : list word_row :=
  [mk_word 1 (lit "crane"); mk_word 2 (lit "slate"); mk_word 3 (lit "abide")].

(** ann registered from the browser above. *)
Definition ann : player_row :=
  mk_player 1 (lit "ann") (@get_fingerprint latin1 (browser None)) 0.

(** ann is registered; no game yet. *)
Definition db_registered : db := mk_db [ann] bank [] [].

Definition crane_game : game_row := mk_game 1 1 1 active 0 10 None.

(** ann plays game 1 against "crane", no guess made. *)
Definition db_playing : db := mk_db [ann] bank [crane_game] [].

(** "creme" with an e-grave (U+00E8) in third place, lowercase. *)
Definition creme : pystr := [99; 114; 232; 109; 101]%N.

(** ann plays game 1 against "crane", five guesses made. *)
Definition db_last_try : db :=
  mk_db [ann] bank [mk_game 1 1 1 active 5 10 None]
    (map (fun n => mk_guess 1 (lit "slate") n JNull) [1; 2; 3; 4; 5]).

(** ann plays game 2 against "crane" after winning game 1 against "slate";
    the guesses of game 2 are stored second guess first, around the guess of
    game 1. *)
Definition db_midgame : db :=
  mk_db [ann] bank
    [mk_game 1 1 2 won 1 10 (Some 11); mk_game 2 1 1 active 2 20 None]
    [mk_guess 2 (lit "abide") 2 (JStr (lit "second"));
     mk_guess 1 (lit "slate") 1 (JStr (lit "other"));
     mk_guess 2 (lit "slate") 1 (JStr (lit "first"))].


(** ann has won game 1 against "crane" and plays no game now. *)
Definition db_played_once : db :=
  mk_db [ann] bank [mk_game 1 1 1 won 1 10 (Some 11)]
    [mk_guess 1 (lit "crane") 1 JNull].

(** ann has finished a game against each of the three bank words. *)
Definition db_played_all : db :=
  mk_db [ann] bank
    [mk_game 1 1 1 won 1 10 (Some 11); mk_game 2 1 2 won 1 20 (Some 21);
     mk_game 3 1 3 won 1 30 (Some 31)]
    [mk_guess 1 (lit "crane") 1 JNull; mk_guess 2 (lit "slate") 1 JNull;
     mk_guess 3 (lit "abide") 1 JNull].

(** Nobody is registered yet. *)
Definition db_fresh : db := mk_db [] bank [] [].

(** ann is registered over an empty bank. *)
Definition db_no_words : db := mk_db [ann] [] [] [].

(** ann plays game 1 against a three-letter target. *)
Definition db_short_target : db :=
  mk_db [ann] (bank ++ [mk_word 4 (lit "ace")]) [mk_game 1 1 4 active 0 10 None] [].

(** ** Further predicates on the evaluator and the handlers *)

(** An [absent] mark stands only where no cell of the target is left for
    its letter. *)
Definition absent_spent (st : eval_state) : Prop :=
  forall i e, nth_error (fst st) i = Some (Some e) -> status e = absent ->
    count (cell_is (letter e)) (snd st) = 0%nat.

(** A header that is not sent reads as the empty string. *)
Definition header (h : option pystr) : pystr :=
  match h with
  | Some v => v
  | None => []
  end.

Definition has_comma (s : pystr) : bool := existsb (N.eqb comma) s.

(** What the handlers keep true of a game row: an active game has at most
    five guesses and no completion time; a won game has one to six guesses,
    a lost game exactly six, and both have a completion time. *)
Definition game_ok (g : game_row) : Prop :=
  match g_status g with
  | active => 0 <= g_num_guesses g <= 5 /\ g_completed_at g = None
  | won => 1 <= g_num_guesses g <= 6 /\ g_completed_at g <> None
  | lost => g_num_guesses g = 6 /\ g_completed_at g <> None
  end.

Definition games_ok (s : db) : Prop := Forall game_ok (games s).

(** The guess numbers of game [gid], in the order the rows were inserted. *)
Definition guess_numbers (gid : Z) (s : db) : list Z :=
  map gs_guess_number (filter (fun r => gs_game_id r =? gid) (guesses s)).

Definition one_to (n : Z) : list Z := map Z.of_nat (seq 1 (Z.to_nat n)).

(** Every game has its guesses numbered 1, 2, ..., [num_guesses]. *)
Definition numbered (s : db) : Prop :=
  forall g, In g (games s) -> guess_numbers (g_id g) s = one_to (g_num_guesses g).

(** The columns of a game that no statement of the handlers assigns after
    the insert: [id], [player_id], [word_id], [created_at]. *)
Definition game_key (g : game_row) : Z * Z * Z * Z :=
  (g_id g, g_player_id g, g_word_id g, g_created_at g).

(** ** seed.py *)

(** [INSERT INTO words (word) VALUES (%s) ON CONFLICT DO NOTHING].
    Modelled from the spec: db/schema.sql is not among the sources; the
    conflict is on the word, which is unique within the bank (section 3). *)
Definition insert_word (w : pystr) (s : db) : db :=
  if in_bank w s then s
  else mk_db (players s)
             (words s ++ [mk_word (fresh_id (map w_id (words s))) w])
             (games s) (guesses s).

(** [seed_words()]: the tables after the loop is committed and the number
    the message prints.  [init_db] stands for running db/schema.sql, which is
    not among the sources; [WORDS] is the list of db/words.py. *)
Definition seed_words {ext : External} (init_db : db -> db) (WORDS : list pystr)
    (s : db) : db * nat :=
  (fold_left (fun s' word => insert_word (str_lower word) s') WORDS (init_db s),
   length WORDS).

(** ** Request bodies *)

(** [data.get(key, '')] as the receiver of [.strip()]. *)
Definition field (key : string) (rq : request) : res pystr :=
  v <~ py_get (body rq) key (JStr []) ;; as_str v.

(** The request does not say [key]: no JSON body, a body that is false as a
    Python value, or an object without the key. *)
Definition lacks (key : string) (rq : request) : bool :=
  match get_json rq with
  | None => true
  | Some j =>
      negb (truthy j) ||
      match j with
      | JObj kv => match dict_lookup key kv with None => true | Some _ => false end
      | _ => false
      end
  end.

(** A body with which [data.get(key, '').strip()] cannot go through: a true
    value that is not an object, or an object whose [key] is not a string. *)
Definition unusable (key : string) (j : json) : bool :=
  match j with
  | JObj kv =>
      match dict_lookup key kv with
      | Some (JStr _) => false
      | Some _ => true
      | None => false
      end
  | _ => truthy j
  end.

(** * Properties *)

(** ** Lists updated in place *)

Lemma length_list_set {A} (l : list A) i v : length (list_set l i v) = length l.
Proof. revert i; induction l; intros [|i]; simpl; auto. Qed.

Lemma nth_error_list_set_eq {A} (l : list A) i v :
  (i < length l)%nat -> nth_error (list_set l i v) i = Some v.
Proof.
  revert i; induction l; intros [|i] H; simpl in *; try lia; auto.
  apply IHl; lia.
Qed.

Lemma nth_error_list_set_ne {A} (l : list A) i j v :
  i <> j -> nth_error (list_set l i v) j = nth_error l j.
Proof.
  revert i j; induction l; intros [|i] [|j] H; simpl; auto; try congruence.
Qed.

Lemma count_list_set {A} (p : A -> bool) (l : list A) i v old :
  nth_error l i = Some old ->
  (count p (list_set l i v) + b2n (p old) = count p l + b2n (p v))%nat.
Proof.
  unfold count.
  revert i; induction l as [|a l IH]; intros [|i] H; simpl in *; try discriminate.
  - inversion H; subst. destruct (p old), (p v); simpl; lia.
  - specialize (IH _ H). destruct (p a); simpl; lia.
Qed.

(** ** The guess evaluator *)

Lemma index_spec l x :
  contains l x = true ->
  exists k, index l x = Ret k /\ nth_error l k = Some (Some x).
Proof.
  unfold contains. induction l as [|c l IH]; simpl; intros H; try discriminate.
  destruct (cell_is x c) eqn:E.
  - exists 0%nat. split; auto. destruct c as [y|]; simpl in *; try discriminate.
    apply N.eqb_eq in E. now subst.
  - simpl in H. destruct (IH H) as (k & Hk & Hn). exists (S k). rewrite Hk. simpl. auto.
Qed.

Lemma exact_leftover_count g t L :
  length g = length t ->
  (count (ohit L) (exact g t) + count (cell_is L) (leftover g t))%nat = occurrences L t.
Proof.
  unfold count, occurrences. revert t; induction g as [|x g IH]; intros [|y t] H; simpl in *; try discriminate; auto.
  injection H as H. specialize (IH _ H).
  destruct (N.eqb_spec x y) as [->|Hxy]; simpl.
  - destruct (N.eq_dec y L) as [->|Hn].
    + rewrite N.eqb_refl. simpl. lia.
    + apply N.eqb_neq in Hn. rewrite Hn. simpl. lia.
  - destruct (N.eq_dec y L) as [->|Hn].
    + rewrite N.eqb_refl. simpl. lia.
    + apply N.eqb_neq in Hn. rewrite Hn. simpl. lia.
Qed.

Lemma exact_nth g t i oe :
  nth_error (exact g t) i = Some oe ->
  exists x y, nth_error g i = Some x /\ nth_error t i = Some y /\
    oe = if N.eqb x y then Some (mk_entry x correct) else None.
Proof.
  revert t i; induction g as [|x g IH]; intros [|y t] [|i] H; simpl in *; try discriminate.
  - inversion H. eauto.
  - eauto.
Qed.

Lemma length_exact g t : length g = length t -> length (exact g t) = length g.
Proof.
  revert t; induction g; intros [|y t] H; simpl in *; try discriminate; auto.
Qed.

Lemma first_pass_closed g t :
  length g = 5%nat -> length t = 5%nat ->
  for_each (seq 0 5) (first_pass g t) (repeat None 5, map Some t)
  = Ret (exact g t, leftover g t).
Proof.
  intros Hg Ht.
  destruct g as [|g0 [|g1 [|g2 [|g3 [|g4 [|]]]]]]; try discriminate.
  destruct t as [|t0 [|t1 [|t2 [|t3 [|t4 [|]]]]]]; try discriminate.
  cbn.
  destruct (N.eqb g0 t0); cbn;
  destruct (N.eqb g1 t1); cbn;
  destruct (N.eqb g2 t2); cbn;
  destruct (N.eqb g3 t3); cbn;
  destruct (N.eqb g4 t4); reflexivity.
Qed.

Lemma eval_inv_first g t :
  length g = 5%nat -> length t = 5%nat -> eval_inv g t (exact g t, leftover g t).
Proof.
  intros Hg Ht. constructor; simpl.
  - rewrite length_exact; congruence.
  - intros L. apply exact_leftover_count. congruence.
  - intros i e H. apply exact_nth in H as (x & y & Hx & Hy & He).
    destruct (N.eqb x y); inversion He; subst. exact Hx.
  - intros i e H. apply exact_nth in H as (x & y & Hx & Hy & He).
    destruct (N.eqb_spec x y); inversion He; subst; simpl.
    rewrite Hx, Hy. tauto.
  - intros i H. apply exact_nth in H as (x & y & Hx & Hy & He).
    destruct (N.eqb_spec x y); try discriminate. rewrite Hx, Hy. congruence.
Qed.

Lemma getitem_lt {A} (l : list A) i :
  (i < length l)%nat -> exists a, nth_error l i = Some a /\ getitem l i = Ret a.
Proof.
  intros H. unfold getitem. destruct (nth_error l i) eqn:E; eauto.
  apply nth_error_None in E. lia.
Qed.

Lemma setitem_lt {A} (l : list A) i v :
  (i < length l)%nat -> setitem l i v = Ret (list_set l i v).
Proof. intros H. unfold setitem. apply Nat.ltb_lt in H. now rewrite H. Qed.

Lemma nth_error_list_set_inv {A} (l : list A) i j v a :
  (i < length l)%nat ->
  nth_error (list_set l i v) j = Some a ->
  (j = i /\ a = v) \/ (j <> i /\ nth_error l j = Some a).
Proof.
  intros Hi H. destruct (Nat.eq_dec i j) as [->|Hn].
  - rewrite nth_error_list_set_eq in H by assumption. inversion H. auto.
  - rewrite nth_error_list_set_ne in H by assumption. auto.
Qed.

Lemma second_pass_step g t st i :
  length g = 5%nat -> (i < 5)%nat -> eval_inv g t st ->
  exists st', second_pass g st i = Ret st' /\ eval_inv g t st' /\
    (exists e, nth_error (fst st') i = Some (Some e)) /\
    (forall j e, nth_error (fst st) j = Some (Some e) ->
                 nth_error (fst st') j = Some (Some e)).
Proof.
  intros Hg Hi [Hlen Hcons Hlet Hcor Hpend]. destruct st as [result rem]. simpl in *.
  unfold second_pass.
  destruct (getitem_lt result i) as (r & Hr & ->); [lia|]. simpl.
  destruct r as [e|].
  - exists (result, rem). split; [reflexivity|]. split; [constructor; assumption|].
    split; simpl; eauto.
  - destruct (getitem_lt g i) as (l & Hl & ->); [lia|]. simpl.
    assert (Hne : nth_error g i <> nth_error t i) by (apply Hpend; assumption).
    rewrite !(setitem_lt result) by lia. simpl.
    destruct (contains rem l) eqn:Hin.
    + destruct (index_spec _ _ Hin) as (k & -> & Hk). simpl.
      assert (Hklt : (k < length rem)%nat) by (apply nth_error_Some; congruence).
      rewrite setitem_lt by assumption. simpl.
      eexists. split; [reflexivity|]. split; [constructor; simpl|split; simpl].
      * now rewrite length_list_set.
      * intros L. specialize (Hcons L).
        pose proof (count_list_set (ohit L) result i (Some (mk_entry l present)) None Hr) as C1.
        pose proof (count_list_set (cell_is L) rem k None (Some l) Hk) as C2.
        simpl in C1, C2. destruct (N.eqb l L); simpl in *; lia.
      * intros j e H. apply nth_error_list_set_inv in H as [[-> He]|[Hj H]]; [|eauto|lia].
        inversion He; subst; simpl. assumption.
      * intros j e H. apply nth_error_list_set_inv in H as [[-> He]|[Hj H]]; [|eauto|lia].
        inversion He; subst; simpl. split; [discriminate|tauto].
      * intros j H. apply nth_error_list_set_inv in H as [[-> He]|[Hj H]]; [discriminate|eauto|lia].
      * eexists. apply nth_error_list_set_eq. lia.
      * intros j e H. rewrite nth_error_list_set_ne; [assumption|congruence].
    + eexists. split; [reflexivity|]. split; [constructor; simpl|split; simpl].
      * now rewrite length_list_set.
      * intros L. specialize (Hcons L).
        pose proof (count_list_set (ohit L) result i (Some (mk_entry l absent)) None Hr) as C1.
        simpl in C1. rewrite andb_false_r in C1. simpl in *; lia.
      * intros j e H. apply nth_error_list_set_inv in H as [[-> He]|[Hj H]]; [|eauto|lia].
        inversion He; subst; simpl. assumption.
      * intros j e H. apply nth_error_list_set_inv in H as [[-> He]|[Hj H]]; [|eauto|lia].
        inversion He; subst; simpl. split; [discriminate|tauto].
      * intros j H. apply nth_error_list_set_inv in H as [[-> He]|[Hj H]]; [discriminate|eauto|lia].
      * eexists. apply nth_error_list_set_eq. lia.
      * intros j e H. rewrite nth_error_list_set_ne; [assumption|congruence].
Qed.

Lemma second_pass_loop g t idxs : forall st,
  length g = 5%nat -> Forall (fun i => (i < 5)%nat) idxs -> eval_inv g t st ->
  exists st', for_each idxs (second_pass g) st = Ret st' /\ eval_inv g t st' /\
    (forall i, In i idxs -> exists e, nth_error (fst st') i = Some (Some e)) /\
    (forall j e, nth_error (fst st) j = Some (Some e) ->
                 nth_error (fst st') j = Some (Some e)).
Proof.
  induction idxs as [|i rest IH]; intros st Hg Hall Hinv; simpl.
  - exists st. split; [reflexivity|]. split; [assumption|]. split; [intros i []|auto].
  - inversion Hall as [|? ? Hi Hrest]; subst.
    destruct (second_pass_step g t st i Hg Hi Hinv) as (st1 & -> & Hinv1 & Hdone & Hkeep).
    destruct (IH st1 Hg Hrest Hinv1) as (st2 & -> & Hinv2 & Hall2 & Hkeep2).
    exists st2. split; [reflexivity|]. split; [assumption|]. split; [|auto].
    intros j [<-|Hin]; auto.
    destruct Hdone as (e & He). exists e. auto.
Qed.

Lemma all_some {A} (l : list (option A)) :
  (forall i, (i < length l)%nat -> exists a, nth_error l i = Some (Some a)) ->
  exists es, l = map Some es.
Proof.
  induction l as [|o l IH]; intros H.
  - exists []. reflexivity.
  - destruct (H 0%nat) as (a & Ha); [simpl; lia|]. simpl in Ha. inversion Ha; subst.
    destruct IH as (es & ->).
    + intros i Hi. apply (H (S i)). simpl; lia.
    + exists (a :: es). reflexivity.
Qed.

Lemma count_ohit_map L es : count (ohit L) (map Some es) = hits L es.
Proof.
  unfold count, hits. induction es as [|e es IH]; simpl; auto.
  destruct (N.eqb (letter e) L && is_hit (status e)); simpl; auto.
Qed.

(** The evaluator on the two inputs of section 8 of the specification. *)

Example evaluate_abcde :
  _evaluate_guess (lit "abcde") (lit "abcde")
  = Ret (map (fun c => Some (mk_entry c correct)) (lit "abcde")).
Proof. reflexivity. Qed.

Example evaluate_aabbb_ababa :
  _evaluate_guess (lit "aabbb") (lit "ababa")
  = Ret [Some (mk_entry 97 correct); Some (mk_entry 97 present);
         Some (mk_entry 98 present); Some (mk_entry 98 correct);
         Some (mk_entry 98 absent)]%N.
Proof. reflexivity. Qed.

(** A target shorter than five letters makes the evaluator raise. *)
Example evaluate_short_target :
  _evaluate_guess (lit "abcde") (lit "abcd") = Raise IndexError.
Proof. reflexivity. Qed.

(** C1: for 5-letter words [g] and [t], [_evaluate_guess g t] returns five
    [{letter, status}] entries, entry [i] carrying [g[i]]; entry [i] is
    [correct] exactly when [g[i] = t[i]]; and for every letter [L] the entries
    marked [correct] or [present] with letter [L] are no more than the
    occurrences of [L] in [t]. *)
Theorem evaluate_five g t :
  length g = 5%nat -> length t = 5%nat ->
  exists es,
    _evaluate_guess g t = Ret (map Some es) /\
    length es = 5%nat /\
    (forall i e, nth_error es i = Some e -> nth_error g i = Some (letter e)) /\
    (forall i e, nth_error es i = Some e ->
        (status e = correct <-> nth_error g i = nth_error t i)) /\
    (forall L, (hits L es <= occurrences L t)%nat).
Proof.
  intros Hg Ht. unfold _evaluate_guess.
  rewrite first_pass_closed by assumption. cbn [res_bind].
  destruct (second_pass_loop g t (seq 0 5) (exact g t, leftover g t) Hg)
    as (st & -> & [Hlen Hcons Hlet Hcor _] & Hall & _).
  - apply Forall_forall. intros i Hi. apply in_seq in Hi. lia.
  - apply eval_inv_first; assumption.
  - cbn [res_bind]. destruct (all_some (fst st)) as (es & Hes).
    + intros i Hi. apply Hall. apply in_seq. lia.
    + exists es. rewrite Hes in *. split; [reflexivity|].
      split; [now rewrite length_map in Hlen|].
      split; [|split].
      * intros i e H. apply Hlet. rewrite nth_error_map, H. reflexivity.
      * intros i e H. apply Hcor. rewrite nth_error_map, H. reflexivity.
      * intros L. specialize (Hcons L). rewrite count_ohit_map in Hcons. lia.
Qed.

Lemma evaluate_five_witness :
  (length (lit "aabbb") = 5%nat /\ length (lit "ababa") = 5%nat) /\
  exists es,
    _evaluate_guess (lit "aabbb") (lit "ababa") = Ret (map Some es) /\
    length es = 5%nat /\
    (forall i e, nth_error es i = Some e -> nth_error (lit "aabbb") i = Some (letter e)) /\
    (forall i e, nth_error es i = Some e ->
        (status e = correct <-> nth_error (lit "aabbb") i = nth_error (lit "ababa") i)) /\
    (forall L, (hits L es <= occurrences L (lit "ababa"))%nat).
Proof.
  split; [split; reflexivity|].
  apply (evaluate_five (lit "aabbb") (lit "ababa")); reflexivity.
Defined.

(** ** Sorting and selection *)

Lemma insert_by_perm {A} (le : A -> A -> bool) x l :
  Permutation (insert_by le x l) (x :: l).
Proof.
  induction l as [|y l IH]; simpl; auto.
  destruct (le x y); auto.
  rewrite IH. apply perm_swap.
Qed.

Lemma order_by_perm {A} (le : A -> A -> bool) l : Permutation (order_by le l) l.
Proof.
  unfold order_by. induction l as [|x l IH]; simpl; auto.
  rewrite insert_by_perm. auto.
Qed.

Lemma insert_by_number_sorted x l :
  Sorted (fun a b => v_guess_number a <= v_guess_number b) l ->
  Sorted (fun a b => v_guess_number a <= v_guess_number b) (insert_by by_guess_number x l).
Proof.
  induction 1 as [|y l Hs IH Hhd]; simpl.
  - repeat constructor.
  - unfold by_guess_number at 1. destruct (Z.leb_spec (v_guess_number x) (v_guess_number y)).
    + repeat constructor; auto.
    + constructor; auto.
      destruct l as [|z l]; simpl in *.
      * constructor. lia.
      * unfold by_guess_number. destruct (Z.leb_spec (v_guess_number x) (v_guess_number z)).
        -- constructor. lia.
        -- constructor. inversion Hhd; subst. assumption.
Qed.

Lemma select_guesses_sorted gid s :
  Sorted (fun a b => v_guess_number a <= v_guess_number b) (select_guesses gid s).
Proof.
  unfold select_guesses, order_by.
  induction (map guess_columns (filter (fun r => gs_game_id r =? gid) (guesses s)));
    simpl; [constructor|]. now apply insert_by_number_sorted.
Qed.


Lemma select_word_in_bank w s :
  hd_error (select_word w s) = if in_bank w s then Some 1 else None.
Proof.
  unfold select_word, in_bank. induction (words s) as [|r l IH]; simpl; auto.
  destruct (str_eqb (w_word r) w); simpl; auto.
Qed.

Lemma str_eqb_eq a b : str_eqb a b = true <-> a = b.
Proof.
  revert b; induction a as [|x a IH]; intros [|y b]; simpl; split; intros H;
    try discriminate; auto.
  - apply andb_true_iff in H as [H1 H2]. apply N.eqb_eq in H1. apply IH in H2. congruence.
  - inversion H; subst. rewrite N.eqb_refl. simpl. now apply IH.
Qed.

Lemma str_eqb_refl a : str_eqb a a = true.
Proof. now apply str_eqb_eq. Qed.

Lemma hd_error_filter_none {A} (p : A -> bool) l :
  hd_error (filter p l) = None -> filter p l = [].
Proof. destruct (filter p l); simpl; congruence. Qed.

Lemma hd_error_map {A B} (f : A -> B) l :
  hd_error (map f l) = option_map f (hd_error l).
Proof. destruct l; reflexivity. Qed.

Lemma random_pick {A} (rnd : nat) (rows : list A) :
  rows <> [] ->
  exists r, nth_error rows (rnd mod length rows) = Some r /\
            order_by_random_limit_1 rnd rows = [r].
Proof.
  intros Hne. unfold order_by_random_limit_1.
  destruct (nth_error rows (rnd mod length rows)) eqn:E; eauto.
  apply nth_error_None in E.
  assert (length rows <> 0)%nat by (destruct rows; simpl; congruence).
  pose proof (Nat.mod_upper_bound rnd (length rows)). lia.
Qed.

Lemma random_pick_nil {A} (rnd : nat) : @order_by_random_limit_1 A rnd [] = [].
Proof. unfold order_by_random_limit_1. simpl. destruct rnd; reflexivity. Qed.

Lemma random_pick_hd {A} (rnd : nat) (rows : list A) :
  hd_error (order_by_random_limit_1 rnd rows) =
  match rows with [] => None | _ => nth_error rows (rnd mod length rows) end.
Proof.
  destruct rows as [|a rows].
  - now rewrite random_pick_nil.
  - destruct (random_pick rnd (a :: rows)) as (r & Hr & ->); [discriminate|].
    now rewrite Hr.
Qed.

(** ** What a request does to the stored tables *)

Section Properties.
Context {ext : External}.

Ltac db_unfold :=
  cbv beta iota zeta delta [run bind ret raise lift query_db_one query_db execute_db connect
       _player_by_fingerprint store fault fst snd
       insert_player insert_game insert_guess update_where_id
       update_game_finished update_game_num_guesses].

Ltac case_scrutinee :=
  match goal with
  | |- context [match ?x with _ => _ end] =>
      lazymatch x with
      | context [match _ with _ => _ end] => fail
      | _ => destruct x eqn:?
      end
  end.

Lemma as_str_inv j s : as_str j = Ret s -> j = JStr s.
Proof. destruct j; simpl; congruence. Qed.

Ltac db_cases :=
  db_unfold; repeat (case_scrutinee; db_unfold);
  repeat match goal with
         | H : as_str _ = Ret _ |- _ => apply as_str_inv in H; subst
         end.

Lemma register_effect rq orc f s :
  let s' := snd (run (register rq orc) f s) in
  s' = s \/
  exists raw, py_get (body rq) "name" (JStr []) = Ret (JStr raw) /\
    is_empty (strip raw) = false /\
    hd_error (select_player (get_fingerprint rq) s) = None /\
    s' = fst (insert_player (strip raw) (get_fingerprint rq) (now orc) s).
Proof.
  unfold register. db_cases; auto.
  all: right; eexists; eauto.
Qed.

Lemma pick_unseen pid rnd s w :
  hd_error (select_unseen_word pid rnd s) = Some w ->
  nth_error (candidates pid s) (rnd mod length (candidates pid s)) = Some w.
Proof.
  unfold select_unseen_word, candidates. rewrite random_pick_hd.
  destruct (filter (unseen pid s) (words s)); [discriminate|auto].
Qed.

Lemma pick_any pid rnd s w :
  hd_error (select_unseen_word pid rnd s) = None ->
  hd_error (select_any_word rnd s) = Some w ->
  nth_error (candidates pid s) (rnd mod length (candidates pid s)) = Some w.
Proof.
  unfold select_unseen_word, select_any_word, candidates. rewrite !random_pick_hd.
  destruct (filter (unseen pid s) (words s)) as [|u us] eqn:Hu.
  - destruct (words s); [discriminate|auto].
  - intros H. exfalso. revert H.
    destruct (random_pick rnd (u :: us)) as (r & -> & _); discriminate.
Qed.

Lemma active_games_none pid s :
  hd_error (select_active_game pid s) = None -> active_games_of pid s = [].
Proof.
  unfold select_active_game, active_games_of. rewrite hd_error_map.
  destruct (filter (owned_active pid) (games s)); simpl; congruence.
Qed.

Lemma new_game_effect rq orc f s :
  let s' := snd (run (new_game rq orc) f s) in
  s' = s \/
  exists p w, hd_error (select_player (get_fingerprint rq) s) = Some p /\
    active_games_of (p_id p) s = [] /\
    nth_error (candidates (p_id p) s) (random orc mod length (candidates (p_id p) s)) = Some w /\
    s' = fst (insert_game (p_id p) (w_id w) (now orc) s).
Proof.
  unfold new_game. db_cases; auto.
  all: right; do 2 eexists; split; [reflexivity|]; split; [now apply active_games_none|].
  all: split; [|reflexivity]; eauto using pick_unseen, pick_any.
Qed.

Lemma guess_run rq orc s :
  run (guess rq orc) None s =
  match hd_error (select_player (get_fingerprint rq) s) with
  | None => (Ret (error "Player not registered", 401), s)
  | Some p =>
    match hd_error (select_active_game_word (p_id p) s) with
    | None => (Ret (error "No active game", 404), s)
    | Some gw =>
      match normalized_guess rq with
      | Raise e => (Raise e, s)
      | Ret w =>
        if negb (well_formed w)
        then (Ret (error "Guess must be exactly 5 letters", 400), s)
        else if negb (in_bank w s)
        then (Ret (error "Not a valid word", 400), s)
        else
          match _evaluate_guess w (gw_word gw) with
          | Raise e => (Raise e, s)
          | Ret result =>
              let s2 := advance_game gw w (now orc) (record_guess gw w result s) in
              (Ret (jsonify (guess_response gw w result (select_guesses (gw_id gw) s2))), s2)
          end
      end
    end
  end.
Proof.
  unfold guess. db_unfold.
  destruct (hd_error (select_player (get_fingerprint rq) s)) as [p|]; [|reflexivity].
  db_unfold.
  destruct (hd_error (select_active_game_word (p_id p) s)) as [gw|]; [|reflexivity].
  unfold normalized_guess, res_bind.
  destruct (py_get (body rq) "guess" (JStr [])) as [v|e]; [|reflexivity].
  destruct (as_str v) as [raw|e]; [|reflexivity].
  unfold well_formed. set (w := str_lower (strip raw)).
  rewrite negb_andb.
  destruct (negb (length w =? 5)%nat || negb (isalpha w)); [reflexivity|].
  cbv beta iota. db_unfold. rewrite select_word_in_bank.
  destruct (in_bank w s); [|reflexivity].
  cbv beta iota delta [negb].
  destruct (_evaluate_guess w (gw_word gw)) as [result|e]; [|reflexivity].
  unfold advance_game, record_guess, guess_response, outcome, jsonify, is_terminal.
  destruct (str_eqb w (gw_word gw)); destruct (gw_num_guesses gw + 1 =? 6); reflexivity.
Qed.

Lemma well_formed_of w :
  negb (length w =? 5)%nat || negb (isalpha w) = false -> well_formed w = true.
Proof.
  unfold well_formed. destruct (length w =? 5)%nat, (isalpha w); simpl; congruence.
Qed.

Lemma in_bank_of w s z : hd_error (select_word w s) = Some z -> in_bank w s = true.
Proof. rewrite select_word_in_bank. destruct (in_bank w s); congruence. Qed.

Lemma normalized_of rq raw :
  py_get (body rq) "guess" (JStr []) = Ret (JStr raw) ->
  normalized_guess rq = Ret (str_lower (strip raw)).
Proof. intros H. unfold normalized_guess. now rewrite H. Qed.

Ltac sixth_guess :=
  repeat match goal with
         | H : _ && negb false = _ |- _ => simpl (negb false) in H; rewrite andb_true_r in H
         | H : _ && negb true = _ |- _ => clear H
         end.

Lemma guess_effect rq orc f s :
  let s' := snd (run (guess rq orc) f s) in
  s' = s \/
  exists p gw w result,
    hd_error (select_player (get_fingerprint rq) s) = Some p /\
    hd_error (select_active_game_word (p_id p) s) = Some gw /\
    normalized_guess rq = Ret w /\ well_formed w = true /\ in_bank w s = true /\
    _evaluate_guess w (gw_word gw) = Ret result /\
    ((f = Some 4%nat /\ s' = record_guess gw w result s) \/
     (f <> Some 4%nat /\
      s' = advance_game gw w (now orc) (record_guess gw w result s))).
Proof.
  unfold guess. db_cases; auto.
  all: sixth_guess.
  all: try match goal with H : is_terminal _ = _ |- _ => cbv in H; discriminate H end.
  all: right; do 4 eexists.
  all: split; [reflexivity|]; split; [eassumption|].
  all: split; [apply normalized_of; eassumption|].
  all: split; [apply well_formed_of; assumption|].
  all: split; [eapply in_bank_of; eassumption|].
  all: split; [eassumption|].
  all: try (left; split; reflexivity).
  all: right; split; [discriminate|].
  all: unfold advance_game, record_guess, outcome.
  all: repeat match goal with H : _ = _ :> bool |- _ => rewrite H end.
  all: reflexivity.
Qed.

Lemma me_effect rq f s : snd (run (me rq) f s) = s.
Proof. unfold me. db_cases; reflexivity. Qed.

Lemma current_game_effect rq f s : snd (run (current_game rq) f s) = s.
Proof. unfold current_game. db_cases; reflexivity. Qed.

Lemma leaderboard_effect f s : snd (run leaderboard f s) = s.
Proof. unfold leaderboard. db_cases; reflexivity. Qed.

Lemma stats_effect rq f s : snd (run (stats rq) f s) = s.
Proof. unfold stats. db_cases; reflexivity. Qed.

(** A handler that answers met no storage failure. *)

Lemma guess_answered rq orc f s x s' :
  run (guess rq orc) f s = (Ret x, s') -> run (guess rq orc) None s = (Ret x, s').
Proof. unfold guess. db_cases; intros H; first [discriminate H | exact H]. Qed.



(** The handlers when storage works, as decision trees. *)

Lemma pick_candidates pid rnd s :
  match hd_error (select_unseen_word pid rnd s) with
  | Some w => Some w
  | None => hd_error (select_any_word rnd s)
  end = nth_error (candidates pid s) (rnd mod length (candidates pid s)).
Proof.
  unfold select_unseen_word, select_any_word, candidates. rewrite !random_pick_hd.
  destruct (filter (unseen pid s) (words s)) as [|u us] eqn:Hu.
  - destruct (words s); [destruct rnd|]; reflexivity.
  - destruct (random_pick rnd (u :: us)) as (r & -> & _); [discriminate|reflexivity].
Qed.

Lemma new_game_run rq orc s :
  run (new_game rq orc) None s =
  match hd_error (select_player (get_fingerprint rq) s) with
  | None => (Ret (error "Player not registered", 401), s)
  | Some p =>
    match hd_error (select_active_game (p_id p) s) with
    | Some a =>
        (Ret (jsonify (JObj [("game_id"%string, JInt (a_id a));
                             ("guesses"%string,
                              JArr (map guess_json (select_guesses (a_id a) s)))])), s)
    | None =>
      match nth_error (candidates (p_id p) s)
                      (random orc mod length (candidates (p_id p) s)) with
      | None => (Ret (error "No words available", 500), s)
      | Some w =>
          (Ret (JObj [("game_id"%string, JInt (fresh_id (map g_id (games s))));
                      ("guesses"%string, JArr [])], 201),
           fst (insert_game (p_id p) (w_id w) (now orc) s))
      end
    end
  end.
Proof.
  unfold new_game. db_unfold.
  destruct (hd_error (select_player (get_fingerprint rq) s)) as [p|]; [|reflexivity].
  db_unfold.
  destruct (hd_error (select_active_game (p_id p) s)) as [a|]; [reflexivity|].
  db_unfold. rewrite <- pick_candidates.
  destruct (hd_error (select_unseen_word (p_id p) (random orc) s)) as [w|]; [reflexivity|].
  db_unfold.
  destruct (hd_error (select_any_word (random orc) s)) as [w|]; reflexivity.
Qed.

Lemma current_game_run rq s :
  run (current_game rq) None s =
  match hd_error (select_player (get_fingerprint rq) s) with
  | None => (Ret (error "Player not registered", 401), s)
  | Some p =>
    match hd_error (select_active_game (p_id p) s) with
    | None => (Ret (error "No active game", 404), s)
    | Some a =>
        (Ret (jsonify (JObj [("game_id"%string, JInt (a_id a));
                             ("status"%string, JStr (status_str (a_status a)));
                             ("num_guesses"%string, JInt (a_num_guesses a));
                             ("guesses"%string,
                              JArr (map guess_json (select_guesses (a_id a) s)))])), s)
    end
  end.
Proof.
  unfold current_game. db_unfold.
  destruct (hd_error (select_player (get_fingerprint rq) s)) as [p|]; [|reflexivity].
  db_unfold.
  destruct (hd_error (select_active_game (p_id p) s)) as [a|]; reflexivity.
Qed.

Lemma register_run rq orc s raw :
  py_get (body rq) "name" (JStr []) = Ret (JStr raw) ->
  run (register rq orc) None s =
  if is_empty (strip raw) then (Ret (error "Name is required", 400), s)
  else
    match hd_error (select_player (get_fingerprint rq) s) with
    | Some _ => (Ret (error "Player already registered from this browser", 409), s)
    | None =>
        let p := mk_player (fresh_id (map p_id (players s))) (strip raw)
                           (get_fingerprint rq) (now orc) in
        (Ret (_serialize_player p, 201),
         mk_db (players s ++ [p]) (words s) (games s) (guesses s))
    end.
Proof.
  intros H. unfold register. db_unfold. rewrite H. db_unfold. cbv beta iota delta [as_str].
  destruct (is_empty (strip raw)); [reflexivity|].
  db_unfold.
  destruct (hd_error (select_player (get_fingerprint rq) s)); reflexivity.
Qed.

Lemma hd_error_in {A} (l : list A) x : hd_error l = Some x -> In x l.
Proof. destruct l; simpl; intros H; inversion H; auto. Qed.

Lemma joined_game pid s gw :
  hd_error (select_active_game_word pid s) = Some gw ->
  exists i g wr,
    nth_error (games s) i = Some g /\ owned_active pid g = true /\
    In wr (words s) /\ w_id wr = g_word_id g /\
    gw = mk_game_word (g_id g) (g_status g) (g_num_guesses g) (w_word wr).
Proof.
  intros H. apply hd_error_in in H. unfold select_active_game_word in H.
  apply in_flat_map in H as (g & Hg & Hin).
  destruct (owned_active pid g) eqn:Hown; [|contradiction].
  apply in_map_iff in Hin as (wr & <- & Hwr).
  apply filter_In in Hwr as [Hwr Hid]. apply Z.eqb_eq in Hid.
  apply In_nth_error in Hg as (i & Hi).
  exists i, g, wr. auto.
Qed.

Lemma owned_active_inv pid g :
  owned_active pid g = true -> g_player_id g = pid /\ g_status g = active.
Proof.
  unfold owned_active. intros H. apply andb_true_iff in H as [H1 H2].
  apply Z.eqb_eq in H1. destruct (g_status g); try discriminate. auto.
Qed.

Lemma status_of_response gw w result history :
  jget "status" (guess_response gw w result history)
  = Some (JStr (status_str (outcome w (gw_word gw) (gw_num_guesses gw + 1)))).
Proof.
  unfold guess_response.
  destruct (outcome w (gw_word gw) (gw_num_guesses gw + 1)); reflexivity.
Qed.


Lemma advance_game_games gw w t s :
  games (advance_game gw w t s) =
  map (fun g => if g_id g =? gw_id gw
                then let n := gw_num_guesses gw + 1 in
                     match outcome w (gw_word gw) n with
                     | active => set_num_guesses n g
                     | _ => set_finished n (outcome w (gw_word gw) n) t g
                     end
                else g) (games s).
Proof.
  unfold advance_game.
  destruct (outcome w (gw_word gw) (gw_num_guesses gw + 1)); reflexivity.
Qed.

(** Every answer of [guess] when storage works. *)
Lemma guess_accepted rq orc s body s' :
  run (guess rq orc) None s = (Ret (body, 200), s') ->
  exists p gw w result,
    hd_error (select_player (get_fingerprint rq) s) = Some p /\
    hd_error (select_active_game_word (p_id p) s) = Some gw /\
    normalized_guess rq = Ret w /\ well_formed w = true /\ in_bank w s = true /\
    _evaluate_guess w (gw_word gw) = Ret result /\
    s' = advance_game gw w (now orc) (record_guess gw w result s) /\
    body = guess_response gw w result (select_guesses (gw_id gw) s').
Proof.
  rewrite guess_run.
  destruct (hd_error (select_player (get_fingerprint rq) s)) as [p|] eqn:Hp; [|discriminate].
  destruct (hd_error (select_active_game_word (p_id p) s)) as [gw|] eqn:Hgw; [|discriminate].
  destruct (normalized_guess rq) as [w|] eqn:Hw; [|discriminate].
  destruct (well_formed w) eqn:Hwf; [|discriminate].
  destruct (in_bank w s) eqn:Hin; [|discriminate].
  cbv beta iota delta [negb].
  destruct (_evaluate_guess w (gw_word gw)) as [result|] eqn:Hev; [|discriminate].
  cbv zeta. unfold jsonify. intros H. inversion H; subst.
  exists p, gw, w, result. repeat split; auto.
Qed.

Lemma outcome_cases w target n :
  (w = target -> outcome w target n = won) /\
  (w <> target -> n = 6 -> outcome w target n = lost) /\
  (w <> target -> n <> 6 -> outcome w target n = active).
Proof.
  unfold outcome. destruct (str_eqb w target) eqn:E.
  - apply str_eqb_eq in E.
    split; [reflexivity|]. split; intros; contradiction.
  - assert (w <> target) by (intros Heq; apply str_eqb_eq in Heq; congruence).
    split; [intros; contradiction|]. split; intros _ Hn.
    + subst n. reflexivity.
    + destruct (Z.eqb_spec n 6); [contradiction|reflexivity].
Qed.

(** C2: a guess submission that succeeds (answers 200) finds the player's
    active game [g], and the status [st] it reports and stores for [g] is
    [won] when the guess is the target, [lost] when it is not and this is
    guess number 6, and [active] when it is not and this is an earlier guess;
    the guess count goes up by one; and the completion time of [g] is written
    exactly when that status is [won] or [lost]. *)
Theorem guess_next_status rq orc f s body s' :
  run (guess rq orc) f s = (Ret (body, 200), s') ->
  exists p i g target w st,
    hd_error (select_player (get_fingerprint rq) s) = Some p /\
    nth_error (games s) i = Some g /\
    g_player_id g = p_id p /\ g_status g = active /\
    (exists wr, In wr (words s) /\ w_id wr = g_word_id g /\ w_word wr = target) /\
    normalized_guess rq = Ret w /\
    let n := g_num_guesses g + 1 in
    (w = target -> st = won) /\
    (w <> target -> n = 6 -> st = lost) /\
    (w <> target -> n <> 6 -> st = active) /\
    jget "status" body = Some (JStr (status_str st)) /\
    exists g',
      nth_error (games s') i = Some g' /\
      g_id g' = g_id g /\ g_status g' = st /\ g_num_guesses g' = n /\
      (st = won \/ st = lost -> g_completed_at g' = Some (now orc)) /\
      (st = active -> g_completed_at g' = g_completed_at g).
Proof.
  intros H. apply guess_answered in H. apply guess_accepted in H.
  destruct H as (p & gw & w & result & Hp & Hgw & Hw & _ & _ & _ & -> & ->).
  destruct (joined_game _ _ _ Hgw) as (i & g & wr & Hi & Hown & Hwr & Hid & ->).
  apply owned_active_inv in Hown as [Hpid Hact].
  exists p, i, g, (w_word wr), w, (outcome w (w_word wr) (g_num_guesses g + 1)).
  cbn [gw_word gw_num_guesses gw_id] in *.
  split; [assumption|]. split; [assumption|]. split; [assumption|].
  split; [assumption|]. split; [eauto|]. split; [assumption|].
  cbv zeta.
  destruct (outcome_cases w (w_word wr) (g_num_guesses g + 1)) as (Hwon & Hlost & Hgo).
  split; [exact Hwon|]. split; [exact Hlost|]. split; [exact Hgo|].
  rewrite status_of_response. cbn [gw_word gw_num_guesses].
  split; [reflexivity|].
  rewrite advance_game_games. cbn [gw_word gw_num_guesses gw_id].
  unfold record_guess, insert_guess. cbn [fst games].
  rewrite nth_error_map, Hi. cbn [option_map]. rewrite Z.eqb_refl.
  eexists. split; [reflexivity|].
  destruct (outcome w (w_word wr) (g_num_guesses g + 1)); cbn;
    repeat split; auto; try discriminate; intros [?|?]; discriminate.
Qed.

(** ** The one-active-game invariant *)

Lemma fresh_id_above ids x : In x ids -> x < fresh_id ids.
Proof.
  unfold fresh_id. induction ids as [|y ids IH]; cbn [fold_right In]; [tauto|].
  intros [->|H]; [lia|]. specialize (IH H). lia.
Qed.

Lemma filter_map_le {A} (p : A -> bool) (F : A -> A) l :
  (forall x, p (F x) = true -> p x = true) ->
  (length (filter p (map F l)) <= length (filter p l))%nat.
Proof.
  intros HF. induction l as [|a l IH]; simpl; auto.
  destruct (p (F a)) eqn:E.
  - rewrite (HF _ E). simpl. lia.
  - destruct (p a); simpl; lia.
Qed.

Lemma same_id_same_row s i j g g0 :
  game_ids_unique s ->
  nth_error (games s) i = Some g -> nth_error (games s) j = Some g0 ->
  g_id g = g_id g0 -> g = g0.
Proof.
  intros Hu Hi Hj Hid.
  assert (i = j).
  { eapply (proj1 (NoDup_nth_error (map g_id (games s))) Hu).
    - rewrite length_map. apply nth_error_Some. congruence.
    - rewrite !nth_error_map, Hi, Hj. simpl. congruence. }
  subst. congruence.
Qed.

Lemma handle_games_step o rq orc f s :
  games_step o rq s (snd (run (handle o rq orc) f s)).
Proof.
  destruct o; cbn [handle].
  - destruct (register_effect rq orc f s) as [->|(raw & _ & _ & _ & ->)];
      apply games_same; reflexivity.
  - rewrite me_effect. now apply games_same.
  - destruct (new_game_effect rq orc f s) as [->|(p & w & Hp & Hact & _ & ->)].
    + now apply games_same.
    + apply games_started with (p := p)
        (row := mk_game (fresh_id (map g_id (games s))) (p_id p) (w_id w) active 0
                        (now orc) None); auto.
  - rewrite current_game_effect. now apply games_same.
  - destruct (guess_effect rq orc f s)
      as [->|(p & gw & w & result & Hp & Hgw & _ & _ & _ & _ & [[_ ->]|[_ ->]])].
    + now apply games_same.
    + now apply games_same.
    + destruct (joined_game _ _ _ Hgw) as (i & g & wr & Hi & Hown & _ & _ & ->).
      apply owned_active_inv in Hown as [_ Hact].
      apply games_advanced with (i := i) (g := g) (t := now orc)
        (st := outcome w (w_word wr) (g_num_guesses g + 1)) (n := g_num_guesses g + 1);
        auto.
      rewrite advance_game_games. reflexivity.
  - rewrite leaderboard_effect. now apply games_same.
  - rewrite stats_effect. now apply games_same.
Qed.

Lemma owned_active_updated pid n st t r :
  owned_active pid
    (match st with active => set_num_guesses n r | _ => set_finished n st t r end) = true ->
  owned_active pid r = true.
Proof. destruct st; unfold owned_active; cbn; auto; rewrite andb_false_r; discriminate. Qed.

(** C3: every request preserves "at most one active game per player" (and
    the uniqueness of game ids it rests on).  A game row appears only through
    start-game, it is then [active], and its player had no active game; a
    stored game keeps its id and player, and its status changes only from
    [active] to [won] or [lost], through a guess submission. *)
Theorem one_active_game_preserved (o : op) rq orc f s :
  one_active_game s -> game_ids_unique s ->
  let s' := snd (run (handle o rq orc) f s) in
  one_active_game s' /\ game_ids_unique s' /\
  (forall i g', nth_error (games s') i = Some g' -> (length (games s) <= i)%nat ->
      o = NewGame /\ g_status g' = active /\
      exists p, hd_error (select_player (get_fingerprint rq) s) = Some p /\
                g_player_id g' = p_id p /\ active_games_of (p_id p) s = []) /\
  (forall i g, nth_error (games s) i = Some g ->
      exists g', nth_error (games s') i = Some g' /\
        g_id g' = g_id g /\ g_player_id g' = g_player_id g /\
        (g_status g' = g_status g \/
         (o = Guess /\ g_status g = active /\
          (g_status g' = won \/ g_status g' = lost)))).
Proof.
  intros Hone Huniq. cbv zeta.
  destruct (handle_games_step o rq orc f s)
    as [Hsame | p row Ho Hp Hnone Hid Hpid Hact Happ | i0 g0 st n t Ho Hi0 Hact0 Hmap].
  - (* the table is untouched *)
    unfold one_active_game, active_games_of, game_ids_unique. rewrite Hsame.
    split; [assumption|]. split; [assumption|]. split.
    + intros i g' Hn Hlen. apply nth_error_None in Hlen. congruence.
    + intros i g Hn. exists g. auto.
  - (* a game was started *)
    unfold one_active_game, active_games_of, game_ids_unique. rewrite Happ.
    split; [|split; [|split]].
    + intros pid. rewrite filter_app, length_app. cbn [filter].
      destruct (Z.eq_dec pid (p_id p)) as [->|Hne].
      * unfold active_games_of in Hnone. rewrite Hnone.
        destruct (owned_active (p_id p) row); simpl; lia.
      * replace (owned_active pid row) with false.
        -- specialize (Hone pid). unfold active_games_of in Hone. simpl. lia.
        -- unfold owned_active. rewrite Hpid.
           destruct (Z.eqb_spec (p_id p) pid); [congruence|reflexivity].
    + rewrite map_app. cbn [map].
      apply NoDup_app; [assumption|repeat constructor; simpl; tauto|].
      intros x Hx [<-|[]]. apply fresh_id_above in Hx. lia.
    + intros i g' Hn Hlen.
      rewrite nth_error_app2 in Hn by assumption.
      destruct (i - length (games s))%nat as [|k]; [|destruct k; discriminate].
      inversion Hn; subst. eauto 6.
    + intros i g Hn. exists g. rewrite nth_error_app1 by (apply nth_error_Some; congruence).
      auto.
  - (* a guess advanced the game g0 *)
    unfold one_active_game, active_games_of, game_ids_unique. rewrite Hmap.
    split; [|split; [|split]].
    + intros pid. etransitivity; [apply filter_map_le|apply Hone].
      intros r. destruct (g_id r =? g_id g0); [apply owned_active_updated|auto].
    + rewrite map_map.
      erewrite map_ext; [exact Huniq|].
      intros r. destruct (g_id r =? g_id g0); [destruct st|]; reflexivity.
    + intros i g' Hn Hlen. apply nth_error_None in Hlen.
      rewrite nth_error_map, Hlen in Hn. discriminate.
    + intros i g Hn. rewrite nth_error_map, Hn. cbn [option_map].
      eexists. split; [reflexivity|].
      destruct (Z.eqb_spec (g_id g) (g_id g0)) as [Hid|Hid].
      * assert (g = g0) by (eapply same_id_same_row; eauto). subst g.
        destruct st; cbn; auto 8.
      * auto.
Qed.

(** ** Resuming *)

Lemma the_active_game pid s a :
  one_active_game s -> In a (games s) -> owned_active pid a = true ->
  filter (owned_active pid) (games s) = [a].
Proof.
  intros Hone Hin Hown. specialize (Hone pid). unfold active_games_of in Hone.
  assert (Ha : In a (filter (owned_active pid) (games s))) by (apply filter_In; auto).
  destruct (filter (owned_active pid) (games s)) as [|x [|y l]]; simpl in *.
  - contradiction.
  - destruct Ha as [->|[]]. reflexivity.
  - lia.
Qed.

Lemma insert_by_map {A B} (F : A -> B) (le : B -> B -> bool) x l :
  insert_by le (F x) (map F l) = map F (insert_by (fun a b => le (F a) (F b)) x l).
Proof.
  induction l as [|y l IH]; [reflexivity|]. cbn [map insert_by].
  destruct (le (F x) (F y)); [reflexivity|]. cbn [map]. now rewrite IH.
Qed.

Lemma order_by_map {A B} (F : A -> B) (le : B -> B -> bool) l :
  order_by le (map F l) = map F (order_by (fun a b => le (F a) (F b)) l).
Proof.
  unfold order_by. induction l as [|x l IH]; [reflexivity|].
  cbn [map fold_right]. now rewrite IH, insert_by_map.
Qed.

Lemma Sorted_of_map {A B} (F : A -> B) (R : B -> B -> Prop) l :
  Sorted R (map F l) -> Sorted (fun a b => R (F a) (F b)) l.
Proof.
  induction l as [|x l IH]; cbn [map]; intros H; [constructor|].
  inversion H as [|? ? Hs Hhd]; subst. constructor; [auto|].
  destruct l; cbn [map] in Hhd; constructor. now inversion Hhd.
Qed.

(** The rows behind [select_guesses]: the guesses of the game, by number. *)
Lemma select_guesses_rows gid s :
  exists rows,
    select_guesses gid s = map guess_columns rows /\
    Permutation rows (filter (fun r => gs_game_id r =? gid) (guesses s)) /\
    Sorted (fun x y => gs_guess_number x <= gs_guess_number y) rows.
Proof.
  exists (order_by (fun a b => by_guess_number (guess_columns a) (guess_columns b))
            (filter (fun r => gs_game_id r =? gid) (guesses s))).
  assert (E : select_guesses gid s = map guess_columns
            (order_by (fun a b => by_guess_number (guess_columns a) (guess_columns b))
               (filter (fun r => gs_game_id r =? gid) (guesses s)))).
  { unfold select_guesses. apply order_by_map. }
  split; [exact E|]. split; [apply order_by_perm|].
  pose proof (select_guesses_sorted gid s) as Hs. rewrite E in Hs.
  apply Sorted_of_map in Hs. exact Hs.
Qed.

(** C4: for a player who has an active game [a], start-game answers 200 with
    the id of [a] and, under "guesses", one document per stored guess of [a]
    (its word, its number, its result) in guess-number order, whatever the
    clock and the draw; it creates no game and leaves every table as it was,
    also when a storage call fails; so a repeated call answers the same. *)
Theorem new_game_resumes rq s p a :
  hd_error (select_player (get_fingerprint rq) s) = Some p ->
  In a (games s) -> g_player_id a = p_id p -> g_status a = active ->
  one_active_game s ->
  exists history : list guess_row,
    Permutation history (filter (fun r => gs_game_id r =? g_id a) (guesses s)) /\
    Sorted (fun x y => gs_guess_number x <= gs_guess_number y) history /\
    (forall orc,
       run (new_game rq orc) None s =
         (Ret (JObj [("game_id"%string, JInt (g_id a));
                     ("guesses"%string,
                      JArr (map (fun r =>
                                   JObj [("guess"%string, JStr (gs_guess_word r));
                                         ("guess_number"%string,
                                          JInt (gs_guess_number r));
                                         ("result"%string, gs_result r)])
                                history))], 200), s)) /\
    (forall orc f, snd (run (new_game rq orc) f s) = s).
Proof.
  intros Hp Hin Hpid Hact Hone.
  assert (Hown : owned_active (p_id p) a = true).
  { unfold owned_active. rewrite Hpid, Z.eqb_refl, Hact. reflexivity. }
  pose proof (the_active_game _ _ _ Hone Hin Hown) as Hfilter.
  destruct (select_guesses_rows (g_id a) s) as (history & Hrows & Hperm & Hsorted).
  exists history. split; [exact Hperm|]. split; [exact Hsorted|]. split.
  - intros orc. rewrite new_game_run, Hp.
    unfold select_active_game. rewrite Hfilter. cbn [map hd_error game_columns a_id].
    rewrite Hrows, map_map. reflexivity.
  - intros orc f.
    destruct (new_game_effect rq orc f s) as [H|(p' & w & Hp' & Hnone & _)]; [exact H|].
    rewrite Hp in Hp'. inversion Hp'; subst p'.
    unfold active_games_of in Hnone. rewrite Hfilter in Hnone. discriminate.
Qed.

(** ** The two writes of a guess *)

Lemma guess_writes rq orc f s p gw w result :
  hd_error (select_player (get_fingerprint rq) s) = Some p ->
  hd_error (select_active_game_word (p_id p) s) = Some gw ->
  normalized_guess rq = Ret w -> well_formed w = true -> in_bank w s = true ->
  _evaluate_guess w (gw_word gw) = Ret result ->
  snd (run (guess rq orc) f s) =
    match f with
    | Some 0%nat | Some 1%nat | Some 2%nat | Some 3%nat => s
    | Some 4%nat => record_guess gw w result s
    | _ => advance_game gw w (now orc) (record_guess gw w result s)
    end.
Proof.
  intros Hp Hgw Hw Hwf Hin Hev.
  unfold normalized_guess, res_bind in Hw.
  destruct (py_get (body rq) "guess" (JStr [])) as [v|e] eqn:Hv; [|discriminate].
  destruct (as_str v) as [raw|e] eqn:Hraw; [|discriminate].
  inversion Hw; subst w. clear Hw.
  unfold well_formed in Hwf.
  assert (Hneg : negb (length (str_lower (strip raw)) =? 5)%nat
                 || negb (isalpha (str_lower (strip raw))) = false).
  { rewrite <- negb_andb, Hwf. reflexivity. }
  assert (Hsel : hd_error (select_word (str_lower (strip raw)) s) = Some 1).
  { now rewrite select_word_in_bank, Hin. }
  unfold advance_game, record_guess, outcome.
  destruct f as [[|[|[|[|[|k]]]]]|]; unfold guess; db_unfold;
    rewrite ?Hp; db_unfold; rewrite ?Hgw; db_unfold; rewrite ?Hv, ?Hraw; db_unfold;
    rewrite ?Hneg; db_unfold; rewrite ?Hsel; db_unfold; rewrite ?Hev; db_unfold;
    try reflexivity.
  all: destruct (str_eqb (str_lower (strip raw)) (gw_word gw));
         destruct (gw_num_guesses gw + 1 =? 6); cbn; try reflexivity.
  all: destruct k; reflexivity.
Qed.

(** C5 (amended): a guess submission commits its two writes one after the
    other.  A submission that is rejected (no player, no active game, a body
    whose guess cannot be read, a malformed or unknown word, an evaluation
    that raises) changes no table, and neither does an accepted one whose
    storage fails before or at the insert.  An accepted one whose storage
    calls for the two writes succeed appends the guess, numbered one above
    the game's count, and sets the game's count and status (and, when the
    status is won or lost, its completion time; a game that stays active
    keeps the status it has), changing no other row.  When
    the storage call that updates the game is the one that fails, the guess
    is appended and the games are as before. *)
Theorem guess_two_writes rq orc f s :
  let s' := snd (run (guess rq orc) f s) in
  let player := hd_error (select_player (get_fingerprint rq) s) in
  (player = None \/
   (exists p, player = Some p /\
      (hd_error (select_active_game_word (p_id p) s) = None \/
       exists gw, hd_error (select_active_game_word (p_id p) s) = Some gw /\
         ((exists e, normalized_guess rq = Raise e) \/
          exists w, normalized_guess rq = Ret w /\
            (well_formed w = false \/ in_bank w s = false \/
             exists e, _evaluate_guess w (gw_word gw) = Raise e)))) ->
   s' = s) /\
  (forall p gw w result,
     player = Some p ->
     hd_error (select_active_game_word (p_id p) s) = Some gw ->
     normalized_guess rq = Ret w -> well_formed w = true -> in_bank w s = true ->
     _evaluate_guess w (gw_word gw) = Ret result ->
     let n := gw_num_guesses gw + 1 in
     let row := mk_guess (gw_id gw) w n (dumps result) in
     (forall k, f = Some k -> (k <= 3)%nat -> s' = s) /\
     (f = Some 4%nat ->
        guesses s' = guesses s ++ [row] /\ games s' = games s /\
        players s' = players s /\ words s' = words s) /\
     (f = None \/ (exists k, f = Some k /\ (5 <= k)%nat) ->
        exists st,
          (w = gw_word gw -> st = won) /\
          (w <> gw_word gw -> n = 6 -> st = lost) /\
          (w <> gw_word gw -> n <> 6 -> st = active) /\
          guesses s' = guesses s ++ [row] /\
          games s' =
            map (fun g =>
                   if g_id g =? gw_id gw
                   then match st with
                        | active =>
                            mk_game (g_id g) (g_player_id g) (g_word_id g)
                              (g_status g) n (g_created_at g) (g_completed_at g)
                        | _ =>
                            mk_game (g_id g) (g_player_id g) (g_word_id g)
                              st n (g_created_at g) (Some (now orc))
                        end
                   else g) (games s) /\
          players s' = players s /\ words s' = words s)).
Proof.
  cbv zeta. split.
  - intros Hrej.
    destruct (guess_effect rq orc f s)
      as [H|(p & gw & w & result & Hp & Hgw & Hw & Hwf & Hin & Hev & _)]; [exact H|].
    exfalso. rewrite Hp in Hrej.
    destruct Hrej as [Hrej|(p' & Hp' & Hrej)]; [discriminate|].
    inversion Hp'; subst p'. rewrite Hgw in Hrej.
    destruct Hrej as [Hrej|(gw' & Hgw' & Hrej)]; [discriminate|].
    inversion Hgw'; subst gw'. rewrite Hw in Hrej.
    destruct Hrej as [[e He]|(w' & Hw' & Hrej)]; [discriminate|].
    inversion Hw'; subst w'.
    destruct Hrej as [Hrej|[Hrej|[e Hrej]]]; congruence.
  - intros p gw w result Hp Hgw Hw Hwf Hin Hev.
    rewrite (guess_writes rq orc f s p gw w result Hp Hgw Hw Hwf Hin Hev).
    split; [|split].
    + intros k -> Hk. destruct k as [|[|[|[|k]]]]; try reflexivity. lia.
    + intros ->. unfold record_guess. cbn [insert_guess fst guesses games players words].
      auto.
    + intros Hf.
      assert (Hs : match f with
                   | Some 0%nat | Some 1%nat | Some 2%nat | Some 3%nat => s
                   | Some 4%nat => record_guess gw w result s
                   | _ => advance_game gw w (now orc) (record_guess gw w result s)
                   end = advance_game gw w (now orc) (record_guess gw w result s)).
      { destruct Hf as [->|(k & -> & Hk)]; [reflexivity|].
        destruct k as [|[|[|[|[|k]]]]]; try lia. reflexivity. }
      rewrite Hs. clear Hs.
      exists (outcome w (gw_word gw) (gw_num_guesses gw + 1)).
      destruct (outcome_cases w (gw_word gw) (gw_num_guesses gw + 1))
        as (Hwon & Hlost & Hgo).
      split; [exact Hwon|]. split; [exact Hlost|]. split; [exact Hgo|].
      rewrite advance_game_games.
      unfold advance_game, record_guess. cbv zeta.
      destruct (outcome w (gw_word gw) (gw_num_guesses gw + 1));
        cbn [is_active insert_guess update_game_num_guesses update_game_finished
             update_where_id fst guesses games players words];
        (split; [reflexivity|]); (split; [|split; reflexivity]);
        apply map_ext; intros g; destruct (g_id g =? gw_id gw); reflexivity.
Qed.

(** ** Rejected guesses *)

(** C6: a guess submission whose normalised guess is not five alphabetic
    characters, or is not in the word bank, changes no table, also when a
    storage call fails.  Sent by a player with an active game it answers 400
    "Guess must be exactly 5 letters" when malformed and 400 "Not a valid
    word" when well formed but not in the bank (an unregistered player, or
    one without an active game, is answered 401 or 404 before the guess is
    looked at). *)
Theorem rejected_guess_changes_nothing rq orc s w :
  normalized_guess rq = Ret w ->
  well_formed w = false \/ in_bank w s = false ->
  run (guess rq orc) None s =
    (Ret match hd_error (select_player (get_fingerprint rq) s) with
         | None => (error "Player not registered", 401)
         | Some p =>
             match hd_error (select_active_game_word (p_id p) s) with
             | None => (error "No active game", 404)
             | Some _ =>
                 (error (if well_formed w then "Not a valid word"
                         else "Guess must be exactly 5 letters"), 400)
             end
         end, s) /\
  forall f, snd (run (guess rq orc) f s) = s.
Proof.
  intros Hw Hbad. split.
  - rewrite guess_run.
    destruct (hd_error (select_player (get_fingerprint rq) s)) as [p|]; [|reflexivity].
    destruct (hd_error (select_active_game_word (p_id p) s)); [|reflexivity].
    rewrite Hw. destruct (well_formed w); [|reflexivity].
    destruct Hbad as [Hbad|Hbad]; [discriminate|]. rewrite Hbad. reflexivity.
  - intros f.
    destruct (guess_effect rq orc f s)
      as [H|(p' & gw' & w' & result & _ & _ & Hw' & Hwf & Hin & _)]; [exact H|].
    rewrite Hw in Hw'. inversion Hw'; subst w'.
    destruct Hbad; congruence.
Qed.

(** ** What a response shows of the target *)





Lemma status_str_inj a b :
  Some (JStr (status_str a)) = Some (JStr (status_str b)) -> a = b.
Proof. destruct a, b; cbn; intros H; congruence. Qed.

Lemma outcome_lost w target n :
  outcome w target n = lost -> n = 6 /\ str_eqb w target = false.
Proof.
  unfold outcome. destruct (str_eqb w target); [discriminate|].
  destruct (Z.eqb_spec n 6); [auto|discriminate].
Qed.






(** ** The states reached while storage works *)

Lemma nodup_map_inj {A B} (f : A -> B) (l : list A) a b :
  NoDup (map f l) -> In a l -> In b l -> f a = f b -> a = b.
Proof.
  induction l as [|x l IH]; cbn [map In]; [tauto|].
  intros Hnd Ha Hb Hf. inversion Hnd as [|? ? Hx Hnd']; subst.
  destruct Ha as [->|Ha], Hb as [->|Hb]; auto.
  - exfalso. apply Hx. rewrite Hf. now apply in_map.
  - exfalso. apply Hx. rewrite <- Hf. now apply in_map.
Qed.




Lemma consistent_initial s :
  word_ids_unique s -> five_letter_bank s -> games s = [] -> guesses s = [] ->
  consistent s.
Proof.
  intros Hw Hb Hg Hr. constructor.
  - unfold target_unguessed. rewrite Hg. intros g wr r [].
  - unfold game_ids_unique. rewrite Hg. constructor.
  - exact Hw.
  - exact Hb.
  - unfold guesses_have_games. rewrite Hr. intros r [].
Qed.






(** ** Registration *)

Lemma select_player_added fp s p :
  hd_error (select_player fp s) = None -> p_fingerprint p = fp ->
  hd_error (select_player fp (mk_db (players s ++ [p]) (words s) (games s) (guesses s)))
  = Some p.
Proof.
  unfold select_player. cbn [players]. intros H Hfp.
  apply hd_error_filter_none in H. rewrite filter_app, H. cbn.
  rewrite Hfp, str_eqb_refl. reflexivity.
Qed.

(** C8 (amended): a registration whose name is empty after trimming answers
    400 "Name is required"; otherwise, when the derived fingerprint already
    has a player, 409 Conflict; otherwise it stores a new player and answers
    201 with it.  After that, a registration from the same fingerprint never
    stores a second player: it answers 409 with a non-empty name and 400 with
    an empty one. *)
Theorem register_outcomes rq orc s raw :
  py_get (body rq) "name" (JStr []) = Ret (JStr raw) ->
  let name := strip raw in
  let fp := get_fingerprint rq in
  let p := mk_player (fresh_id (map p_id (players s))) name fp (now orc) in
  let s1 := mk_db (players s ++ [p]) (words s) (games s) (guesses s) in
  run (register rq orc) None s =
    (if is_empty name then (Ret (error "Name is required", 400), s)
     else match hd_error (select_player fp s) with
          | Some _ =>
              (Ret (error "Player already registered from this browser", 409), s)
          | None => (Ret (_serialize_player p, 201), s1)
          end) /\
  (is_empty name = false -> hd_error (select_player fp s) = None ->
   forall rq2 orc2 raw2,
     get_fingerprint rq2 = fp ->
     py_get (body rq2) "name" (JStr []) = Ret (JStr raw2) ->
     run (register rq2 orc2) None s1 =
       (if is_empty (strip raw2)
        then (Ret (error "Name is required", 400), s1)
        else (Ret (error "Player already registered from this browser", 409), s1))).
Proof.
  intros Hname. cbv zeta. split.
  - now apply register_run.
  - intros _ Hnew rq2 orc2 raw2 Hfp Hname2.
    rewrite (register_run _ _ _ _ Hname2), Hfp.
    rewrite select_player_added by auto. reflexivity.
Qed.

(** ** Choosing the target *)

Lemma unseen_never_target pid s w :
  unseen pid s w = true ->
  forall g, In g (games s) -> g_player_id g = pid -> g_word_id g <> w_id w.
Proof.
  unfold unseen. intros H g Hg Hpid Hwid.
  apply negb_true_iff in H.
  assert (existsb (fun g => (g_player_id g =? pid) && (g_word_id g =? w_id w)) (games s)
          = true); [|congruence].
  apply existsb_exists. exists g. split; [assumption|].
  rewrite Hpid, Hwid, !Z.eqb_refl. reflexivity.
Qed.

Lemma unseen_iff pid s w :
  unseen pid s w = true <->
  forall g, In g (games s) -> g_player_id g = pid -> g_word_id g <> w_id w.
Proof.
  split; [apply unseen_never_target|].
  intros H. unfold unseen. apply negb_true_iff.
  destruct (existsb _ (games s)) eqn:E; [|reflexivity].
  apply existsb_exists in E as (g & Hg & Hb).
  apply andb_true_iff in Hb as [H1 H2].
  apply Z.eqb_eq in H1. apply Z.eqb_eq in H2.
  exfalso. exact (H g Hg H1 H2).
Qed.

Lemma app_one_inj {A} (l : list A) x y : l ++ [x] = l ++ [y] -> x = y.
Proof. intros H. apply app_inv_head in H. now inversion H. Qed.

(** C9: when a registered player without an active game starts a game, the
    target is drawn from the pool of bank words that were never the target of
    one of the player's games, and from the whole bank exactly when no such
    word is left; with an empty pool nothing is started.  The word taken is
    the one at position [random mod n] of the [n] words of the pool, and,
    word ids being unique, the pool holds each of its words once and each
    word is the one taken for exactly one of the [n] residues of the draw: a
    uniform draw gives every word of the pool the same chance.  A target
    drawn while a never-used word exists was never the target of a game of
    this player. *)
Theorem new_game_target rq s p :
  hd_error (select_player (get_fingerprint rq) s) = Some p ->
  active_games_of (p_id p) s = [] ->
  let pid := p_id p in
  let never := fun w =>
    In w (words s) /\
    forall g, In g (games s) -> g_player_id g = pid -> g_word_id g <> w_id w in
  let started := fun (orc : oracle) (w : word_row) =>
    exists gid,
      run (new_game rq orc) None s =
        (Ret (JObj [("game_id"%string, JInt gid); ("guesses"%string, JArr [])], 201),
         mk_db (players s) (words s)
               (games s ++ [mk_game gid pid (w_id w) active 0 (now orc) None])
               (guesses s)) in
  exists pool,
    ((exists w, never w) -> forall w, In w pool <-> never w) /\
    ((forall w, ~ never w) -> pool = words s) /\
    (pool = [] ->
     forall orc, run (new_game rq orc) None s = (Ret (error "No words available", 500), s)) /\
    (forall orc, pool <> [] ->
       exists w, nth_error pool (random orc mod length pool) = Some w /\
                 started orc w /\
                 ((exists w0, never w0) -> never w)) /\
    (word_ids_unique s ->
       NoDup pool /\
       forall w, In w pool ->
         exists k, (k < length pool)%nat /\
                   forall orc, started orc w <-> (random orc mod length pool)%nat = k).
Proof.
  intros Hp Hnone. cbv zeta.
  set (fresh := filter (unseen (p_id p) s) (words s)).
  assert (Hfresh : forall w, In w fresh <->
            In w (words s) /\
            forall g, In g (games s) -> g_player_id g = p_id p -> g_word_id g <> w_id w).
  { intros w. unfold fresh. rewrite filter_In, unseen_iff. reflexivity. }
  assert (Hpool : (fresh = [] /\ candidates (p_id p) s = words s) \/
                  (fresh <> [] /\ candidates (p_id p) s = fresh)).
  { unfold candidates. fold fresh. destruct fresh; [left|right]; split; congruence. }
  assert (Hrun : forall orc,
    run (new_game rq orc) None s =
    match nth_error (candidates (p_id p) s)
                    (random orc mod length (candidates (p_id p) s)) with
    | None => (Ret (error "No words available", 500), s)
    | Some w =>
        (Ret (JObj [("game_id"%string, JInt (fresh_id (map g_id (games s))));
                    ("guesses"%string, JArr [])], 201),
         fst (insert_game (p_id p) (w_id w) (now orc) s))
    end).
  { intros orc. rewrite new_game_run, Hp.
    unfold select_active_game. unfold active_games_of in Hnone. rewrite Hnone.
    reflexivity. }
  assert (Hsub : forall w, In w (candidates (p_id p) s) -> In w (words s)).
  { intros w Hw. destruct Hpool as [[_ E]|[_ E]]; rewrite E in Hw; [exact Hw|].
    now apply Hfresh in Hw. }
  exists (candidates (p_id p) s).
  split; [|split; [|split; [|split]]].
  - intros (w0 & Hw0) w. apply Hfresh in Hw0.
    destruct Hpool as [[E _]|[_ E]]; [rewrite E in Hw0; contradiction|].
    rewrite E. apply Hfresh.
  - intros Hno. destruct Hpool as [[_ E]|[Hne E]]; [exact E|].
    exfalso. destruct fresh as [|w l] eqn:Ef; [congruence|].
    apply (Hno w). apply Hfresh. now left.
  - intros Hnil orc. rewrite Hrun, Hnil. cbn [length].
    destruct (random orc mod 0)%nat; reflexivity.
  - intros orc Hne.
    destruct (random_pick (random orc) (candidates (p_id p) s) Hne) as (w & Hw & _).
    exists w. split; [exact Hw|]. split.
    + exists (fresh_id (map g_id (games s))). rewrite Hrun, Hw. reflexivity.
    + intros (w0 & Hw0). apply Hfresh in Hw0. apply Hfresh.
      apply nth_error_In in Hw.
      destruct Hpool as [[E _]|[_ E]]; [rewrite E in Hw0; contradiction|].
      rewrite E in Hw. exact Hw.
  - intros Hids.
    assert (Hnd : NoDup (candidates (p_id p) s)).
    { apply NoDup_map_inv in Hids.
      destruct Hpool as [[_ E]|[_ E]]; rewrite E; [exact Hids|].
      now apply NoDup_filter. }
    split; [exact Hnd|].
    intros w Hw. destruct (In_nth_error _ _ Hw) as (k & Hk).
    assert (Hlt : (k < length (candidates (p_id p) s))%nat)
      by (apply nth_error_Some; congruence).
    exists k. split; [exact Hlt|].
    intros orc. split.
    + intros (gid & Hst). rewrite Hrun in Hst.
      assert (Hne : candidates (p_id p) s <> []) by (intros E; rewrite E in Hw; exact Hw).
      destruct (random_pick (random orc) (candidates (p_id p) s) Hne) as (w' & Hw' & _).
      rewrite Hw' in Hst. inversion Hst as [[Hgid Hdb]].
      apply app_one_inj in Hdb. inversion Hdb as [[Hgid' Hwid]].
      assert (w' = w).
      { apply (nodup_map_inj w_id (words s));
          [exact Hids|apply Hsub; eapply nth_error_In; eauto|apply Hsub; exact Hw
          |congruence]. }
      subst w'.
      apply (proj1 (NoDup_nth_error _) Hnd); [|congruence].
      apply nth_error_Some. congruence.
    + intros Hr. exists (fresh_id (map g_id (games s))).
      rewrite Hrun, Hr, Hk. reflexivity.
Qed.

(** ** Alphabetic but not ASCII *)

(** C10: for a player with an active game, a normalised guess of five
    alphabetic characters that are not all ASCII letters passes the format
    check, is in no bank of ASCII words, and so is answered 400 "Not a valid
    word" (never "Guess must be exactly 5 letters"), the tables unchanged. *)
Theorem non_ascii_guess_unknown rq orc s p gw w :
  hd_error (select_player (get_fingerprint rq) s) = Some p ->
  hd_error (select_active_game_word (p_id p) s) = Some gw ->
  normalized_guess rq = Ret w ->
  length w = 5%nat -> forallb uni_isalpha w = true ->
  forallb is_ascii_letter w = false ->
  ascii_bank s = true ->
  well_formed w = true /\ in_bank w s = false /\
  run (guess rq orc) None s = (Ret (error "Not a valid word", 400), s).
Proof.
  intros Hp Hgw Hw Hlen Halpha Hnot Hbank.
  assert (Hwf : well_formed w = true).
  { unfold well_formed, isalpha. rewrite Hlen, Halpha.
    destruct w; [discriminate|reflexivity]. }
  assert (Hin : in_bank w s = false).
  { unfold in_bank. destruct (existsb _ (words s)) eqn:E; [|reflexivity].
    apply existsb_exists in E as (r & Hr & Heq). apply str_eqb_eq in Heq.
    unfold ascii_bank in Hbank. rewrite forallb_forall in Hbank.
    specialize (Hbank r Hr). congruence. }
  split; [exact Hwf|]. split; [exact Hin|].
  rewrite guess_run, Hp, Hgw, Hw, Hwf, Hin. reflexivity.
Qed.

End Properties.

(** * The properties at concrete requests *)

Lemma db_playing_one_active : one_active_game db_playing.
Proof.
  intros pid. unfold active_games_of, db_playing. cbn [games filter].
  destruct (owned_active pid _); cbn [length]; lia.
Qed.

Lemma db_playing_ids_unique : game_ids_unique db_playing.
Proof. unfold game_ids_unique. cbn. repeat constructor. intros []. Qed.

Lemma guess_next_status_witness :
  let next := fun (rq : request) (s : db) (body : json) (s' : db) =>
    exists p i g target w st,
      hd_error (select_player (@get_fingerprint latin1 rq) s) = Some p /\
      nth_error (games s) i = Some g /\
      g_player_id g = p_id p /\ g_status g = active /\
      (exists wr, In wr (words s) /\ w_id wr = g_word_id g /\ w_word wr = target) /\
      @normalized_guess latin1 rq = Ret w /\
      let n := g_num_guesses g + 1 in
      (w = target -> st = won) /\
      (w <> target -> n = 6 -> st = lost) /\
      (w <> target -> n <> 6 -> st = active) /\
      jget "status" body = Some (JStr (status_str st)) /\
      exists g',
        nth_error (games s') i = Some g' /\
        g_id g' = g_id g /\ g_status g' = st /\ g_num_guesses g' = n /\
        (st = won \/ st = lost -> g_completed_at g' = Some 5) /\
        (st = active -> g_completed_at g' = g_completed_at g) in
  (* the target, on the first guess *)
  (exists body s',
     run (@guess latin1 (browser (say "guess" "crane")) (mk_oracle 5 7)) None db_playing
     = (Ret (body, 200), s') /\
     jget "status" body = Some (JStr (lit "won")) /\
     games s' = [mk_game 1 1 1 won 1 10 (Some 5)] /\
     next (browser (say "guess" "crane")) db_playing body s') /\
  (* another word, on the first guess *)
  (exists body s',
     run (@guess latin1 (browser (say "guess" "slate")) (mk_oracle 5 7)) None db_playing
     = (Ret (body, 200), s') /\
     jget "status" body = Some (JStr (lit "active")) /\
     games s' = [mk_game 1 1 1 active 1 10 None] /\
     next (browser (say "guess" "slate")) db_playing body s') /\
  (* another word, on the sixth guess *)
  (exists body s',
     run (@guess latin1 (browser (say "guess" "slate")) (mk_oracle 5 7)) None db_last_try
     = (Ret (body, 200), s') /\
     jget "status" body = Some (JStr (lit "lost")) /\
     games s' = [mk_game 1 1 1 lost 6 10 (Some 5)] /\
     next (browser (say "guess" "slate")) db_last_try body s').
Proof.
  cbv zeta beta. split; [|split].
  - eexists. eexists. split; [vm_compute; reflexivity|].
    split; [reflexivity|]. split; [reflexivity|].
    apply (@guess_next_status latin1 (browser (say "guess" "crane")) (mk_oracle 5 7)
             None db_playing).
    vm_compute. reflexivity.
  - eexists. eexists. split; [vm_compute; reflexivity|].
    split; [reflexivity|]. split; [reflexivity|].
    apply (@guess_next_status latin1 (browser (say "guess" "slate")) (mk_oracle 5 7)
             None db_playing).
    vm_compute. reflexivity.
  - eexists. eexists. split; [vm_compute; reflexivity|].
    split; [reflexivity|]. split; [reflexivity|].
    apply (@guess_next_status latin1 (browser (say "guess" "slate")) (mk_oracle 5 7)
             None db_last_try).
    vm_compute. reflexivity.
Defined.

Lemma one_active_game_preserved_witness :
  (one_active_game db_playing /\ game_ids_unique db_playing) /\
  let rq := browser (say "guess" "crane") in
  let s' := snd (run (@handle latin1 Guess rq (mk_oracle 5 7)) None db_playing) in
  one_active_game s' /\ game_ids_unique s' /\
  (forall i g', nth_error (games s') i = Some g' -> (length (games db_playing) <= i)%nat ->
      Guess = NewGame /\ g_status g' = active /\
      exists p, hd_error (select_player (@get_fingerprint latin1 rq) db_playing) = Some p /\
                g_player_id g' = p_id p /\ active_games_of (p_id p) db_playing = []) /\
  (forall i g, nth_error (games db_playing) i = Some g ->
      exists g', nth_error (games s') i = Some g' /\
        g_id g' = g_id g /\ g_player_id g' = g_player_id g /\
        (g_status g' = g_status g \/
         (Guess = Guess /\ g_status g = active /\
          (g_status g' = won \/ g_status g' = lost)))).
Proof.
  split; [split; [exact db_playing_one_active|exact db_playing_ids_unique]|].
  apply (@one_active_game_preserved latin1 Guess (browser (say "guess" "crane"))
           (mk_oracle 5 7) None db_playing).
  - exact db_playing_one_active.
  - exact db_playing_ids_unique.
Defined.

Lemma db_midgame_one_active : one_active_game db_midgame.
Proof.
  intros pid. unfold active_games_of, db_midgame. cbn [games filter].
  unfold owned_active. cbn [g_player_id g_status is_active].
  rewrite !andb_false_r. destruct (1 =? pid); cbn [andb length]; lia.
Qed.

Lemma new_game_resumes_witness :
  let rq := browser None in
  let a := mk_game 2 1 1 active 2 20 None in
  (forall orc,
     run (@new_game latin1 rq orc) None db_midgame =
       (Ret (JObj [("game_id"%string, JInt 2);
                   ("guesses"%string,
                    JArr [JObj [("guess"%string, JStr (lit "slate"));
                                ("guess_number"%string, JInt 1);
                                ("result"%string, JStr (lit "first"))];
                          JObj [("guess"%string, JStr (lit "abide"));
                                ("guess_number"%string, JInt 2);
                                ("result"%string, JStr (lit "second"))]])], 200),
        db_midgame)) /\
  exists history : list guess_row,
    Permutation history (filter (fun r => gs_game_id r =? g_id a) (guesses db_midgame)) /\
    Sorted (fun x y => gs_guess_number x <= gs_guess_number y) history /\
    (forall orc,
       run (@new_game latin1 rq orc) None db_midgame =
         (Ret (JObj [("game_id"%string, JInt (g_id a));
                     ("guesses"%string,
                      JArr (map (fun r =>
                                   JObj [("guess"%string, JStr (gs_guess_word r));
                                         ("guess_number"%string,
                                          JInt (gs_guess_number r));
                                         ("result"%string, gs_result r)])
                                history))], 200), db_midgame)) /\
    (forall orc f, snd (run (@new_game latin1 rq orc) f db_midgame) = db_midgame).
Proof.
  cbv zeta. split; [intros orc; vm_compute; reflexivity|].
  apply (@new_game_resumes latin1 (browser None) db_midgame ann
           (mk_game 2 1 1 active 2 20 None)).
  - reflexivity.
  - right. left. reflexivity.
  - reflexivity.
  - reflexivity.
  - exact db_midgame_one_active.
Defined.

Lemma guess_two_writes_witness :
  let rq := browser (say "guess" "slate") in
  let orc := mk_oracle 5 7 in
  let after := fun f => snd (run (@guess latin1 rq orc) f db_playing) in
  exists result,
    _evaluate_guess (lit "slate") (lit "crane") = Ret result /\
    (* storage fails at the insert *)
    after (Some 3%nat) = db_playing /\
    (* storage fails at the update *)
    (guesses (after (Some 4%nat)) = [mk_guess 1 (lit "slate") 1 (dumps result)] /\
     games (after (Some 4%nat)) = [crane_game]) /\
    (* storage works *)
    (guesses (after None) = [mk_guess 1 (lit "slate") 1 (dumps result)] /\
     games (after None) = [mk_game 1 1 1 active 1 10 None]) /\
    (* a word that is not in the bank *)
    snd (run (@guess latin1 (browser (say "guess" "zzzzz")) orc) None db_playing)
    = db_playing.
Proof.
  cbv zeta beta.
  pose (result := match _evaluate_guess (lit "slate") (lit "crane") with
                  | Ret r => r
                  | Raise _ => []
                  end).
  assert (Hacc : forall f,
    let s' := snd (run (@guess latin1 (browser (say "guess" "slate")) (mk_oracle 5 7))
                       f db_playing) in
    let n := 0 + 1 in
    let row := mk_guess 1 (lit "slate") n (dumps result) in
    (forall k, f = Some k -> (k <= 3)%nat -> s' = db_playing) /\
    (f = Some 4%nat ->
       guesses s' = guesses db_playing ++ [row] /\ games s' = games db_playing /\
       players s' = players db_playing /\ words s' = words db_playing) /\
    (f = None \/ (exists k, f = Some k /\ (5 <= k)%nat) ->
       exists st,
         (lit "slate" = lit "crane" -> st = won) /\
         (lit "slate" <> lit "crane" -> n = 6 -> st = lost) /\
         (lit "slate" <> lit "crane" -> n <> 6 -> st = active) /\
         guesses s' = guesses db_playing ++ [row] /\
         games s' =
           map (fun g =>
                  if g_id g =? 1
                  then match st with
                       | active =>
                           mk_game (g_id g) (g_player_id g) (g_word_id g)
                             (g_status g) n (g_created_at g) (g_completed_at g)
                       | _ =>
                           mk_game (g_id g) (g_player_id g) (g_word_id g)
                             st n (g_created_at g) (Some 5)
                       end
                  else g) (games db_playing) /\
         players s' = players db_playing /\ words s' = words db_playing)).
  { intros f.
    exact (proj2 (@guess_two_writes latin1 (browser (say "guess" "slate")) (mk_oracle 5 7)
                    f db_playing)
             ann (mk_game_word 1 active 0 (lit "crane")) (lit "slate") result
             eq_refl eq_refl eq_refl eq_refl eq_refl eq_refl). }
  exists result. split; [reflexivity|]. split; [|split; [|split]].
  - exact (proj1 (Hacc (Some 3%nat)) 3%nat eq_refl (le_n 3)).
  - destruct (proj1 (proj2 (Hacc (Some 4%nat))) eq_refl) as (Hg & Hgm & _).
    split; [exact Hg|exact Hgm].
  - destruct (proj2 (proj2 (Hacc None)) (or_introl eq_refl))
      as (st & _ & _ & Hgo & Hg & Hgm & _).
    assert (Hst : st = active) by (apply Hgo; discriminate).
    subst st. split; [exact Hg|exact Hgm].
  - apply (proj1 (@guess_two_writes latin1 (browser (say "guess" "zzzzz")) (mk_oracle 5 7)
                    None db_playing)).
    right. exists ann. split; [reflexivity|]. right.
    exists (mk_game_word 1 active 0 (lit "crane")). split; [reflexivity|]. right.
    exists (lit "zzzzz"). split; [reflexivity|]. right. left. reflexivity.
Defined.

(** Against C5 as it is stated: when the storage call that updates the game
    raises, the guess "slate" stays recorded and game 1 still counts 0
    guesses. *)
Lemma guess_not_all_or_nothing :
  ~ @all_or_nothing latin1 (browser (say "guess" "slate")) (mk_oracle 5 7)
      (Some 4%nat) db_playing.
Proof.
  unfold all_or_nothing. cbv zeta.
  intros [H|(p & gw & w & result & Hp & Hgw & Hw & Hev & H)].
  - vm_compute in H. discriminate H.
  - vm_compute in Hp. inversion Hp; subst p.
    vm_compute in Hgw. inversion Hgw; subst gw.
    vm_compute in Hw. inversion Hw; subst w.
    vm_compute in Hev. inversion Hev; subst result.
    vm_compute in H. discriminate H.
Qed.

Lemma rejected_guess_changes_nothing_witness :
  let rq := browser (say "guess" "zzzzz") in
  let orc := mk_oracle 5 7 in
  (@normalized_guess latin1 rq = Ret (lit "zzzzz") /\
   (@well_formed latin1 (lit "zzzzz") = false \/ in_bank (lit "zzzzz") db_playing = false)) /\
  run (@guess latin1 rq orc) None db_playing =
    (Ret (error "Not a valid word", 400), db_playing) /\
  forall f, snd (run (@guess latin1 rq orc) f db_playing) = db_playing.
Proof.
  split; [split; [reflexivity|right; reflexivity]|].
  apply (@rejected_guess_changes_nothing latin1 (browser (say "guess" "zzzzz"))
           (mk_oracle 5 7) db_playing (lit "zzzzz")).
  - reflexivity.
  - right. reflexivity.
Defined.

(** Against C8 as it is stated: from a fingerprint that already has a
    player, a registration with a blank name is answered 400, not Conflict. *)
Lemma blank_name_is_not_conflict :
  ~ @conflict_when_known latin1 (browser (say "name" "  ")) (mk_oracle 5 0) db_registered.
Proof.
  unfold conflict_when_known. intros H.
  assert (Hknown : exists p,
    hd_error (select_player (@get_fingerprint latin1 (browser (say "name" "  ")))
                            db_registered) = Some p)
    by (exists ann; reflexivity).
  specialize (H Hknown). vm_compute in H. discriminate H.
Qed.

Lemma register_outcomes_witness :
  let rq := browser (say "name" " bob ") in
  let orc := mk_oracle 5 0 in
  let s := mk_db [] bank [] [] in
  let p := mk_player 1 (lit "bob") (@get_fingerprint latin1 rq) 5 in
  let s1 := mk_db [p] bank [] [] in
  py_get (body rq) "name" (JStr []) = Ret (JStr (lit " bob ")) /\
  run (@register latin1 rq orc) None s = (Ret (@_serialize_player latin1 p, 201), s1) /\
  (forall rq2 orc2 raw2,
     @get_fingerprint latin1 rq2 = @get_fingerprint latin1 rq ->
     py_get (body rq2) "name" (JStr []) = Ret (JStr raw2) ->
     run (@register latin1 rq2 orc2) None s1 =
       (if is_empty (@strip latin1 raw2)
        then (Ret (error "Name is required", 400), s1)
        else (Ret (error "Player already registered from this browser", 409), s1))).
Proof.
  cbv zeta. split; [reflexivity|].
  destruct (@register_outcomes latin1 (browser (say "name" " bob ")) (mk_oracle 5 0)
              (mk_db [] bank [] []) (lit " bob ")) as [Hrun Hagain].
  - reflexivity.
  - split; [exact Hrun|]. apply Hagain; reflexivity.
Defined.

Lemma new_game_target_witness :
  let rq := browser None in
  let drawn := fun (s : db) =>
    let never := fun w =>
      In w (words s) /\
      forall g, In g (games s) -> g_player_id g = 1 -> g_word_id g <> w_id w in
    let started := fun (orc : oracle) (w : word_row) =>
      exists gid,
        run (@new_game latin1 rq orc) None s =
          (Ret (JObj [("game_id"%string, JInt gid); ("guesses"%string, JArr [])], 201),
           mk_db (players s) (words s)
                 (games s ++ [mk_game gid 1 (w_id w) active 0 (now orc) None])
                 (guesses s)) in
    exists pool,
      ((exists w, never w) -> forall w, In w pool <-> never w) /\
      ((forall w, ~ never w) -> pool = words s) /\
      (pool = [] ->
       forall orc,
         run (@new_game latin1 rq orc) None s = (Ret (error "No words available", 500), s)) /\
      (forall orc, pool <> [] ->
         exists w, nth_error pool (random orc mod length pool) = Some w /\
                   started orc w /\
                   ((exists w0, never w0) -> never w)) /\
      (word_ids_unique s ->
         NoDup pool /\
         forall w, In w pool ->
           exists k, (k < length pool)%nat /\
                     forall orc, started orc w <-> (random orc mod length pool)%nat = k) in
  (* "crane" was a target: the draw 7 takes the second of "slate", "abide" *)
  (run (@new_game latin1 rq (mk_oracle 5 7)) None db_played_once =
     (Ret (JObj [("game_id"%string, JInt 2); ("guesses"%string, JArr [])], 201),
      mk_db [ann] bank
        [mk_game 1 1 1 won 1 10 (Some 11); mk_game 2 1 3 active 0 5 None]
        [mk_guess 1 (lit "crane") 1 JNull]) /\
   drawn db_played_once) /\
  (* every word was a target: the draw 7 takes the second of the whole bank *)
  (games (snd (run (@new_game latin1 rq (mk_oracle 5 7)) None db_played_all)) =
     games db_played_all ++ [mk_game 4 1 2 active 0 5 None] /\
   drawn db_played_all).
Proof.
  cbv zeta beta. split; (split; [reflexivity|]).
  - apply (@new_game_target latin1 (browser None) db_played_once ann); reflexivity.
  - apply (@new_game_target latin1 (browser None) db_played_all ann); reflexivity.
Defined.

Lemma non_ascii_guess_unknown_witness :
  let rq := browser (Some (JObj [("guess"%string, JStr creme)])) in
  (length creme = 5%nat /\ forallb latin1_isalpha creme = true /\
   forallb is_ascii_letter creme = false /\ ascii_bank db_playing = true) /\
  @well_formed latin1 creme = true /\ in_bank creme db_playing = false /\
  run (@guess latin1 rq (mk_oracle 5 7)) None db_playing =
    (Ret (error "Not a valid word", 400), db_playing).
Proof.
  cbv zeta. split; [repeat split; reflexivity|].
  apply (@non_ascii_guess_unknown latin1
           (browser (Some (JObj [("guess"%string, JStr creme)]))) (mk_oracle 5 7)
           db_playing ann (mk_game_word 1 active 0 (lit "crane")) creme);
    reflexivity.
Defined.



(** * More of the evaluator *)

Lemma second_pass_cases g st i st' :
  second_pass g st i = Ret st' ->
  st' = st \/
  (exists l k,
      nth_error (fst st) i = Some None /\ nth_error g i = Some l /\
      nth_error (snd st) k = Some (Some l) /\
      st' = (list_set (fst st) i (Some (mk_entry l present)), list_set (snd st) k None)) \/
  (exists l,
      nth_error (fst st) i = Some None /\ nth_error g i = Some l /\
      contains (snd st) l = false /\
      st' = (list_set (fst st) i (Some (mk_entry l absent)), snd st)).
Proof.
  destruct st as [result rem]. unfold second_pass, getitem. cbn [fst snd].
  destruct (nth_error result i) as [[e|]|] eqn:Hr; cbn [res_bind]; try discriminate.
  - intros H. inversion H. auto.
  - destruct (nth_error g i) as [l|] eqn:Hl; cbn [res_bind]; [|discriminate].
    assert (Hi : (i < length result)%nat) by (apply nth_error_Some; congruence).
    rewrite !(setitem_lt result) by assumption. cbn [res_bind].
    destruct (contains rem l) eqn:Hin.
    + destruct (index_spec _ _ Hin) as (k & -> & Hk). cbn [res_bind].
      rewrite setitem_lt by (apply nth_error_Some; congruence). cbn [res_bind].
      intros H. inversion H. right. left. exists l, k. auto.
    + intros H. inversion H. right. right. exists l. auto.
Qed.

Lemma contains_count l x : contains l x = false -> count (cell_is x) l = 0%nat.
Proof.
  unfold contains, count. induction l as [|c l IH]; simpl; auto.
  intros H. apply orb_false_iff in H as [H1 H2]. rewrite H1. auto.
Qed.

Lemma absent_spent_step g st i st' :
  second_pass g st i = Ret st' -> absent_spent st -> absent_spent st'.
Proof.
  intros Hstep HA.
  destruct (second_pass_cases _ _ _ _ Hstep)
    as [->|[(l & k & Hr & Hl & Hk & ->)|(l & Hr & Hl & Hno & ->)]]; [assumption| |].
  - intros j e Hj Habs. cbn [fst snd] in *.
    assert (Hi : (i < length (fst st))%nat) by (apply nth_error_Some; congruence).
    apply nth_error_list_set_inv in Hj as [[-> He]|[Hne Hj]]; [| |assumption].
    + inversion He; subst. discriminate.
    + pose proof (count_list_set (cell_is (letter e)) (snd st) k None (Some l) Hk) as C.
      specialize (HA j e Hj Habs). cbn in C. unfold b2n in C.
      destruct (N.eqb l (letter e)); lia.
  - intros j e Hj Habs. cbn [fst snd] in *.
    assert (Hi : (i < length (fst st))%nat) by (apply nth_error_Some; congruence).
    apply nth_error_list_set_inv in Hj as [[-> He]|[Hne Hj]]; [| |assumption].
    + inversion He; subst. cbn. now apply contains_count.
    + exact (HA j e Hj Habs).
Qed.

Lemma absent_spent_loop g idxs : forall st st',
  for_each idxs (second_pass g) st = Ret st' -> absent_spent st -> absent_spent st'.
Proof.
  induction idxs as [|i rest IH]; intros st st' H HA; cbn [for_each] in H.
  - inversion H; subst. assumption.
  - destruct (second_pass g st i) as [st1|] eqn:Hstep; [|discriminate].
    eapply IH; [eassumption|]. eapply absent_spent_step; eassumption.
Qed.

Lemma exact_all_correct g t i e :
  nth_error (exact g t) i = Some (Some e) -> status e = correct.
Proof.
  intros H. apply exact_nth in H as (x & y & _ & _ & He).
  destruct (N.eqb x y); inversion He. reflexivity.
Qed.

(** Where the evaluation of two 5-letter words ends. *)
Lemma evaluate_final g t :
  length g = 5%nat -> length t = 5%nat ->
  exists es rem,
    _evaluate_guess g t = Ret (map Some es) /\
    eval_inv g t (map Some es, rem) /\ absent_spent (map Some es, rem) /\
    map letter es = g.
Proof.
  intros Hg Ht. unfold _evaluate_guess.
  rewrite first_pass_closed by assumption. cbn [res_bind].
  destruct (second_pass_loop g t (seq 0 5) (exact g t, leftover g t) Hg)
    as (st & Hrun & Hinv & Hall & _).
  - apply Forall_forall. intros i Hi. apply in_seq in Hi. lia.
  - apply eval_inv_first; assumption.
  - assert (HA : absent_spent st).
    { eapply absent_spent_loop; [exact Hrun|].
      intros i e Hi Habs. cbn [fst] in Hi. apply exact_all_correct in Hi. congruence. }
    rewrite Hrun. cbn [res_bind]. destruct st as [result rem]. cbn [fst] in *.
    destruct (all_some result) as (es & ->).
    { intros i Hi. apply Hall. apply in_seq. destruct Hinv as [Hlen _ _ _ _].
      cbn [fst] in Hlen. lia. }
    exists es, rem. split; [reflexivity|]. split; [assumption|]. split; [assumption|].
    destruct Hinv as [Hlen _ Hlet _ _]. cbn [fst] in *. rewrite length_map in Hlen.
    apply nth_error_ext. intros i. rewrite nth_error_map.
    destruct (nth_error es i) as [e|] eqn:He; cbn [option_map].
    + symmetry. apply Hlet. rewrite nth_error_map, He. reflexivity.
    + symmetry. apply nth_error_None. apply nth_error_None in He. lia.
Qed.

Lemma occurrences_letters L es :
  occurrences L (map letter es) = count (fun e => N.eqb (letter e) L) es.
Proof.
  unfold occurrences, count. induction es as [|e es IH]; [reflexivity|].
  cbn [map count_occ filter].
  destruct (N.eq_dec (letter e) L) as [Heq|Hne].
  - apply N.eqb_eq in Heq. rewrite Heq. cbn [length]. now rewrite IH.
  - apply N.eqb_neq in Hne. now rewrite Hne.
Qed.

Lemma hits_le_letters L es : (hits L es <= count (fun e => N.eqb (letter e) L) es)%nat.
Proof.
  unfold hits, count. induction es as [|e es IH]; [auto|]. cbn [filter].
  destruct (N.eqb (letter e) L); cbn [andb]; [destruct (is_hit (status e))|]; cbn [length]; lia.
Qed.

Lemma hits_all_letters L es :
  existsb (fun e => N.eqb (letter e) L && negb (is_hit (status e))) es = false ->
  hits L es = count (fun e => N.eqb (letter e) L) es.
Proof.
  unfold hits, count. induction es as [|e es IH]; [auto|]. cbn [existsb filter].
  intros H. apply orb_false_iff in H as [H1 H2]. specialize (IH H2).
  destruct (N.eqb (letter e) L); cbn [andb] in *; [|assumption].
  destruct (is_hit (status e)); [|discriminate]. cbn [length]. now rewrite IH.
Qed.

Lemma some_absent L es :
  existsb (fun e => N.eqb (letter e) L && negb (is_hit (status e))) es = true ->
  exists i e, nth_error es i = Some e /\ letter e = L /\ status e = absent.
Proof.
  intros H. apply existsb_exists in H as (e & Hin & He).
  apply andb_true_iff in He as [Hl Hs]. apply N.eqb_eq in Hl.
  apply In_nth_error in Hin as (i & Hi). exists i, e.
  split; [assumption|]. split; [assumption|]. destruct (status e); try discriminate; reflexivity.
Qed.

Lemma hits_spent g t es rem i e :
  eval_inv g t (map Some es, rem) -> absent_spent (map Some es, rem) ->
  nth_error es i = Some e -> status e = absent ->
  hits (letter e) es = occurrences (letter e) t.
Proof.
  intros [_ Hcons _ _ _] HA Hi Habs. cbn [fst snd] in *.
  specialize (Hcons (letter e)). rewrite count_ohit_map in Hcons.
  assert (H0 : count (cell_is (letter e)) rem = 0%nat).
  { apply (HA i e); [|assumption]. cbn [fst]. rewrite nth_error_map, Hi. reflexivity. }
  lia.
Qed.

(** X1: for 5-letter words the marks [correct] or [present] on a letter [L]
    are exactly as many as [L] has occurrences in both words: the smaller of
    its count in the guess and its count in the target. *)
Theorem evaluate_hits_min g t :
  length g = 5%nat -> length t = 5%nat ->
  exists es,
    _evaluate_guess g t = Ret (map Some es) /\
    forall L, hits L es = Nat.min (occurrences L g) (occurrences L t).
Proof.
  intros Hg Ht.
  destruct (evaluate_final g t Hg Ht) as (es & rem & Hrun & Hinv & HA & Hlet).
  exists es. split; [exact Hrun|]. intros L.
  pose proof (hits_le_letters L es) as Hle.
  rewrite <- Hlet, occurrences_letters.
  destruct (existsb (fun e => N.eqb (letter e) L && negb (is_hit (status e))) es) eqn:E.
  - apply some_absent in E as (i & e & Hi & <- & Habs).
    rewrite (hits_spent g t es rem i e Hinv HA Hi Habs) in *. lia.
  - rewrite (hits_all_letters L es E).
    destruct Hinv as [_ Hcons _ _ _]. specialize (Hcons L). cbn [fst snd] in Hcons.
    rewrite count_ohit_map, (hits_all_letters L es E) in Hcons. lia.
Qed.

Lemma map_Some_inj {A} (l l' : list A) : map Some l = map Some l' -> l = l'.
Proof.
  revert l'; induction l as [|a l IH]; intros [|b l'] H; cbn in H; try discriminate; auto.
  inversion H; subst. f_equal. auto.
Qed.

(** X2: for 5-letter words the evaluation marks all five positions
    [correct] exactly when the guess is the target, the test by which the
    guess handler declares the game won. *)
Theorem evaluate_all_correct_iff g t :
  length g = 5%nat -> length t = 5%nat ->
  (_evaluate_guess g t = Ret (map (fun c => Some (mk_entry c correct)) g) <->
   str_eqb g t = true).
Proof.
  intros Hg Ht. rewrite str_eqb_eq.
  destruct (evaluate_final g t Hg Ht) as (es & rem & Hrun & Hinv & _ & Hlet).
  destruct Hinv as [_ _ _ Hcor _]. cbn [fst] in Hcor. rewrite Hrun. split.
  - intros H. inversion H as [Hes]. rewrite <- (map_map (fun c => mk_entry c correct) Some) in Hes.
    apply map_Some_inj in Hes. subst es.
    apply nth_error_ext. intros i.
    destruct (nth_error g i) as [c|] eqn:Hc.
    + rewrite <- Hc. apply (Hcor i (mk_entry c correct)); [|reflexivity].
      rewrite !nth_error_map, Hc. reflexivity.
    + symmetry. apply nth_error_None. apply nth_error_None in Hc. lia.
  - intros Heq. subst t. f_equal.
    rewrite <- (map_map (fun c => mk_entry c correct) Some). f_equal.
    assert (Hall : forall i e, nth_error es i = Some e -> status e = correct).
    { intros i e He. apply (Hcor i e); [|reflexivity]. rewrite nth_error_map, He. reflexivity. }
    rewrite <- Hlet, map_map. clear - Hall.
    induction es as [|[l m] es IH]; [reflexivity|]. cbn [map letter].
    rewrite <- IH by (intros i e He; apply (Hall (S i) e He)).
    f_equal. f_equal. apply (Hall 0%nat (mk_entry l m)). reflexivity.
Qed.

(** X3: what the marks of a 5-letter evaluation mean.  The result has five
    entries, each carrying the guess letter of its position.  An entry is
    [correct] exactly where guess and target agree.  A [present] letter occurs
    in the target at another position.  For an [absent] letter every
    occurrence in the target is already marked by a [correct] or [present]
    entry of the result. *)
Theorem evaluate_marks_meaning g t :
  length g = 5%nat -> length t = 5%nat ->
  exists es,
    _evaluate_guess g t = Ret (map Some es) /\
    length es = 5%nat /\
    forall i e, nth_error es i = Some e ->
      nth_error g i = Some (letter e) /\
      (status e = correct <-> nth_error g i = nth_error t i) /\
      (status e = present ->
         exists j, j <> i /\ nth_error t j = Some (letter e)) /\
      (status e = absent ->
         hits (letter e) es = occurrences (letter e) t).
Proof.
  intros Hg Ht.
  destruct (evaluate_final g t Hg Ht) as (es & rem & Hrun & Hinv & HA & Hlet).
  exists es. split; [exact Hrun|].
  split; [rewrite <- Hg, <- Hlet; symmetry; apply length_map|].
  intros i e Hi.
  assert (Hsome : nth_error (map Some es) i = Some (Some e))
    by (rewrite nth_error_map, Hi; reflexivity).
  assert (Hl : nth_error g i = Some (letter e)).
  { destruct Hinv as [_ _ Hletter _ _]. cbn [fst] in Hletter. now apply Hletter. }
  assert (Hc : status e = correct <-> nth_error g i = nth_error t i).
  { destruct Hinv as [_ _ _ Hcor _]. cbn [fst] in Hcor. now apply Hcor. }
  split; [exact Hl|]. split; [exact Hc|]. split; intros Hs.
  - destruct Hinv as [_ Hcons _ _ _]. specialize (Hcons (letter e)). cbn [fst snd] in Hcons.
    rewrite count_ohit_map in Hcons.
    assert (1 <= hits (letter e) es)%nat.
    { unfold hits. apply nth_error_In in Hi.
      assert (Hin : In e (filter (fun e0 => N.eqb (letter e0) (letter e) && is_hit (status e0)) es)).
      { apply filter_In. split; [assumption|]. rewrite N.eqb_refl, Hs. reflexivity. }
      destruct (filter _ es); [contradiction|cbn [length]; lia]. }
    assert (Hin : In (letter e) t).
    { apply (count_occ_In N.eq_dec). unfold occurrences in Hcons. lia. }
    apply In_nth_error in Hin as (j & Hj). exists j. split; [|exact Hj].
    intros ->. assert (status e = correct) by (apply Hc; congruence). congruence.
  - eapply hits_spent; eassumption.
Qed.

Lemma for_each_ext {S} (f f' : S -> nat -> res S) idxs : forall st,
  (forall st i, In i idxs -> f st i = f' st i) ->
  for_each idxs f st = for_each idxs f' st.
Proof.
  induction idxs as [|i rest IH]; intros st H; [reflexivity|]. cbn [for_each].
  rewrite (H st i) by (left; reflexivity).
  destruct (f' st i); [|reflexivity]. apply IH. intros st' j Hj. apply H. now right.
Qed.

Lemma count_cells_fresh L w : count (cell_is L) (map Some w) = occurrences L w.
Proof.
  unfold count, occurrences. induction w as [|c w IH]; [reflexivity|].
  cbn [map filter count_occ cell_is].
  destruct (N.eq_dec c L) as [Heq|Hne].
  - apply N.eqb_eq in Heq. rewrite Heq. cbn [length]. now rewrite IH.
  - apply N.eqb_neq in Hne. now rewrite Hne.
Qed.

Lemma count_app {A} (p : A -> bool) l l' : count p (l ++ l') = (count p l + count p l')%nat.
Proof. unfold count. now rewrite filter_app, length_app. Qed.

Lemma eval_inv_first_long g5 t5 tt :
  length g5 = 5%nat -> length t5 = 5%nat ->
  eval_inv g5 (t5 ++ tt) (exact g5 t5, leftover g5 t5 ++ map Some tt).
Proof.
  intros Hg Ht.
  assert (Hnth : forall i y, nth_error t5 i = Some y -> nth_error (t5 ++ tt) i = Some y).
  { intros i y H. rewrite nth_error_app1; [assumption|]. apply nth_error_Some. congruence. }
  constructor; cbn [fst snd].
  - rewrite length_exact; congruence.
  - intros L. rewrite count_app, count_cells_fresh.
    assert (E : (count (ohit L) (exact g5 t5) + count (cell_is L) (leftover g5 t5))%nat
                = occurrences L t5) by (apply exact_leftover_count; congruence).
    unfold occurrences in *. rewrite count_occ_app, Nat.add_assoc. f_equal. exact E.
  - intros i e H. apply exact_nth in H as (x & y & Hx & Hy & He).
    destruct (N.eqb x y); inversion He; subst. exact Hx.
  - intros i e H. apply exact_nth in H as (x & y & Hx & Hy & He).
    destruct (N.eqb_spec x y); inversion He; subst; simpl.
    rewrite Hx, (Hnth _ _ Hy). tauto.
  - intros i H. apply exact_nth in H as (x & y & Hx & Hy & He).
    destruct (N.eqb_spec x y); try discriminate. rewrite Hx, (Hnth _ _ Hy). congruence.
Qed.

Ltac eqb_cases :=
  repeat match goal with
         | |- context [N.eqb ?a ?b] => destruct (N.eqb a b); cbn
         end.

Lemma evaluate_short g t :
  (length g < 5 \/ length t < 5)%nat -> _evaluate_guess g t = Raise IndexError.
Proof.
  intros H.
  destruct g as [|g0 [|g1 [|g2 [|g3 [|g4 gt]]]]];
    destruct t as [|t0 [|t1 [|t2 [|t3 [|t4 tt]]]]];
    cbn [length] in H; try (exfalso; lia);
    unfold _evaluate_guess; cbn; eqb_cases; reflexivity.
Qed.

Lemma evaluate_long g t :
  (5 <= length g)%nat -> (5 <= length t)%nat ->
  exists es, _evaluate_guess g t = Ret (map Some es) /\ length es = 5%nat /\
             _evaluate_guess g t = _evaluate_guess (firstn 5 g) t.
Proof.
  intros Hg Ht.
  destruct g as [|g0 [|g1 [|g2 [|g3 [|g4 gt]]]]]; cbn [length] in Hg; try lia.
  destruct t as [|t0 [|t1 [|t2 [|t3 [|t4 tt]]]]]; cbn [length] in Ht; try lia.
  set (g5 := [g0; g1; g2; g3; g4]). set (t5 := [t0; t1; t2; t3; t4]).
  set (t := t0 :: t1 :: t2 :: t3 :: t4 :: tt).
  assert (Hfirst : forall g', firstn 5 g' = g5 ->
     for_each (seq 0 5) (first_pass g' t) (repeat None 5, map Some t)
     = Ret (exact g5 t5, leftover g5 t5 ++ map Some tt)).
  { intros g' Hg'.
    destruct g' as [|a0 [|a1 [|a2 [|a3 [|a4 at']]]]]; try discriminate.
    cbn [firstn] in Hg'. inversion Hg'; subst.
    subst t. cbn. eqb_cases; reflexivity. }
  assert (Hsecond : forall g' st, firstn 5 g' = g5 ->
     for_each (seq 0 5) (second_pass g') st = for_each (seq 0 5) (second_pass g5) st).
  { intros g' st Hg'. apply for_each_ext. intros st' i Hi. apply in_seq in Hi.
    unfold second_pass. destruct st' as [result rem].
    replace (getitem g' i) with (getitem g5 i); [reflexivity|].
    unfold getitem. rewrite <- Hg', nth_error_firstn.
    destruct (Nat.ltb_spec i 5); [reflexivity|lia]. }
  assert (Hrun : forall g', firstn 5 g' = g5 ->
     _evaluate_guess g' t =
     (st2 <~ for_each (seq 0 5) (second_pass g5)
                (exact g5 t5, leftover g5 t5 ++ map Some tt) ;; Ret (fst st2))).
  { intros g' Hg'. unfold _evaluate_guess. rewrite (Hfirst g' Hg'). cbn [res_bind].
    rewrite (Hsecond g' _ Hg'). reflexivity. }
  destruct (second_pass_loop g5 t (seq 0 5) (exact g5 t5, leftover g5 t5 ++ map Some tt))
    as (st & Hloop & [Hlen _ _ _ _] & Hall & _).
  - reflexivity.
  - apply Forall_forall. intros i Hi. apply in_seq in Hi. lia.
  - apply (eval_inv_first_long g5 t5 tt); reflexivity.
  - destruct (all_some (fst st)) as (es & Hes).
    { intros i Hi. apply Hall. apply in_seq. lia. }
    exists es. rewrite (Hrun (g0 :: g1 :: g2 :: g3 :: g4 :: gt)) by reflexivity.
    rewrite (Hrun (firstn 5 (g0 :: g1 :: g2 :: g3 :: g4 :: gt))) by reflexivity.
    rewrite Hloop. cbn [res_bind]. rewrite Hes in *.
    split; [reflexivity|]. split; [|reflexivity]. now rewrite length_map in Hlen.
Qed.

(** X4: [_evaluate_guess] raises [IndexError] exactly when the guess or the
    target has fewer than five characters.  Otherwise it returns five
    entries and reads only the first five characters of the guess. *)
Theorem evaluate_raises_iff_short g t :
  (_evaluate_guess g t = Raise IndexError <-> (length g < 5 \/ length t < 5)%nat) /\
  ((5 <= length g)%nat /\ (5 <= length t)%nat <->
   exists es, _evaluate_guess g t = Ret (map Some es) /\ length es = 5%nat) /\
  _evaluate_guess g t = _evaluate_guess (firstn 5 g) t.
Proof.
  destruct (Nat.ltb_spec (length g) 5) as [Hg|Hg].
  - pose proof (evaluate_short g t (or_introl Hg)) as Hs.
    split; [|split].
    + split; auto.
    + split; [lia|]. intros (es & H & _). congruence.
    + rewrite Hs. symmetry. apply evaluate_short. left.
      rewrite length_firstn. lia.
  - destruct (Nat.ltb_spec (length t) 5) as [Ht|Ht].
    + pose proof (evaluate_short g t (or_intror Ht)) as Hs.
      split; [|split].
      * split; auto.
      * split; [lia|]. intros (es & H & _). congruence.
      * rewrite Hs. symmetry. apply evaluate_short. now right.
    + destruct (evaluate_long g t Hg Ht) as (es & Hrun & Hlen & Hfirst).
      split; [|split].
      * split; [congruence|lia].
      * split; [eauto|auto].
      * exact Hfirst.
Qed.

Lemma evaluate_hits_min_witness :
  (length (lit "speed") = 5%nat /\ length (lit "abide") = 5%nat) /\
  exists es,
    _evaluate_guess (lit "speed") (lit "abide") = Ret (map Some es) /\
    forall L, hits L es
              = Nat.min (occurrences L (lit "speed")) (occurrences L (lit "abide")).
Proof.
  split; [split; reflexivity|].
  apply (evaluate_hits_min (lit "speed") (lit "abide")); reflexivity.
Defined.

Lemma evaluate_all_correct_iff_witness :
  (length (lit "crane") = 5%nat /\ length (lit "slate") = 5%nat) /\
  (_evaluate_guess (lit "crane") (lit "slate")
     = Ret (map (fun c => Some (mk_entry c correct)) (lit "crane")) <->
   str_eqb (lit "crane") (lit "slate") = true).
Proof.
  split; [split; reflexivity|].
  apply (evaluate_all_correct_iff (lit "crane") (lit "slate")); reflexivity.
Defined.

Lemma evaluate_marks_meaning_witness :
  (length (lit "speed") = 5%nat /\ length (lit "abide") = 5%nat) /\
  exists es,
    _evaluate_guess (lit "speed") (lit "abide") = Ret (map Some es) /\
    length es = 5%nat /\
    forall i e, nth_error es i = Some e ->
      nth_error (lit "speed") i = Some (letter e) /\
      (status e = correct <-> nth_error (lit "speed") i = nth_error (lit "abide") i) /\
      (status e = present ->
         exists j, j <> i /\ nth_error (lit "abide") j = Some (letter e)) /\
      (status e = absent ->
         hits (letter e) es = occurrences (letter e) (lit "abide")).
Proof.
  split; [split; reflexivity|].
  apply (evaluate_marks_meaning (lit "speed") (lit "abide")); reflexivity.
Defined.

(** * More of the handlers *)

Section MoreHandlers.
Context {ext : External}.

Ltac db_unfold :=
  cbv beta iota zeta delta [run bind ret raise lift query_db_one query_db execute_db connect
       _player_by_fingerprint store fault fst snd
       insert_player insert_game insert_guess update_where_id
       update_game_finished update_game_num_guesses].

(** ** The fingerprint *)

Lemma take_while_prefix (first rest : pystr) :
  has_comma first = false ->
  take_while (fun c => negb (N.eqb c comma)) (first ++ comma :: rest) = first.
Proof.
  unfold has_comma. induction first as [|c first IH]; cbn [existsb app take_while].
  - intros _. rewrite N.eqb_refl. reflexivity.
  - intros H. apply orb_false_iff in H as [Hc Hrest].
    rewrite N.eqb_sym, Hc. cbn [negb]. now rewrite IH.
Qed.

Lemma has_comma_app first rest : has_comma (first ++ comma :: rest) = true.
Proof.
  unfold has_comma. rewrite existsb_app. cbn [existsb]. rewrite N.eqb_refl.
  now rewrite orb_true_r.
Qed.

(** X5: when [X-Forwarded-For] carries a chain, the fingerprint is the
    digest of its first entry, trimmed, followed by the user agent and the
    accepted language (a header that is not sent counting as empty): the
    later entries of the chain, the peer address and the body play no part.
    A value without a comma, forwarded or not, is used as it is, untrimmed. *)
Theorem fingerprint_of_chain first rest addr ua al json_body :
  has_comma first = false ->
  get_fingerprint (mk_request addr (Some (first ++ comma :: rest)) ua al json_body)
    = sha256_hexdigest (strip first ++ header ua ++ header al) /\
  get_fingerprint (mk_request addr (Some first) ua al json_body)
    = sha256_hexdigest (first ++ header ua ++ header al) /\
  get_fingerprint (mk_request (Some first) None ua al json_body)
    = sha256_hexdigest (first ++ header ua ++ header al).
Proof.
  intros H. unfold get_fingerprint.
  cbn [x_forwarded_for remote_addr user_agent accept_language].
  fold (has_comma (first ++ comma :: rest)) (has_comma first).
  rewrite has_comma_app, H, take_while_prefix by assumption.
  repeat split; reflexivity.
Qed.

(** X6: the three parts are joined without a separator, so two requests
    whose address, user agent and language concatenate to the same string
    have the same fingerprint, and [me] answers both alike in every state. *)
Theorem fingerprint_collision a1 u1 l1 a2 u2 l2 b1 b2 :
  has_comma a1 = false -> has_comma a2 = false ->
  a1 ++ header u1 ++ header l1 = a2 ++ header u2 ++ header l2 ->
  let rq1 := mk_request (Some a1) None u1 l1 b1 in
  let rq2 := mk_request (Some a2) None u2 l2 b2 in
  get_fingerprint rq1 = get_fingerprint rq2 /\
  forall f s, run (me rq1) f s = run (me rq2) f s.
Proof.
  intros H1 H2 Heq. cbv zeta.
  assert (Hfp : get_fingerprint (mk_request (Some a1) None u1 l1 b1)
                = get_fingerprint (mk_request (Some a2) None u2 l2 b2)).
  { unfold get_fingerprint.
    cbn [x_forwarded_for remote_addr user_agent accept_language].
    fold (has_comma a1) (has_comma a2). rewrite H1, H2.
    f_equal. exact Heq. }
  split; [exact Hfp|]. intros f s. unfold me. now rewrite Hfp.
Qed.

(** ** Read-only handlers when storage works *)

Lemma me_run rq s :
  run (me rq) None s =
  match hd_error (select_player (get_fingerprint rq) s) with
  | None => (Ret (error "Player not found", 404), s)
  | Some p => (Ret (jsonify (_serialize_player p)), s)
  end.
Proof.
  unfold me. db_unfold.
  destruct (hd_error (select_player (get_fingerprint rq) s)); reflexivity.
Qed.

Lemma stats_run rq s :
  run (stats rq) None s =
  match hd_error (select_player (get_fingerprint rq) s) with
  | None => (Ret (error "Player not found", 404), s)
  | Some p =>
      match hd_error (select_stats (p_id p) s) with
      | None =>
          (Ret (jsonify (JObj [("games_won"%string, JInt 0);
                               ("games_lost"%string, JInt 0);
                               ("avg_guesses"%string, JNull);
                               ("current_streak"%string, JInt 0);
                               ("best_streak"%string, JInt 0)])), s)
      | Some row =>
          (Ret (jsonify (JObj [("games_won"%string, JInt (s_games_won row));
                               ("games_lost"%string,
                                JInt (s_games_played row - s_games_won row));
                               ("avg_guesses"%string,
                                float_or_null (s_avg_guesses_per_win row));
                               ("current_streak"%string, JInt (s_current_streak row));
                               ("best_streak"%string, JInt (s_best_streak row))])), s)
      end
  end.
Proof.
  unfold stats. db_unfold.
  destruct (hd_error (select_player (get_fingerprint rq) s)); [|reflexivity].
  db_unfold. destruct (hd_error (select_stats (p_id p) s)); reflexivity.
Qed.

(** ** Registration and lookup *)

(** X7: a registration that succeeds stores the trimmed name under the
    request's fingerprint, after the players that were there, and from then
    on [me], asked from that fingerprint, answers 200 with the very player
    document the registration returned. *)
Theorem register_then_me rq orc s raw :
  py_get (body rq) "name" (JStr []) = Ret (JStr raw) ->
  is_empty (strip raw) = false ->
  hd_error (select_player (get_fingerprint rq) s) = None ->
  exists p s1,
    run (register rq orc) None s = (Ret (_serialize_player p, 201), s1) /\
    p_name p = strip raw /\ p_fingerprint p = get_fingerprint rq /\
    players s1 = players s ++ [p] /\
    forall rq', get_fingerprint rq' = get_fingerprint rq ->
      run (me rq') None s1 = (Ret (_serialize_player p, 200), s1).
Proof.
  intros Hname Hne Hnew.
  rewrite (register_run _ _ _ _ Hname), Hne, Hnew. cbv zeta.
  eexists. eexists. split; [reflexivity|]. cbn [p_name p_fingerprint p_id players].
  split; [reflexivity|]. split; [reflexivity|]. split; [reflexivity|].
  intros rq' Hfp. rewrite me_run, Hfp, select_player_added by auto. reflexivity.
Qed.

(** X8: a request from a fingerprint with no player is turned away: 401
    "Player not registered" by start-game, query-current and guess, 404
    "Player not found" by [me] and [stats]; and whatever storage does, none
    of the handlers but [register] changes a table for it. *)
Theorem unregistered_is_turned_away rq orc s :
  hd_error (select_player (get_fingerprint rq) s) = None ->
  run (new_game rq orc) None s = (Ret (error "Player not registered", 401), s) /\
  run (current_game rq) None s = (Ret (error "Player not registered", 401), s) /\
  run (guess rq orc) None s = (Ret (error "Player not registered", 401), s) /\
  run (me rq) None s = (Ret (error "Player not found", 404), s) /\
  run (stats rq) None s = (Ret (error "Player not found", 404), s) /\
  forall o f, o <> Register -> snd (run (handle o rq orc) f s) = s.
Proof.
  intros Hnone.
  rewrite new_game_run, current_game_run, guess_run, me_run, stats_run, Hnone.
  repeat (split; [reflexivity|]).
  intros o f Ho. destruct o; cbn [handle]; try congruence.
  - apply me_effect.
  - destruct (new_game_effect rq orc f s) as [H|(p & w & Hp & _)]; [exact H|congruence].
  - apply current_game_effect.
  - destruct (guess_effect rq orc f s) as [H|(p & gw & w & r & Hp & _)];
      [exact H|congruence].
  - apply leaderboard_effect.
  - apply stats_effect.
Qed.

(** ** One request after another *)

Lemma filter_none {A} (p : A -> bool) l :
  (forall x, In x l -> p x = false) -> filter p l = [].
Proof.
  induction l as [|a l IH]; intros H; [reflexivity|]. cbn [filter].
  rewrite (H a) by (left; reflexivity). apply IH. intros x Hx. apply H. now right.
Qed.

Lemma candidates_nonempty pid s : words s <> [] -> candidates pid s <> [].
Proof.
  unfold candidates. destruct (filter (unseen pid s) (words s)); [auto|discriminate].
Qed.

Lemma no_guesses_of_fresh s :
  guesses_have_games s ->
  filter (fun r => gs_game_id r =? fresh_id (map g_id (games s))) (guesses s) = [].
Proof.
  intros H. apply filter_none. intros r Hr. apply Z.eqb_neq. intros Heq.
  specialize (H r Hr). rewrite Heq in H. apply fresh_id_above in H. lia.
Qed.

Lemma owned_active_started pid t wid gid :
  owned_active pid (mk_game gid pid wid active 0 t None) = true.
Proof. unfold owned_active. cbn. now rewrite Z.eqb_refl. Qed.

(** X9: where every stored guess belongs to a stored game, the game that
    start-game creates for a player (registered, without an active game, the
    bank not empty) is the one query-current then reports, with status
    "active" and no guess, and the one a second start-game resumes instead of
    creating another. *)
Theorem started_game_is_current rq orc s p :
  hd_error (select_player (get_fingerprint rq) s) = Some p ->
  active_games_of (p_id p) s = [] ->
  words s <> [] ->
  guesses_have_games s ->
  exists gid s1,
    run (new_game rq orc) None s =
      (Ret (JObj [("game_id"%string, JInt gid); ("guesses"%string, JArr [])], 201), s1) /\
    forall rq', get_fingerprint rq' = get_fingerprint rq ->
      run (current_game rq') None s1 =
        (Ret (JObj [("game_id"%string, JInt gid);
                    ("status"%string, JStr (lit "active"));
                    ("num_guesses"%string, JInt 0);
                    ("guesses"%string, JArr [])], 200), s1) /\
      forall orc',
        run (new_game rq' orc') None s1 =
          (Ret (JObj [("game_id"%string, JInt gid); ("guesses"%string, JArr [])], 200),
           s1).
Proof.
  intros Hp Hnone Hwords Hfk.
  destruct (random_pick (random orc) (candidates (p_id p) s)
              (candidates_nonempty _ _ Hwords)) as (w & Hw & _).
  assert (Hsel : hd_error (select_active_game (p_id p) s) = None).
  { unfold select_active_game. unfold active_games_of in Hnone. now rewrite Hnone. }
  rewrite new_game_run, Hp, Hsel, Hw.
  eexists. eexists. split; [reflexivity|].
  intros rq' Hfp.
  set (s1 := fst (insert_game (p_id p) (w_id w) (now orc) s)).
  assert (Hp1 : hd_error (select_player (get_fingerprint rq') s1) = Some p)
    by (rewrite Hfp; exact Hp).
  assert (Ha1 : hd_error (select_active_game (p_id p) s1)
                = Some (mk_active (fresh_id (map g_id (games s))) active 0 (now orc))).
  { unfold select_active_game, s1, insert_game. cbn [fst games].
    unfold active_games_of in Hnone.
    rewrite filter_app, Hnone. cbn [filter app].
    rewrite owned_active_started. reflexivity. }
  assert (Hg1 : select_guesses (fresh_id (map g_id (games s))) s1 = []).
  { unfold select_guesses, s1, insert_game. cbn [fst guesses].
    rewrite (no_guesses_of_fresh s Hfk). reflexivity. }
  split.
  - rewrite current_game_run, Hp1, Ha1. cbn [a_id a_status a_num_guesses].
    rewrite Hg1. reflexivity.
  - intros orc'. rewrite new_game_run, Hp1, Ha1. cbn [a_id]. rewrite Hg1. reflexivity.
Qed.

(** X12: with an empty word bank, start-game for a registered player
    without an active game answers 500 "No words available" and creates
    nothing, whatever storage does. *)
Theorem empty_bank_starts_nothing rq orc s p :
  hd_error (select_player (get_fingerprint rq) s) = Some p ->
  active_games_of (p_id p) s = [] ->
  words s = [] ->
  run (new_game rq orc) None s = (Ret (error "No words available", 500), s) /\
  forall f, snd (run (new_game rq orc) f s) = s.
Proof.
  intros Hp Hnone Hwords.
  assert (Hc : candidates (p_id p) s = []).
  { unfold candidates. rewrite Hwords. reflexivity. }
  split.
  - rewrite new_game_run, Hp. unfold select_active_game.
    unfold active_games_of in Hnone. rewrite Hnone, Hc. cbn [map hd_error length].
    destruct (random orc mod 0)%nat; reflexivity.
  - intros f.
    destruct (new_game_effect rq orc f s) as [H|(p' & w & Hp' & _ & Hw & _)]; [exact H|].
    rewrite Hp in Hp'. inversion Hp'; subst p'. rewrite Hc in Hw.
    destruct (random orc mod length (@nil word_row))%nat; discriminate.
Qed.

Lemma flat_map_none {A B} (F : A -> list B) l :
  (forall x, In x l -> F x = []) -> flat_map F l = [].
Proof.
  induction l as [|a l IH]; intros H; [reflexivity|]. cbn [flat_map].
  rewrite (H a) by (left; reflexivity). apply IH. intros x Hx. apply H. now right.
Qed.

Lemma no_active_no_join pid s :
  filter (owned_active pid) (games s) = [] -> select_active_game_word pid s = [].
Proof.
  intros H. unfold select_active_game_word. apply flat_map_none. intros g Hg.
  destruct (owned_active pid g) eqn:E; [|reflexivity].
  assert (Hin : In g (filter (owned_active pid) (games s))) by (apply filter_In; auto).
  rewrite H in Hin. contradiction.
Qed.

(** The tables after an accepted guess, seen from the game it was made in. *)
Lemma accepted_guess_state rq orc f s body s1 :
  run (guess rq orc) f s = (Ret (body, 200), s1) ->
  one_active_game s ->
  exists p g0 target w result,
    let n := g_num_guesses g0 + 1 in
    let st := outcome w target n in
    hd_error (select_player (get_fingerprint rq) s) = Some p /\
    In g0 (games s) /\ owned_active (p_id p) g0 = true /\
    filter (owned_active (p_id p)) (games s) = [g0] /\
    players s1 = players s /\
    games s1 = map (fun g => if g_id g =? g_id g0
                             then match st with
                                  | active => set_num_guesses n g
                                  | _ => set_finished n st (now orc) g
                                  end
                             else g) (games s) /\
    body = guess_response (mk_game_word (g_id g0) (g_status g0) (g_num_guesses g0) target)
                          w result (select_guesses (g_id g0) s1).
Proof.
  intros H Hone. apply guess_answered in H. apply guess_accepted in H.
  destruct H as (p & gw & w & result & Hp & Hgw & _ & _ & _ & _ & -> & ->).
  destruct (joined_game _ _ _ Hgw) as (i & g0 & wr & Hi & Hown & _ & _ & Heq).
  apply nth_error_In in Hi.
  exists p, g0, (w_word wr), w, result. cbv zeta.
  rewrite advance_game_games. subst gw. cbn [gw_id gw_word gw_num_guesses].
  split; [assumption|]. split; [assumption|]. split; [assumption|].
  split; [now apply the_active_game|].
  split; [unfold advance_game; destruct (is_active _); reflexivity|].
  split; reflexivity.
Qed.

Lemma others_not_active pid s g0 g :
  filter (owned_active pid) (games s) = [g0] -> In g (games s) ->
  g_id g <> g_id g0 -> owned_active pid g = false.
Proof.
  intros Hf Hg Hid. destruct (owned_active pid g) eqn:E; [|reflexivity].
  assert (Hin : In g (filter (owned_active pid) (games s))) by (apply filter_In; auto).
  rewrite Hf in Hin. destruct Hin as [<-|[]]. congruence.
Qed.

(** X10: once a guess has driven the game to "won" or "lost", the player
    has no active game: query-current and every further guess from that
    fingerprint are answered 404 "No active game", and such a guess changes
    no table, whatever storage does. *)
Theorem finished_game_is_closed rq orc f s body s1 :
  run (guess rq orc) f s = (Ret (body, 200), s1) ->
  jget "status" body <> Some (JStr (status_str active)) ->
  one_active_game s ->
  forall rq', get_fingerprint rq' = get_fingerprint rq ->
    run (current_game rq') None s1 = (Ret (error "No active game", 404), s1) /\
    (forall orc', run (guess rq' orc') None s1 = (Ret (error "No active game", 404), s1)) /\
    (forall orc' f', snd (run (guess rq' orc') f' s1) = s1).
Proof.
  intros H Hst Hone rq' Hfp.
  destruct (accepted_guess_state _ _ _ _ _ _ H Hone)
    as (p & g0 & target & w & result & Hp & Hg0 & Hown & Hf & Hplayers & Hgames & ->).
  rewrite status_of_response in Hst. cbn [gw_word gw_num_guesses] in Hst.
  assert (Hp1 : hd_error (select_player (get_fingerprint rq') s1) = Some p).
  { rewrite Hfp. unfold select_player. rewrite Hplayers. exact Hp. }
  assert (Hnone : filter (owned_active (p_id p)) (games s1) = []).
  { rewrite Hgames. apply filter_none. intros g' Hg'.
    apply in_map_iff in Hg' as (g & <- & Hg).
    destruct (Z.eqb_spec (g_id g) (g_id g0)) as [Hid|Hid].
    - destruct (outcome w target (g_num_guesses g0 + 1)); [congruence| |];
        unfold owned_active; cbn; apply andb_false_r.
    - eapply others_not_active; eauto. }
  assert (Hjoin : hd_error (select_active_game_word (p_id p) s1) = None)
    by (rewrite no_active_no_join by exact Hnone; reflexivity).
  split; [|split].
  - rewrite current_game_run, Hp1. unfold select_active_game. rewrite Hnone. reflexivity.
  - intros orc'. rewrite guess_run, Hp1, Hjoin. reflexivity.
  - intros orc' f'.
    destruct (guess_effect rq' orc' f' s1)
      as [E|(p' & gw' & w' & r' & Hp' & Hgw' & _)]; [exact E|].
    rewrite Hp1 in Hp'. inversion Hp'; subst p'. congruence.
Qed.

Lemma filter_map_same {A} (p : A -> bool) (F : A -> A) l :
  (forall x, p (F x) = p x) -> filter p (map F l) = map F (filter p l).
Proof.
  intros HF. induction l as [|a l IH]; [reflexivity|]. cbn [map filter].
  rewrite HF. destruct (p a); cbn [map]; now rewrite IH.
Qed.

(** X11: after an accepted guess that leaves the game "active",
    query-current from the same fingerprint reports that game with the
    status, the guess count and the guess list of the guess response. *)
Theorem active_guess_then_current rq orc f s body s1 :
  run (guess rq orc) f s = (Ret (body, 200), s1) ->
  jget "status" body = Some (JStr (status_str active)) ->
  one_active_game s ->
  forall rq', get_fingerprint rq' = get_fingerprint rq ->
  exists body',
    run (current_game rq') None s1 = (Ret (body', 200), s1) /\
    jget "game_id" body' = jget "game_id" body /\
    jget "status" body' = jget "status" body /\
    jget "num_guesses" body' = jget "num_guesses" body /\
    jget "guesses" body' = jget "guesses" body /\
    jget "guesses" body' <> None.
Proof.
  intros H Hst Hone rq' Hfp.
  destruct (accepted_guess_state _ _ _ _ _ _ H Hone)
    as (p & g0 & target & w & result & Hp & Hg0 & Hown & Hf & Hplayers & Hgames & ->).
  rewrite status_of_response in Hst. cbn [gw_word gw_num_guesses] in Hst.
  apply status_str_inj in Hst.
  assert (Hp1 : hd_error (select_player (get_fingerprint rq') s1) = Some p).
  { rewrite Hfp. unfold select_player. rewrite Hplayers. exact Hp. }
  rewrite Hst in Hgames.
  assert (Hact : filter (owned_active (p_id p)) (games s1)
                 = [set_num_guesses (g_num_guesses g0 + 1) g0]).
  { rewrite Hgames, filter_map_same, Hf.
    - cbn [map]. now rewrite Z.eqb_refl.
    - intros g. destruct (g_id g =? g_id g0); reflexivity. }
  apply owned_active_inv in Hown as [_ Hstatus].
  rewrite current_game_run, Hp1. unfold select_active_game. rewrite Hact.
  cbn [map hd_error game_columns set_num_guesses g_id g_status g_num_guesses a_id
       a_status a_num_guesses].
  eexists. split; [reflexivity|].
  unfold guess_response. cbn [gw_word gw_num_guesses gw_id]. rewrite Hst, Hstatus.
  repeat split; try reflexivity. discriminate.
Qed.

(** ** Bodies without the field, or with an unusable one *)

Lemma lacks_field key rq : lacks key rq = true -> field key rq = Ret [].
Proof.
  unfold lacks, field, body. destruct (get_json rq) as [j|]; [|reflexivity].
  destruct (truthy j) eqn:Ht; cbn [negb orb]; [|reflexivity].
  destruct j; try discriminate.
  cbn [py_get res_bind]. destruct (dict_lookup key kv); [discriminate|reflexivity].
Qed.

Lemma unusable_field key rq j :
  get_json rq = Some j -> unusable key j = true -> field key rq = Raise AttributeError.
Proof.
  unfold unusable, field, body. intros -> H.
  destruct j as [|b|z|q|str|l|kv]; try (rewrite H; reflexivity).
  destruct kv as [|x kv]; [discriminate|].
  cbn [truthy is_empty negb py_get res_bind].
  destruct (dict_lookup key (x :: kv)) as [[]|]; try discriminate; reflexivity.
Qed.

Lemma field_raises key rq e :
  field key rq = Raise e ->
  e = AttributeError /\ exists j, get_json rq = Some j /\ unusable key j = true.
Proof.
  unfold field, body, unusable. destruct (get_json rq) as [j|]; [|discriminate].
  destruct (truthy j) eqn:Ht.
  - destruct j; cbn [py_get res_bind]; try (intros H; inversion H; eauto; fail).
    destruct (dict_lookup key kv) as [[]|] eqn:E; cbn [as_str]; try discriminate;
      intros H; inversion H; (split; [reflexivity|]); exists (JObj kv);
      (split; [reflexivity|]); rewrite E; reflexivity.
  - cbn. discriminate.
Qed.

Lemma register_by_field rq orc f s :
  run (register rq orc) f s =
  match field "name" rq with
  | Raise e => (Raise e, s)
  | Ret raw =>
      if is_empty (strip raw) then (Ret (error "Name is required", 400), s)
      else run (register rq orc) f s
  end.
Proof.
  unfold field, register, res_bind. db_unfold.
  destruct (py_get (body rq) "name" (JStr [])) as [v|e]; [|reflexivity].
  destruct (as_str v) as [raw|e]; [|reflexivity].
  destruct (is_empty (strip raw)); reflexivity.
Qed.

Lemma normalized_by_field rq :
  normalized_guess rq =
  match field "guess" rq with
  | Ret raw => Ret (str_lower (strip raw))
  | Raise e => Raise e
  end.
Proof.
  unfold normalized_guess, field, res_bind.
  destruct (py_get (body rq) "guess" (JStr [])); [|reflexivity].
  destruct (as_str a); reflexivity.
Qed.

Lemma guess_untouched_unless_accepted rq orc f s :
  (forall w, normalized_guess rq = Ret w -> well_formed w = true -> in_bank w s = true ->
             False) ->
  snd (run (guess rq orc) f s) = s.
Proof.
  intros H.
  destruct (guess_effect rq orc f s)
    as [E|(p & gw & w & r & _ & _ & Hw & Hwf & Hin & _)]; [exact E|].
  exfalso. eauto.
Qed.

(** X13: a registration that does not say a name (no JSON body, a body
    that is false as a Python value, an object without "name") is answered
    400 "Name is required" before storage is touched.  A guess that does not
    say a guess is, for a player with an active game, answered 400 "Guess
    must be exactly 5 letters" (the lower-casing of the empty string being
    empty), and changes no table. *)
Theorem missing_field_is_empty rq orc s :
  (lacks "name" rq = true ->
   forall f, run (register rq orc) f s = (Ret (error "Name is required", 400), s)) /\
  (lacks "guess" rq = true -> str_lower [] = [] ->
   (forall f, snd (run (guess rq orc) f s) = s) /\
   forall p gw,
     hd_error (select_player (get_fingerprint rq) s) = Some p ->
     hd_error (select_active_game_word (p_id p) s) = Some gw ->
     run (guess rq orc) None s = (Ret (error "Guess must be exactly 5 letters", 400), s)).
Proof.
  split.
  - intros H f. rewrite register_by_field, (lacks_field _ _ H). reflexivity.
  - intros H Hlower.
    assert (Hw : normalized_guess rq = Ret []).
    { rewrite normalized_by_field, (lacks_field _ _ H). cbn. now rewrite Hlower. }
    split.
    + intros f. apply guess_untouched_unless_accepted. intros w Hw' Hwf _.
      rewrite Hw in Hw'. inversion Hw'; subst w. discriminate.
    + intros p gw Hp Hgw. rewrite guess_run, Hp, Hgw, Hw. reflexivity.
Qed.

(** X14: a body that is a true value but not an object, or whose field is
    not a string, makes the handler raise [AttributeError]: [register] before
    it touches storage, [guess] (for a player with an active game) after its
    two lookups; neither writes anything.  These are the only bodies on which
    reading the field raises. *)
Theorem unusable_field_raises rq orc s :
  (forall j, get_json rq = Some j -> unusable "name" j = true ->
     forall f, run (register rq orc) f s = (Raise AttributeError, s)) /\
  (forall j, get_json rq = Some j -> unusable "guess" j = true ->
     (forall f, snd (run (guess rq orc) f s) = s) /\
     forall p gw,
       hd_error (select_player (get_fingerprint rq) s) = Some p ->
       hd_error (select_active_game_word (p_id p) s) = Some gw ->
       run (guess rq orc) None s = (Raise AttributeError, s)) /\
  (forall key e, field key rq = Raise e ->
     e = AttributeError /\ exists j, get_json rq = Some j /\ unusable key j = true).
Proof.
  split; [|split].
  - intros j Hj Hbad f. rewrite register_by_field, (unusable_field _ _ _ Hj Hbad).
    reflexivity.
  - intros j Hj Hbad.
    assert (Hw : normalized_guess rq = Raise AttributeError).
    { rewrite normalized_by_field, (unusable_field _ _ _ Hj Hbad). reflexivity. }
    split.
    + intros f. apply guess_untouched_unless_accepted. intros w Hw'. congruence.
    + intros p gw Hp Hgw. rewrite guess_run, Hp, Hgw, Hw. reflexivity.
  - intros key e. apply field_raises.
Qed.

(** ** Targets that are not five letters long *)

Lemma str_eqb_length a b : str_eqb a b = true -> length a = length b.
Proof. intros H. apply str_eqb_eq in H. now subst. Qed.

(** X15: nothing in the guess handler checks the length of the target.
    Against a target of fewer than five characters every well-formed guess
    of a bank word makes the handler raise [IndexError] with nothing
    written; against a longer one the guess is accepted but the status it
    reports is never "won". *)
Theorem target_not_five_letters rq orc s p gw w :
  hd_error (select_player (get_fingerprint rq) s) = Some p ->
  hd_error (select_active_game_word (p_id p) s) = Some gw ->
  normalized_guess rq = Ret w -> well_formed w = true -> in_bank w s = true ->
  ((length (gw_word gw) < 5)%nat ->
     run (guess rq orc) None s = (Raise IndexError, s) /\
     forall f, snd (run (guess rq orc) f s) = s) /\
  ((5 < length (gw_word gw))%nat ->
     exists body s1,
       run (guess rq orc) None s = (Ret (body, 200), s1) /\
       (jget "status" body = Some (JStr (status_str active)) \/
        jget "status" body = Some (JStr (status_str lost)))).
Proof.
  intros Hp Hgw Hw Hwf Hin.
  assert (Hlen : length w = 5%nat).
  { unfold well_formed in Hwf. apply andb_true_iff in Hwf as [Hl _].
    now apply Nat.eqb_eq in Hl. }
  split.
  - intros Hshort.
    assert (Hev : _evaluate_guess w (gw_word gw) = Raise IndexError)
      by (apply evaluate_short; now right).
    split.
    + rewrite guess_run, Hp, Hgw, Hw, Hwf, Hin, Hev. reflexivity.
    + intros f.
      destruct (guess_effect rq orc f s)
        as [E|(p' & gw' & w' & r & Hp' & Hgw' & Hw' & _ & _ & Hev' & _)]; [exact E|].
      rewrite Hp in Hp'. inversion Hp'; subst p'.
      rewrite Hgw in Hgw'. inversion Hgw'; subst gw'.
      rewrite Hw in Hw'. inversion Hw'; subst w'. congruence.
  - intros Hlong.
    destruct (evaluate_long w (gw_word gw)) as (es & Hev & _); [lia|lia|].
    rewrite guess_run, Hp, Hgw, Hw, Hwf, Hin, Hev. cbv beta iota zeta delta [negb].
    eexists. eexists. split; [reflexivity|].
    rewrite status_of_response. unfold outcome.
    destruct (str_eqb w (gw_word gw)) eqn:E.
    + apply str_eqb_length in E. lia.
    + destruct (gw_num_guesses gw + 1 =? 6); auto.
Qed.

(** ** What stays true of the games and their guesses *)

Lemma outcome_active_count w target n : outcome w target n = active -> n <> 6.
Proof.
  unfold outcome. destruct (str_eqb w target); [discriminate|].
  destruct (Z.eqb_spec n 6); [discriminate|auto].
Qed.

Lemma ids_unique_step o rq orc f s :
  game_ids_unique s -> game_ids_unique (snd (run (handle o rq orc) f s)).
Proof.
  intros Hu. unfold game_ids_unique in *.
  destruct (handle_games_step o rq orc f s)
    as [Hsame | p row _ _ _ Hid _ _ Happ | i0 g0 st n t _ _ _ Hmap].
  - now rewrite Hsame.
  - rewrite Happ, map_app. cbn [map].
    apply NoDup_app; [assumption|repeat constructor; simpl; tauto|].
    intros x Hx [<-|[]]. rewrite Hid in Hx. apply fresh_id_above in Hx. lia.
  - rewrite Hmap, map_map. erewrite map_ext; [exact Hu|].
    intros r. destruct (g_id r =? g_id g0); [destruct st|]; reflexivity.
Qed.

(** The tables one request leaves, when they are not the ones it found. *)
Lemma handle_effect o rq orc f s :
  let s' := snd (run (handle o rq orc) f s) in
  (games s' = games s /\ guesses s' = guesses s) \/
  (exists pid wid, s' = fst (insert_game pid wid (now orc) s)) \/
  (exists g0 w target result,
     In g0 (games s) /\ g_status g0 = active /\
     let gw := mk_game_word (g_id g0) (g_status g0) (g_num_guesses g0) target in
     (f = Some 4%nat /\ s' = record_guess gw w result s) \/
     (f <> Some 4%nat /\ s' = advance_game gw w (now orc) (record_guess gw w result s))).
Proof.
  cbv zeta. destruct o; cbn [handle].
  - destruct (register_effect rq orc f s) as [->|(raw & _ & _ & _ & ->)]; left; auto.
  - rewrite me_effect. auto.
  - destruct (new_game_effect rq orc f s) as [->|(p & w & _ & _ & _ & ->)]; [auto|].
    right. left. eauto.
  - rewrite current_game_effect. auto.
  - destruct (guess_effect rq orc f s)
      as [->|(p & gw & w & result & _ & Hgw & _ & _ & _ & _ & Hcase)]; [auto|].
    destruct (joined_game _ _ _ Hgw) as (i & g0 & wr & Hi & Hown & _ & _ & ->).
    apply owned_active_inv in Hown as [_ Hact]. apply nth_error_In in Hi.
    right. right. exists g0, w, (w_word wr), result. auto.
  - rewrite leaderboard_effect. auto.
  - rewrite stats_effect. auto.
Qed.

Lemma games_stay_ok_aux o rq orc f s :
  games_ok s -> game_ids_unique s ->
  games_ok (snd (run (handle o rq orc) f s)) /\
  game_ids_unique (snd (run (handle o rq orc) f s)).
Proof.
  intros Hok Hu. split; [|now apply ids_unique_step].
  unfold games_ok in *.
  destruct (handle_effect o rq orc f s)
    as [[Hg _]|[(pid & wid & ->)|(g0 & w & target & result & Hg0 & Hact & Hcase)]].
  - now rewrite Hg.
  - unfold insert_game. cbn [fst games]. apply Forall_app. split; [assumption|].
    repeat constructor; cbn; lia.
  - cbv zeta in Hcase. destruct Hcase as [[_ ->]|[_ ->]]; [exact Hok|].
    rewrite advance_game_games. cbn [gw_id gw_word gw_num_guesses record_guess
                                     insert_guess fst games].
    apply Forall_forall. intros g' Hg'. apply in_map_iff in Hg' as (g & <- & Hg).
    rewrite Forall_forall in Hok.
    destruct (Z.eqb_spec (g_id g) (g_id g0)) as [Hid|Hid]; [|auto].
    assert (g = g0) by (apply (nodup_map_inj g_id (games s)); auto). subst g.
    specialize (Hok g0 Hg0). unfold game_ok in *. rewrite Hact in Hok.
    destruct (outcome w target (g_num_guesses g0 + 1)) eqn:Hout; cbn.
    + rewrite Hact. apply outcome_active_count in Hout. split; [lia|tauto].
    + split; [lia|discriminate].
    + apply outcome_lost in Hout. split; [tauto|discriminate].
Qed.

(** X16: every request, whatever storage does, keeps the games well
    formed: an active game has at most five guesses and no completion time, a
    won game one to six guesses, a lost game exactly six, and both a
    completion time.  No game ever counts more than six guesses. *)
Theorem games_stay_ok o rq orc f s :
  games_ok s -> game_ids_unique s ->
  let s' := snd (run (handle o rq orc) f s) in
  games_ok s' /\ game_ids_unique s' /\
  forall g, In g (games s') -> 0 <= g_num_guesses g <= 6.
Proof.
  intros Hok Hu. cbv zeta.
  destruct (games_stay_ok_aux o rq orc f s Hok Hu) as [Hmain Hu'].
  split; [exact Hmain|]. split; [exact Hu'|].
  intros g Hg. unfold games_ok in Hmain. rewrite Forall_forall in Hmain.
  specialize (Hmain g Hg). unfold game_ok in Hmain.
  destruct (g_status g); lia.
Qed.

Lemma one_to_succ n : 0 <= n -> one_to (n + 1) = one_to n ++ [n + 1].
Proof.
  intros Hn. unfold one_to.
  replace (Z.to_nat (n + 1)) with (S (Z.to_nat n)) by lia.
  rewrite seq_S, map_app. cbn [map]. do 2 f_equal. lia.
Qed.

Lemma guess_numbers_recorded gid gid' w n r s :
  guess_numbers gid
    (mk_db (players s) (words s) (games s) (guesses s ++ [mk_guess gid' w n r]))
  = guess_numbers gid s ++ (if gid' =? gid then [n] else []).
Proof.
  unfold guess_numbers. cbn [guesses]. rewrite filter_app, map_app. cbn [filter gs_game_id].
  destruct (gid' =? gid); reflexivity.
Qed.

(** X17: served without a storage failure, every request keeps the
    guesses of every game numbered 1, 2, ..., [num_guesses] in the order they
    were made, together with what that rests on: well-formed games, unique
    game ids, and guesses that belong to stored games. *)
Theorem guesses_stay_numbered o rq orc s :
  games_ok s -> game_ids_unique s -> guesses_have_games s -> numbered s ->
  let s' := snd (run (handle o rq orc) None s) in
  games_ok s' /\ game_ids_unique s' /\ guesses_have_games s' /\ numbered s'.
Proof.
  intros Hok Hu Hfk Hnum. cbv zeta.
  destruct (games_stay_ok_aux o rq orc None s Hok Hu) as [Hok' Hu'].
  split; [exact Hok'|]. split; [exact Hu'|].
  destruct (handle_effect o rq orc None s)
    as [[Hg Hr]|[(pid & wid & Heq)|(g0 & w & target & result & Hg0 & Hact & Hcase)]].
  - unfold guesses_have_games, numbered, guess_numbers in *. rewrite Hg, Hr. auto.
  - rewrite Heq. unfold insert_game. cbn [fst]. split.
    + unfold guesses_have_games in *. cbn [games guesses]. intros r Hr.
      rewrite map_app. apply in_or_app. left. auto.
    + unfold numbered, guess_numbers in *. cbn [games guesses].
      intros g Hg. apply in_app_or in Hg as [Hg|[<-|[]]]; [auto|].
      cbn [g_id g_num_guesses]. now rewrite (no_guesses_of_fresh s Hfk).
  - cbv zeta in Hcase. destruct Hcase as [[Hf _]|[_ Heq]]; [discriminate Hf|].
    rewrite Heq. split.
    + unfold guesses_have_games in *. rewrite advance_game_games.
      assert (Hguesses : forall t0, guesses (advance_game
                 (mk_game_word (g_id g0) (g_status g0) (g_num_guesses g0) target) w t0
                 (record_guess (mk_game_word (g_id g0) (g_status g0) (g_num_guesses g0)
                                             target) w result s))
               = guesses s ++ [mk_guess (g_id g0) w (g_num_guesses g0 + 1) (dumps result)]).
      { intros t0. unfold advance_game. destruct (is_active _); reflexivity. }
      rewrite Hguesses. cbn [gw_id gw_word gw_num_guesses record_guess insert_guess fst
                             games].
      intros r Hr. rewrite map_map.
      erewrite map_ext with (g := g_id).
      * apply in_app_or in Hr as [Hr|[<-|[]]]; [auto|]. cbn. now apply in_map.
      * intros r'. destruct (g_id r' =? g_id g0); [|reflexivity].
        destruct (outcome w target (g_num_guesses g0 + 1)); reflexivity.
    + unfold numbered in *. intros g' Hg'.
      rewrite advance_game_games in Hg'.
      cbn [gw_id gw_word gw_num_guesses record_guess insert_guess fst games] in Hg'.
      apply in_map_iff in Hg' as (g & <- & Hg).
      assert (Hnums : forall gid,
        guess_numbers gid (advance_game
                 (mk_game_word (g_id g0) (g_status g0) (g_num_guesses g0) target) w (now orc)
                 (record_guess (mk_game_word (g_id g0) (g_status g0) (g_num_guesses g0)
                                             target) w result s))
        = guess_numbers gid s ++ (if g_id g0 =? gid then [g_num_guesses g0 + 1] else [])).
      { intros gid. rewrite <- guess_numbers_recorded with (w := w) (r := dumps result).
        unfold advance_game. destruct (is_active _); reflexivity. }
      destruct (Z.eqb_spec (g_id g) (g_id g0)) as [Hid|Hid].
      * assert (g = g0) by (apply (nodup_map_inj g_id (games s)); auto). subst g.
        assert (Hn0 : 0 <= g_num_guesses g0).
        { unfold games_ok in Hok. rewrite Forall_forall in Hok.
          specialize (Hok g0 Hg0). unfold game_ok in Hok. rewrite Hact in Hok. lia. }
        replace (g_id (match outcome w target (g_num_guesses g0 + 1) with
                       | active => set_num_guesses (g_num_guesses g0 + 1) g0
                       | _ => set_finished (g_num_guesses g0 + 1)
                                (outcome w target (g_num_guesses g0 + 1)) (now orc) g0
                       end)) with (g_id g0)
          by (destruct (outcome w target (g_num_guesses g0 + 1)); reflexivity).
        replace (g_num_guesses (match outcome w target (g_num_guesses g0 + 1) with
                       | active => set_num_guesses (g_num_guesses g0 + 1) g0
                       | _ => set_finished (g_num_guesses g0 + 1)
                                (outcome w target (g_num_guesses g0 + 1)) (now orc) g0
                       end)) with (g_num_guesses g0 + 1)
          by (destruct (outcome w target (g_num_guesses g0 + 1)); reflexivity).
        rewrite Hnums, Z.eqb_refl, (Hnum g0 Hg0). symmetry. now apply one_to_succ.
      * rewrite Hnums. destruct (Z.eqb_spec (g_id g0) (g_id g)); [congruence|].
        rewrite app_nil_r. auto.
Qed.

(** ** The leaderboard *)

Lemma insert_by_sorted {A} (le : A -> A -> bool) x l :
  (forall a b, le a b = false -> le b a = true) ->
  Sorted (fun a b => le a b = true) l ->
  Sorted (fun a b => le a b = true) (insert_by le x l).
Proof.
  intros Htot. induction 1 as [|y l Hs IH Hhd]; cbn [insert_by].
  - repeat constructor.
  - destruct (le x y) eqn:E.
    + repeat constructor; auto.
    + constructor; [assumption|].
      destruct l as [|z l]; cbn [insert_by] in *.
      * constructor. now apply Htot.
      * destruct (le x z); constructor; [now apply Htot|].
        inversion Hhd; subst. assumption.
Qed.

Lemma order_by_sorted {A} (le : A -> A -> bool) l :
  (forall a b, le a b = false -> le b a = true) ->
  Sorted (fun a b => le a b = true) (order_by le l).
Proof.
  intros Htot. unfold order_by. induction l as [|x l IH]; cbn [fold_right].
  - constructor.
  - now apply insert_by_sorted.
Qed.

Lemma Sorted_firstn {A} (R : A -> A -> Prop) n : forall l,
  Sorted R l -> Sorted R (firstn n l).
Proof.
  induction n as [|n IH]; intros l H; [constructor|].
  destruct l as [|a l]; [constructor|]. cbn [firstn].
  inversion H as [|? ? Hs Hhd]; subst. constructor; [auto|].
  destruct n; cbn [firstn]; [constructor|]. destruct l as [|b l]; [constructor|].
  inversion Hhd; subst. now constructor.
Qed.

Lemma in_firstn {A} n (l : list A) x : In x (firstn n l) -> In x l.
Proof. intros H. rewrite <- (firstn_skipn n l). apply in_or_app. now left. Qed.

Lemma by_avg_guesses_total a b : by_avg_guesses a b = false -> by_avg_guesses b a = true.
Proof.
  unfold by_avg_guesses.
  destruct (s_avg_guesses_per_win a) as [x|], (s_avg_guesses_per_win b) as [y|];
    try discriminate; try reflexivity.
  unfold Qle_bool. intros H. apply Z.leb_gt in H. apply Z.leb_le. lia.
Qed.

Lemma by_games_won_desc_total a b :
  by_games_won_desc a b = false -> by_games_won_desc b a = true.
Proof.
  unfold by_games_won_desc. intros H. apply Z.leb_gt in H. apply Z.leb_le. lia.
Qed.

(** X18: the leaderboard handler changes no table and answers with two
    lists taken from the statistics view: "champions", at most 20 rows, each
    with at least five wins, in ascending order of average guesses per win
    (rows without an average last); "prolific", at most 20 rows in descending
    order of wins, and all of the view when it has no more than 20 rows. *)
Theorem leaderboard_lists s :
  let champions := select_champions s in
  let prolific := select_prolific s in
  run leaderboard None s =
    (Ret (JObj [("champions"%string, _serialize champions);
                ("prolific"%string, _serialize prolific)], 200), s) /\
  (forall f, snd (run leaderboard f s) = s) /\
  (length champions <= 20)%nat /\ (length prolific <= 20)%nat /\
  (forall r, In r champions -> In r (leaderboard_stats s) /\ 5 <= s_games_won r) /\
  (forall r, In r prolific -> In r (leaderboard_stats s)) /\
  Sorted (fun a b => by_avg_guesses a b = true) champions /\
  Sorted (fun a b => s_games_won b <= s_games_won a) prolific /\
  ((length (leaderboard_stats s) <= 20)%nat -> Permutation prolific (leaderboard_stats s)).
Proof.
  cbv zeta. unfold select_champions, select_prolific.
  split; [unfold leaderboard; db_unfold; reflexivity|].
  split; [intros f; apply leaderboard_effect|].
  split; [apply firstn_le_length|]. split; [apply firstn_le_length|].
  split; [|split; [|split; [|split]]].
  - intros r Hr. apply in_firstn in Hr.
    apply (Permutation_in _ (order_by_perm _ _)) in Hr.
    apply filter_In in Hr as [Hin Hwon]. split; [assumption|]. now apply Z.leb_le.
  - intros r Hr. apply in_firstn in Hr.
    now apply (Permutation_in _ (order_by_perm _ _)) in Hr.
  - apply Sorted_firstn. apply order_by_sorted. apply by_avg_guesses_total.
  - apply Sorted_firstn.
    assert (H := order_by_sorted by_games_won_desc (leaderboard_stats s)
                   by_games_won_desc_total).
    induction H as [|a l Hs IH Hhd]; constructor; auto.
    destruct Hhd as [|b l Hab]; constructor.
    unfold by_games_won_desc in Hab. now apply Z.leb_le.
  - intros Hlen. rewrite firstn_all2; [apply order_by_perm|].
    rewrite (Permutation_length (order_by_perm _ _)). exact Hlen.
Qed.

(** ** Seeding the bank *)

Lemma insert_word_words w s :
  words (insert_word w s)
  = words s ++ (if in_bank w s then []
                else [mk_word (fresh_id (map w_id (words s))) w]).
Proof.
  unfold insert_word. destruct (in_bank w s); cbn [words]; [now rewrite app_nil_r|reflexivity].
Qed.

Lemma in_bank_app w s s' extra :
  words s' = words s ++ extra ->
  in_bank w s' = in_bank w s || existsb (fun r => str_eqb (w_word r) w) extra.
Proof. intros H. unfold in_bank. now rewrite H, existsb_app. Qed.

Lemma insert_word_in_bank w s : in_bank w (insert_word w s) = true.
Proof.
  rewrite (in_bank_app w s _ _ (insert_word_words w s)).
  destruct (in_bank w s); [reflexivity|]. cbn. now rewrite str_eqb_refl.
Qed.

Lemma insert_word_keeps x w s : in_bank x s = true -> in_bank x (insert_word w s) = true.
Proof.
  intros H. rewrite (in_bank_app x s _ _ (insert_word_words w s)), H. reflexivity.
Qed.

Lemma insert_word_known w s : in_bank w s = true -> insert_word w s = s.
Proof. intros H. unfold insert_word. now rewrite H. Qed.

Lemma not_in_bank w s : in_bank w s = false -> ~ In w (map w_word (words s)).
Proof.
  unfold in_bank. intros H Hin. apply in_map_iff in Hin as (r & <- & Hr).
  assert (existsb (fun r0 => str_eqb (w_word r0) (w_word r)) (words s) = true);
    [|congruence].
  apply existsb_exists. exists r. split; [assumption|apply str_eqb_refl].
Qed.

Lemma seed_loop_spec WORDS : forall s,
  exists added,
    words (fold_left (fun s' word => insert_word (str_lower word) s') WORDS s) = words s ++ added /\
    players (fold_left (fun s' word => insert_word (str_lower word) s') WORDS s) = players s /\
    games (fold_left (fun s' word => insert_word (str_lower word) s') WORDS s) = games s /\
    guesses (fold_left (fun s' word => insert_word (str_lower word) s') WORDS s) = guesses s /\
    (length added <= length WORDS)%nat /\
    (forall r, In r added -> exists word, In word WORDS /\ w_word r = str_lower word) /\
    (forall word, In word WORDS -> in_bank (str_lower word) (fold_left (fun s' word => insert_word (str_lower word) s') WORDS s) = true) /\
    (forall x, in_bank x s = true -> in_bank x (fold_left (fun s' word => insert_word (str_lower word) s') WORDS s) = true) /\
    (NoDup (map w_word (words s)) -> NoDup (map w_word (words (fold_left (fun s' word => insert_word (str_lower word) s') WORDS s)))).
Proof.
  induction WORDS as [|word WORDS IH]; intros s; cbn [fold_left].
  - exists []. rewrite app_nil_r. repeat split; auto; intros ? [].
  - destruct (IH (insert_word (str_lower word) s))
      as (added & Hw & Hp & Hg & Hr & Hlen & Hfrom & Hall & Hkeep & Hnd).
    set (first := if in_bank (str_lower word) s then []
                  else [mk_word (fresh_id (map w_id (words s))) (str_lower word)]) in *.
    exists (first ++ added).
    rewrite Hw, Hp, Hg, Hr, insert_word_words. fold first. rewrite app_assoc.
    split; [reflexivity|].
    split; [unfold insert_word; destruct (in_bank _ s); reflexivity|].
    split; [unfold insert_word; destruct (in_bank _ s); reflexivity|].
    split; [unfold insert_word; destruct (in_bank _ s); reflexivity|].
    split.
    { rewrite length_app. subst first. destruct (in_bank _ s); cbn [length]; lia. }
    split.
    { intros r Hin. apply in_app_or in Hin as [Hin|Hin].
      - subst first. destruct (in_bank _ s); [contradiction|].
        destruct Hin as [<-|[]]. exists word. split; [now left|reflexivity].
      - destruct (Hfrom r Hin) as (word' & Hin' & Heq). exists word'. split; [now right|auto]. }
    split.
    { intros word' [<-|Hin]; [|auto]. apply Hkeep. apply insert_word_in_bank. }
    split.
    { intros x Hx. apply Hkeep. now apply insert_word_keeps. }
    intros Hnodup. subst first. rewrite <- insert_word_words, <- Hw.
    apply Hnd. rewrite insert_word_words.
    destruct (in_bank (str_lower word) s) eqn:E; [now rewrite app_nil_r|].
    rewrite map_app. cbn [map w_word].
    apply NoDup_app; [assumption|repeat constructor; simpl; tauto|].
    intros x Hx [<-|[]]. exact (not_in_bank _ _ E Hx).
Qed.

(** X19: [seed_words] leaves in the bank, after the rows the schema run
    left there, at most one new row per listed word, each holding a listed
    word lower-cased; afterwards every listed word, lower-cased, passes the
    dictionary test of the guess handler; no other table changes; and no
    word is stored twice if none was before. *)
Theorem seed_words_bank (init_db : db -> db) WORDS s :
  let s1 := fst (seed_words init_db WORDS s) in
  exists added,
    words s1 = words (init_db s) ++ added /\
    players s1 = players (init_db s) /\
    games s1 = games (init_db s) /\
    guesses s1 = guesses (init_db s) /\
    (length added <= length WORDS)%nat /\
    (forall r, In r added -> exists word, In word WORDS /\ w_word r = str_lower word) /\
    (forall word, In word WORDS ->
       in_bank (str_lower word) s1 = true /\
       hd_error (select_word (str_lower word) s1) = Some 1) /\
    (NoDup (map w_word (words (init_db s))) -> NoDup (map w_word (words s1))).
Proof.
  cbv zeta. unfold seed_words. cbn [fst].
  destruct (seed_loop_spec WORDS (init_db s))
    as (added & Hw & Hp & Hg & Hr & Hlen & Hfrom & Hall & _ & Hnd).
  exists added. repeat (split; [assumption|]). split; [|assumption].
  intros word Hin. specialize (Hall word Hin). split; [assumption|].
  now rewrite select_word_in_bank, Hall.
Qed.

(** X20: the message of [seed_words] gives the length of the list, not
    the number of rows inserted: over a bank that already holds every listed
    word (as after a first seeding, when the schema run leaves the tables
    alone) the loop inserts nothing and the number is still the length. *)
Theorem seed_words_again (init_db : db -> db) WORDS s :
  (forall word, In word WORDS -> in_bank (str_lower word) (init_db s) = true) ->
  seed_words init_db WORDS s = (init_db s, length WORDS).
Proof.
  intros H. unfold seed_words. f_equal.
  generalize dependent (init_db s). clear s.
  induction WORDS as [|word WORDS IH]; intros s H; [reflexivity|]. cbn [fold_left].
  rewrite insert_word_known by (apply H; now left).
  apply IH. intros word' Hin. apply H. now right.
Qed.
End MoreHandlers.

(** * Which handler writes which table *)

Section Writes.
Context {ext : External}.

Lemma update_keeps_keys gid (f : game_row -> game_row) s :
  (forall g, game_key (f g) = game_key g) ->
  map game_key (games (fst (update_where_id gid f s))) = map game_key (games s).
Proof.
  intros Hf. cbn [update_where_id fst games]. rewrite map_map.
  apply map_ext. intros g. destruct (g_id g =? gid); [apply Hf|reflexivity].
Qed.

Lemma advance_game_keys gw w t s :
  map game_key (games (advance_game gw w t s)) = map game_key (games s).
Proof.
  unfold advance_game. cbv zeta.
  destruct (is_active _); apply update_keeps_keys; intros g; reflexivity.
Qed.

Lemma advance_game_rest gw w t s :
  players (advance_game gw w t s) = players s /\
  words (advance_game gw w t s) = words s /\
  guesses (advance_game gw w t s) = guesses s.
Proof. unfold advance_game. cbv zeta. destruct (is_active _); repeat split. Qed.

(** X21: rows are only ever appended, at most one per request and table:
    a player by [register] alone, a guess by [guess] alone, a game by
    [new_game] alone; the word bank is never written.  A stored game keeps its
    id, owner, target and creation time through every request, and only
    [guess] changes a stored game at all.  The four reading handlers leave
    every table as it was.  All of this whatever storage does. *)
Theorem tables_only_grow o rq orc f s :
  let s' := snd (run (handle o rq orc) f s) in
  words s' = words s /\
  (exists new, players s' = players s ++ new /\ (length new <= 1)%nat /\
               (o <> Register -> new = [])) /\
  (exists new, guesses s' = guesses s ++ new /\ (length new <= 1)%nat /\
               (o <> Guess -> new = [])) /\
  (exists new, map game_key (games s') = map game_key (games s) ++ new /\
               (length new <= 1)%nat /\ (o <> NewGame -> new = [])) /\
  (o <> Guess -> firstn (length (games s)) (games s') = games s) /\
  (o = Me \/ o = CurrentGame \/ o = Leaderboard \/ o = Stats -> s' = s).
Proof.
  cbv zeta.
  assert (Hsame : forall s', s' = s ->
    words s' = words s /\
    (exists new, players s' = players s ++ new /\ (length new <= 1)%nat /\
                 (o <> Register -> new = [])) /\
    (exists new, guesses s' = guesses s ++ new /\ (length new <= 1)%nat /\
                 (o <> Guess -> new = [])) /\
    (exists new, map game_key (games s') = map game_key (games s) ++ new /\
                 (length new <= 1)%nat /\ (o <> NewGame -> new = [])) /\
    (o <> Guess -> firstn (length (games s)) (games s') = games s) /\
    (o = Me \/ o = CurrentGame \/ o = Leaderboard \/ o = Stats -> s' = s)).
  { intros s' ->. split; [reflexivity|].
    split; [exists []; rewrite app_nil_r; cbn; auto|].
    split; [exists []; rewrite app_nil_r; cbn; auto|].
    split; [exists []; rewrite app_nil_r; cbn; auto|].
    split; [intros _; apply firstn_all|auto]. }
  destruct o; cbn [handle].
  - destruct (register_effect rq orc f s) as [H|(raw & _ & _ & _ & H)]; [now apply Hsame|].
    rewrite H. cbn [insert_player fst players words games guesses].
    split; [reflexivity|].
    split; [eexists; split; [reflexivity|]; split; [cbn; lia|congruence]|].
    split; [exists []; rewrite app_nil_r; cbn; auto|].
    split; [exists []; rewrite app_nil_r; cbn; auto|].
    split; [intros _; apply firstn_all|].
    intros [H'|[H'|[H'|H']]]; discriminate H'.
  - apply Hsame, me_effect.
  - destruct (new_game_effect rq orc f s) as [H|(p & w & _ & _ & _ & H)]; [now apply Hsame|].
    rewrite H. cbn [insert_game fst players words games guesses].
    split; [reflexivity|].
    split; [exists []; rewrite app_nil_r; cbn; auto|].
    split; [exists []; rewrite app_nil_r; cbn; auto|].
    split; [rewrite map_app; eexists; split; [reflexivity|]; split; [cbn; lia|congruence]|].
    split; [intros _; rewrite firstn_app, Nat.sub_diag, firstn_all; apply app_nil_r|].
    intros [H'|[H'|[H'|H']]]; discriminate H'.
  - apply Hsame, current_game_effect.
  - destruct (guess_effect rq orc f s)
      as [H|(p & gw & w & result & _ & _ & _ & _ & _ & _ & [[_ H]|[_ H]])];
      [now apply Hsame| |].
    + rewrite H. unfold record_guess. cbn [insert_guess fst players words games guesses].
      split; [reflexivity|].
      split; [exists []; rewrite app_nil_r; cbn; auto|].
      split; [eexists; split; [reflexivity|]; split; [cbn; lia|congruence]|].
      split; [exists []; rewrite app_nil_r; cbn; auto|].
      split; [congruence|].
      intros [H'|[H'|[H'|H']]]; discriminate H'.
    + rewrite H. rewrite advance_game_keys.
      destruct (advance_game_rest gw w (now orc) (record_guess gw w result s))
        as (-> & -> & ->).
      unfold record_guess. cbn [insert_guess fst players words games guesses].
      split; [reflexivity|].
      split; [exists []; rewrite app_nil_r; cbn; auto|].
      split; [eexists; split; [reflexivity|]; split; [cbn; lia|congruence]|].
      split; [exists []; rewrite app_nil_r; cbn; auto|].
      split; [congruence|].
      intros [H'|[H'|[H'|H']]]; discriminate H'.
  - apply Hsame, leaderboard_effect.
  - apply Hsame, stats_effect.
Qed.

End Writes.

(** * The further properties at concrete requests *)

Lemma db_playing_games_ok : games_ok db_playing.
Proof. repeat constructor; cbn; lia. Qed.

Lemma db_playing_guesses_have_games : guesses_have_games db_playing.
Proof. intros r []. Qed.

Lemma db_playing_numbered : numbered db_playing.
Proof. intros g [<-|[]]. reflexivity. Qed.

Lemma fingerprint_of_chain_witness :
  has_comma (lit " 10.0.0.1 ") = false /\
  forall addr ua al json_body,
    @get_fingerprint latin1
      (mk_request addr (Some (lit " 10.0.0.1 " ++ comma :: lit " 10.0.0.2")) ua al json_body)
    = @sha256_hexdigest latin1 (@strip latin1 (lit " 10.0.0.1 ") ++ header ua ++ header al).
Proof.
  split; [reflexivity|]. intros addr ua al json_body.
  apply (@fingerprint_of_chain latin1 (lit " 10.0.0.1 ") (lit " 10.0.0.2") addr ua al
           json_body).
  reflexivity.
Defined.

Lemma fingerprint_collision_witness :
  let rq1 := mk_request (Some (lit "10.0.0.1")) None (Some (lit "ua")) None None in
  let rq2 := mk_request (Some (lit "10.0.0.1u")) None None (Some (lit "a")) None in
  @get_fingerprint latin1 rq1 = @get_fingerprint latin1 rq2 /\
  forall f s, run (@me latin1 rq1) f s = run (@me latin1 rq2) f s.
Proof.
  apply (@fingerprint_collision latin1 (lit "10.0.0.1") (Some (lit "ua")) None
           (lit "10.0.0.1u") None (Some (lit "a")) None None); reflexivity.
Defined.

Lemma register_then_me_witness :
  let rq := browser (say "name" " ann ") in
  exists p s1,
    run (@register latin1 rq (mk_oracle 5 7)) None db_fresh
      = (Ret (@_serialize_player latin1 p, 201), s1) /\
    p_name p = @strip latin1 (lit " ann ") /\
    p_fingerprint p = @get_fingerprint latin1 rq /\
    players s1 = players db_fresh ++ [p] /\
    forall rq', @get_fingerprint latin1 rq' = @get_fingerprint latin1 rq ->
      run (@me latin1 rq') None s1 = (Ret (@_serialize_player latin1 p, 200), s1).
Proof.
  apply (@register_then_me latin1 (browser (say "name" " ann ")) (mk_oracle 5 7) db_fresh
           (lit " ann ")); reflexivity.
Defined.

Lemma unregistered_is_turned_away_witness :
  let rq := browser (say "guess" "crane") in
  let orc := mk_oracle 5 7 in
  run (@new_game latin1 rq orc) None db_fresh
    = (Ret (error "Player not registered", 401), db_fresh) /\
  run (@current_game latin1 rq) None db_fresh
    = (Ret (error "Player not registered", 401), db_fresh) /\
  run (@guess latin1 rq orc) None db_fresh
    = (Ret (error "Player not registered", 401), db_fresh) /\
  run (@me latin1 rq) None db_fresh = (Ret (error "Player not found", 404), db_fresh) /\
  run (@stats latin1 rq) None db_fresh = (Ret (error "Player not found", 404), db_fresh) /\
  forall o f, o <> Register -> snd (run (@handle latin1 o rq orc) f db_fresh) = db_fresh.
Proof.
  apply (@unregistered_is_turned_away latin1 (browser (say "guess" "crane"))
           (mk_oracle 5 7) db_fresh).
  reflexivity.
Defined.

Lemma started_game_is_current_witness :
  exists gid s1,
    run (@new_game latin1 (browser None) (mk_oracle 5 7)) None db_registered =
      (Ret (JObj [("game_id"%string, JInt gid); ("guesses"%string, JArr [])], 201), s1) /\
    forall rq', @get_fingerprint latin1 rq' = @get_fingerprint latin1 (browser None) ->
      run (@current_game latin1 rq') None s1 =
        (Ret (JObj [("game_id"%string, JInt gid);
                    ("status"%string, JStr (lit "active"));
                    ("num_guesses"%string, JInt 0);
                    ("guesses"%string, JArr [])], 200), s1) /\
      forall orc',
        run (@new_game latin1 rq' orc') None s1 =
          (Ret (JObj [("game_id"%string, JInt gid); ("guesses"%string, JArr [])], 200),
           s1).
Proof.
  apply (@started_game_is_current latin1 (browser None) (mk_oracle 5 7) db_registered ann).
  - reflexivity.
  - reflexivity.
  - discriminate.
  - intros r [].
Defined.

Lemma empty_bank_starts_nothing_witness :
  run (@new_game latin1 (browser None) (mk_oracle 5 7)) None db_no_words
    = (Ret (error "No words available", 500), db_no_words) /\
  forall f, snd (run (@new_game latin1 (browser None) (mk_oracle 5 7)) f db_no_words)
            = db_no_words.
Proof.
  apply (@empty_bank_starts_nothing latin1 (browser None) (mk_oracle 5 7) db_no_words ann);
    reflexivity.
Defined.

Lemma finished_game_is_closed_witness :
  let rq := browser (say "guess" "crane") in
  exists body s1,
    run (@guess latin1 rq (mk_oracle 5 7)) None db_playing = (Ret (body, 200), s1) /\
    jget "status" body = Some (JStr (status_str won)) /\
    forall rq', @get_fingerprint latin1 rq' = @get_fingerprint latin1 rq ->
      run (@current_game latin1 rq') None s1 = (Ret (error "No active game", 404), s1) /\
      (forall orc', run (@guess latin1 rq' orc') None s1
                    = (Ret (error "No active game", 404), s1)) /\
      (forall orc' f', snd (run (@guess latin1 rq' orc') f' s1) = s1).
Proof.
  cbv zeta. eexists. eexists. split; [vm_compute; reflexivity|].
  split; [reflexivity|].
  eapply (@finished_game_is_closed latin1 (browser (say "guess" "crane")) (mk_oracle 5 7)
            None db_playing).
  - vm_compute. reflexivity.
  - vm_compute. discriminate.
  - exact db_playing_one_active.
Defined.

Lemma active_guess_then_current_witness :
  let rq := browser (say "guess" "slate") in
  exists body s1,
    run (@guess latin1 rq (mk_oracle 5 7)) None db_playing = (Ret (body, 200), s1) /\
    jget "status" body = Some (JStr (status_str active)) /\
    forall rq', @get_fingerprint latin1 rq' = @get_fingerprint latin1 rq ->
    exists body',
      run (@current_game latin1 rq') None s1 = (Ret (body', 200), s1) /\
      jget "game_id" body' = jget "game_id" body /\
      jget "status" body' = jget "status" body /\
      jget "num_guesses" body' = jget "num_guesses" body /\
      jget "guesses" body' = jget "guesses" body /\
      jget "guesses" body' <> None.
Proof.
  cbv zeta. eexists. eexists. split; [vm_compute; reflexivity|].
  split; [reflexivity|].
  apply (@active_guess_then_current latin1 (browser (say "guess" "slate")) (mk_oracle 5 7)
           None db_playing).
  - vm_compute. reflexivity.
  - vm_compute. reflexivity.
  - exact db_playing_one_active.
Defined.

Lemma missing_field_is_empty_witness :
  lacks "name" (browser (say "guess" "crane")) = true /\
  forall f,
    run (@register latin1 (browser (say "guess" "crane")) (mk_oracle 5 7)) f db_fresh
    = (Ret (error "Name is required", 400), db_fresh).
Proof.
  split; [reflexivity|].
  apply (proj1 (@missing_field_is_empty latin1 (browser (say "guess" "crane"))
                  (mk_oracle 5 7) db_fresh)).
  reflexivity.
Defined.

Lemma unusable_field_raises_witness :
  unusable "name" (JObj [("name"%string, JInt 7)]) = true /\
  forall f,
    run (@register latin1 (browser (Some (JObj [("name"%string, JInt 7)]))) (mk_oracle 5 7))
        f db_fresh
    = (Raise AttributeError, db_fresh).
Proof.
  split; [reflexivity|].
  apply (proj1 (@unusable_field_raises latin1
                  (browser (Some (JObj [("name"%string, JInt 7)]))) (mk_oracle 5 7)
                  db_fresh) (JObj [("name"%string, JInt 7)])); reflexivity.
Defined.

Lemma target_not_five_letters_witness :
  let rq := browser (say "guess" "crane") in
  run (@guess latin1 rq (mk_oracle 5 7)) None db_short_target
    = (Raise IndexError, db_short_target) /\
  forall f, snd (run (@guess latin1 rq (mk_oracle 5 7)) f db_short_target) = db_short_target.
Proof.
  apply (proj1 (@target_not_five_letters latin1 (browser (say "guess" "crane"))
                  (mk_oracle 5 7) db_short_target ann
                  (mk_game_word 1 active 0 (lit "ace")) (lit "crane")
                  eq_refl eq_refl eq_refl eq_refl eq_refl)).
  cbn. lia.
Defined.

Lemma games_stay_ok_witness :
  let s' := snd (run (@handle latin1 Guess (browser (say "guess" "crane")) (mk_oracle 5 7))
                     (Some 4%nat) db_playing) in
  games_ok s' /\ game_ids_unique s' /\
  forall g, In g (games s') -> 0 <= g_num_guesses g <= 6.
Proof.
  apply (@games_stay_ok latin1 Guess (browser (say "guess" "crane")) (mk_oracle 5 7)
           (Some 4%nat) db_playing).
  - exact db_playing_games_ok.
  - exact db_playing_ids_unique.
Defined.

Lemma guesses_stay_numbered_witness :
  let s' := snd (run (@handle latin1 Guess (browser (say "guess" "slate")) (mk_oracle 5 7))
                     None db_playing) in
  games_ok s' /\ game_ids_unique s' /\ guesses_have_games s' /\ numbered s'.
Proof.
  apply (@guesses_stay_numbered latin1 Guess (browser (say "guess" "slate"))
           (mk_oracle 5 7) db_playing).
  - exact db_playing_games_ok.
  - exact db_playing_ids_unique.
  - exact db_playing_guesses_have_games.
  - exact db_playing_numbered.
Defined.

Lemma seed_words_again_witness :
  @seed_words latin1 (fun s => s) [lit "CRANE"; lit "slate"] db_registered
  = (db_registered, 2%nat).
Proof.
  apply (@seed_words_again latin1 (fun s => s) [lit "CRANE"; lit "slate"] db_registered).
  intros word [<-|[<-|[]]]; reflexivity.
Defined.
